(** * EditorX: the text buffer and interaction engine of the editor

    A shallow embedding of the editing core of [src/assets/funcional1.jsx]
    (module [Funcional1]) and of [src/App.jsx] (module [AppJsx]):
    the key handler, the undo/redo history, the search effect and
    replace-all, the tabs, dropping files, the text area as it is drawn
    and the click on a line, with the React render cycle written as
    explicit state passing.

    Conventions of the embedding.
    - A JavaScript string is a list of code units; code units are the 8-bit
      [ascii] (the Latin-1 range of UTF-16).
    - [undefined] is [None]: [lines[i]] is [nth_error lines i], a file's
      [content] and a history entry are [option jstring].
    - A handler reads the state of the render it was created in (its
      closure) and queues writes; functions that do both take the closure
      state and the pending state separately.
    - A JavaScript exception is the [Throw] completion. *)

From Stdlib Require Import String Ascii.
From Stdlib Require Import List ZArith QArith Qabs Lia Bool Arith Sorted Permutation.
Import ListNotations.
Open Scope string_scope.
Open Scope list_scope.
Open Scope nat_scope.

(* ------------------------------------------------------------------ *)
(** ** JavaScript strings and arrays *)

Definition jstring := list ascii.

Definition str (s : string) : jstring := list_ascii_of_string s.

(** The line separator ['\n']. *)
Definition nl : ascii := "010"%char.

Fixpoint streq (a b : jstring) : bool :=
  match a, b with
  | [], [] => true
  | x :: a', y :: b' => Ascii.eqb x y && streq a' b'
  | _, _ => false
  end.

(** [a === b] on values that are a string or [undefined]. *)
Definition strictEq (a b : option jstring) : bool :=
  match a, b with
  | None, None => true
  | Some x, Some y => streq x y
  | _, _ => false
  end.

(** [s.split(sep)] for a one-character separator: never the empty array. *)
Fixpoint split (sep : ascii) (s : jstring) : list jstring :=
  match s with
  | [] => [[]]
  | c :: s' =>
      if Ascii.eqb c sep then [] :: split sep s'
      else match split sep s' with
           | [] => [[c]]
           | l :: ls => (c :: l) :: ls
           end
  end.

(** [ls.join(sep)]. *)
Fixpoint join (sep : ascii) (ls : list jstring) : jstring :=
  match ls with
  | [] => []
  | l :: ls' =>
      match ls' with
      | [] => l
      | _ :: _ => l ++ sep :: join sep ls'
      end
  end.

(** [s.slice(0, n)] and [s.slice(n)] for [n >= 0]. *)
Definition slice_to (n : nat) (s : jstring) : jstring := firstn n s.
Definition slice_from (n : nat) (s : jstring) : jstring := skipn n s.

(** [a[i] = v] at an index that was read successfully before the write
    (every write of the handlers is of this kind). *)
Fixpoint array_set {A} (i : nat) (v : A) (a : list A) : list A :=
  match a, i with
  | [], _ => []
  | _ :: a', O => v :: a'
  | x :: a', S i' => x :: array_set i' v a'
  end.

(** [a.splice(i, 1)] and [a.splice(i, 0, v)]. *)
Definition splice_remove {A} (i : nat) (a : list A) : list A :=
  firstn i a ++ skipn (S i) a.
Definition splice_insert {A} (i : nat) (v : A) (a : list A) : list A :=
  firstn i a ++ v :: skipn i a.

(** [a.slice(0, e)] for an integer [e]: a negative end counts from the end
    of the array. *)
Definition array_slice0 {A} (e : Z) (a : list A) : list A :=
  if (e <? 0)%Z then firstn (length a - Z.to_nat (- e)) a
  else firstn (Z.to_nat e) a.

(** [a[i]] for an integer [i] on an array of strings: [undefined] out of
    range. *)
Definition array_get (a : list (option jstring)) (i : Z) : option jstring :=
  if (i <? 0)%Z then None
  else match nth_error a (Z.to_nat i) with
       | Some v => v
       | None => None
       end.

(* ------------------------------------------------------------------ *)
(** ** Completions *)

Inductive Exception := TypeError | SyntaxError.

(** The outcome of running a piece of code: a value, an exception, or
    [Unmodelled] when the code leaves the fragment of JavaScript that the
    embedding covers (regular expressions beyond literal characters and
    [.]). *)
Inductive Completion (A : Type) : Type :=
| Normal (a : A)
| Throw (e : Exception)
| Unmodelled.

Arguments Normal {A} a.
Arguments Throw {A} e.
Arguments Unmodelled {A}.

Definition bind {A B} (c : Completion A) (k : A -> Completion B) : Completion B :=
  match c with
  | Normal a => k a
  | Throw e => Throw e
  | Unmodelled => Unmodelled
  end.

(** [try { c } catch { h }]. *)
Definition tryCatch {A} (c : Completion A) (h : Exception -> Completion A) : Completion A :=
  match c with
  | Throw e => h e
  | _ => c
  end.

Notation "'let*' x ':=' c 'in' k" := (bind c (fun x => k))
  (at level 10, x name, c at level 100, k at level 200).

(** [v.length] of a value that is a string or [undefined]. *)
Definition lengthOf (v : option jstring) : Completion nat :=
  match v with
  | Some x => Normal (length x)
  | None => Throw TypeError
  end.

(** Reading a string that some method is then called on. *)
Definition stringOf (v : option jstring) : Completion jstring :=
  match v with
  | Some x => Normal x
  | None => Throw TypeError
  end.

(* ------------------------------------------------------------------ *)
(** ** The component state *)

Record FileEntry := mkFile { name : jstring; content : option jstring }.

Record CursorPosition := mkCursor { line : nat; char : nat }.

Record SearchResult := mkResult { res_line : nat; res_start : nat; res_end : nat }.

(** The notifications of the component, one constructor per message. *)
Inductive Notification :=
| NoNotification                 (* { message: '', type: '' } *)
| Saved                          (* "Archivo guardado correctamente.", success *)
| NoMatches                      (* "No se encontraron coincidencias.", info *)
| Replaced (n : nat)             (* "Se reemplazaron n instancias.", success *)
| SearchError.                   (* "Error en la expresion de busqueda.", error *)

Record State := mkState {
  openedFiles : list FileEntry;
  currentFileIndex : nat;
  searchQuery : jstring;
  replaceQuery : jstring;
  searchResults : list SearchResult;
  cursorPosition : CursorPosition;
  history : list (option jstring);
  historyIndex : Z;
  notification : Notification
}.

Definition setOpenedFiles (v : list FileEntry) (s : State) : State :=
  mkState v (currentFileIndex s) (searchQuery s) (replaceQuery s) (searchResults s)
          (cursorPosition s) (history s) (historyIndex s) (notification s).
Definition setCurrentFileIndex (v : nat) (s : State) : State :=
  mkState (openedFiles s) v (searchQuery s) (replaceQuery s) (searchResults s)
          (cursorPosition s) (history s) (historyIndex s) (notification s).
Definition setSearchQuery (v : jstring) (s : State) : State :=
  mkState (openedFiles s) (currentFileIndex s) v (replaceQuery s) (searchResults s)
          (cursorPosition s) (history s) (historyIndex s) (notification s).
Definition setReplaceQuery (v : jstring) (s : State) : State :=
  mkState (openedFiles s) (currentFileIndex s) (searchQuery s) v (searchResults s)
          (cursorPosition s) (history s) (historyIndex s) (notification s).
Definition setSearchResults (v : list SearchResult) (s : State) : State :=
  mkState (openedFiles s) (currentFileIndex s) (searchQuery s) (replaceQuery s) v
          (cursorPosition s) (history s) (historyIndex s) (notification s).
Definition setCursorPosition (v : CursorPosition) (s : State) : State :=
  mkState (openedFiles s) (currentFileIndex s) (searchQuery s) (replaceQuery s) (searchResults s)
          v (history s) (historyIndex s) (notification s).
Definition setHistory (v : list (option jstring)) (s : State) : State :=
  mkState (openedFiles s) (currentFileIndex s) (searchQuery s) (replaceQuery s) (searchResults s)
          (cursorPosition s) v (historyIndex s) (notification s).
Definition setHistoryIndex (v : Z) (s : State) : State :=
  mkState (openedFiles s) (currentFileIndex s) (searchQuery s) (replaceQuery s) (searchResults s)
          (cursorPosition s) (history s) v (notification s).
Definition setNotification (v : Notification) (s : State) : State :=
  mkState (openedFiles s) (currentFileIndex s) (searchQuery s) (replaceQuery s) (searchResults s)
          (cursorPosition s) (history s) (historyIndex s) v.

(** The [useState] initial values of [Editor] and [App]. *)
Definition initialState : State :=
  mkState [] 0 [] [] [] (mkCursor 0 0) [] (-1)%Z NoNotification.

(** [const currentFile = openedFiles[currentFileIndex]]. *)
Definition currentFile (s : State) : option FileEntry :=
  nth_error (openedFiles s) (currentFileIndex s).

(** The lines of the active document, when there is one with text. *)
Definition currentLines (s : State) : option (list jstring) :=
  match currentFile s with
  | Some f => option_map (split nl) (content f)
  | None => None
  end.

(* ------------------------------------------------------------------ *)
(** ** Key events and the [switch] of [handleKeyDown] *)

Record KeyEvent := mkKey { key : jstring; ctrlKey : bool; metaKey : bool }.

Definition plainKey (k : string) : KeyEvent := mkKey (str k) false false.
Definition ctrlPlus (k : string) : KeyEvent := mkKey (str k) true false.

Definition keyIs (e : KeyEvent) (k : string) : bool := streq (key e) (str k).

(** [(e.ctrlKey || e.metaKey) && e.key === k]. *)
Definition accelerator (e : KeyEvent) (k : string) : bool :=
  (ctrlKey e || metaKey e) && keyIs e k.

(** The result of the switch: the local variables [lines], [line], [char]
    and [contentChanged]. *)
Record SwitchResult := mkSwitch {
  sw_lines : list jstring;
  sw_line : nat;
  sw_char : nat;
  sw_contentChanged : bool
}.

(** The [switch (e.key)] statement, shared by the two files up to the guard
    of its [default] case, which is the parameter [insertable]. *)
Definition keySwitch (insertable : KeyEvent -> bool) (e : KeyEvent)
    (lines : list jstring) (line char : nat) : Completion SwitchResult :=
  if keyIs e "ArrowUp" then
    if 0 <? line then
      let* n := lengthOf (nth_error lines (line - 1)) in
      Normal (mkSwitch lines (line - 1) (Nat.min char n) false)
    else Normal (mkSwitch lines line char false)
  else if keyIs e "ArrowDown" then
    if line <? length lines - 1 then
      let* n := lengthOf (nth_error lines (line + 1)) in
      Normal (mkSwitch lines (line + 1) (Nat.min char n) false)
    else Normal (mkSwitch lines line char false)
  else if keyIs e "ArrowLeft" then
    if 0 <? char then Normal (mkSwitch lines line (char - 1) false)
    else if 0 <? line then
      let* n := lengthOf (nth_error lines (line - 1)) in
      Normal (mkSwitch lines (line - 1) n false)
    else Normal (mkSwitch lines line char false)
  else if keyIs e "ArrowRight" then
    let* n := lengthOf (nth_error lines line) in
    if char <? n then Normal (mkSwitch lines line (char + 1) false)
    else if line <? length lines - 1 then Normal (mkSwitch lines (line + 1) 0 false)
    else Normal (mkSwitch lines line char false)
  else if keyIs e "Home" then Normal (mkSwitch lines line 0 false)
  else if keyIs e "End" then
    let* n := lengthOf (nth_error lines line) in
    Normal (mkSwitch lines line n false)
  else if keyIs e "Backspace" then
    if 0 <? char then
      let* l := stringOf (nth_error lines line) in
      Normal (mkSwitch (array_set line (slice_to (char - 1) l ++ slice_from char l) lines)
                       line (char - 1) true)
    else if 0 <? line then
      let* prev := stringOf (nth_error lines (line - 1)) in
      (* [lines[line - 1] += lines[line]]: an undefined operand is
         converted to the text "undefined" *)
      let cur := match nth_error lines line with
                 | Some l => l
                 | None => str "undefined"
                 end in
      Normal (mkSwitch (splice_remove line (array_set (line - 1) (prev ++ cur) lines))
                       (line - 1) (length prev) true)
    else Normal (mkSwitch lines line char true)
  else if keyIs e "Enter" then
    let* l := stringOf (nth_error lines line) in
    let after := slice_from char l in
    Normal (mkSwitch (splice_insert (line + 1) after (array_set line (slice_to char l) lines))
                     (line + 1) 0 true)
  else if insertable e then
    let* l := stringOf (nth_error lines line) in
    Normal (mkSwitch (array_set line (slice_to char l ++ key e ++ slice_from char l) lines)
                     line (char + 1) true)
  else Normal (mkSwitch lines line char false).

(* ------------------------------------------------------------------ *)
(** ** Regular expressions: the fragment built by [escapeRegExp] *)

(** The characters of the class [[.*+?^${}()|[\]\\]], which are also the
    syntax characters of a pattern. *)
Definition isSyntaxCharacter (c : ascii) : bool :=
  existsb (Ascii.eqb c) (str ".*+?^${}()|[]\").

(** [string.replace(/[.*+?^${}()|[\]\\]/g, '\\$&')]: a backslash before
    every character of the class. *)
Fixpoint escapeRegExp (s : jstring) : jstring :=
  match s with
  | [] => []
  | c :: s' =>
      if isSyntaxCharacter c then "\"%char :: c :: escapeRegExp s'
      else c :: escapeRegExp s'
  end.

(** A compiled pattern is a sequence of one-character atoms. *)
Inductive Atom := Lit (c : ascii) | AnyChar.

(** [new RegExp(src, 'gi')] on the patterns made of plain characters, [.]
    and escaped syntax characters.  A lone trailing backslash is a
    [SyntaxError]; any other construct is outside the embedding. *)
Fixpoint RegExp (src : jstring) : Completion (list Atom) :=
  match src with
  | [] => Normal []
  | c :: rest =>
      if Ascii.eqb c "\"%char then
        match rest with
        | [] => Throw SyntaxError
        | d :: rest' =>
            if isSyntaxCharacter d
            then let* p := RegExp rest' in Normal (Lit d :: p)
            else Unmodelled
        end
      else if Ascii.eqb c "."%char then
        let* p := RegExp rest in Normal (AnyChar :: p)
      else if isSyntaxCharacter c then Unmodelled
      else let* p := RegExp rest in Normal (Lit c :: p)
  end.

(** Case folding of the [i] flag (Canonicalize without the [u] flag) on the
    Latin-1 code units: a-z and the accented lower-case letters map to
    their upper-case letter; the upper-case forms of U+00B5 and U+00FF lie
    outside Latin-1 and have no other preimage there, so these two stand
    for themselves. *)
Definition canonicalize (c : ascii) : ascii :=
  let n := nat_of_ascii c in
  if ((97 <=? n) && (n <=? 122)) || ((224 <=? n) && (n <=? 254) && negb (n =? 247))
  then ascii_of_nat (n - 32)
  else c.

Definition isLineTerminator (c : ascii) : bool :=
  Ascii.eqb c nl || Ascii.eqb c "013"%char.

Definition atomMatches (a : Atom) (c : ascii) : bool :=
  match a with
  | Lit x => Ascii.eqb (canonicalize x) (canonicalize c)
  | AnyChar => negb (isLineTerminator c)
  end.

(** The pattern matches a prefix of [s]. *)
Fixpoint matchHere (p : list Atom) (s : jstring) : bool :=
  match p with
  | [] => true
  | a :: p' =>
      match s with
      | [] => false
      | c :: s' => atomMatches a c && matchHere p' s'
      end
  end.

(** The least offset at which the pattern matches in [s]. *)
Fixpoint firstMatch (p : list Atom) (s : jstring) : option nat :=
  if matchHere p s then Some 0
  else match s with
       | [] => None
       | _ :: s' => option_map S (firstMatch p s')
       end.

(** A match object: [match.index] and [match[0]]. *)
Record Match := mkMatch { m_index : nat; m_text : jstring }.

(** [regex.exec(s)] of a global regex whose [lastIndex] is [lastIndex]:
    the match or [null], and the new [lastIndex]. *)
Definition exec (p : list Atom) (lastIndex : nat) (s : jstring) : option Match * nat :=
  if length s <? lastIndex then (None, 0)
  else match firstMatch p (skipn lastIndex s) with
       | None => (None, 0)
       | Some i =>
           let index := lastIndex + i in
           (Some (mkMatch index (firstn (length p) (skipn index s))), index + length p)
       end.

(** [s.match(regex)] for a global regex: all the matches, [null] if none.
    Every round of the loop moves [lastIndex] forward by one at least and
    the loop ends once it passes the end of [s]: [length s + 2] rounds are
    enough, and the result does not depend on the fuel beyond that. *)
Fixpoint matchLoop (fuel : nat) (p : list Atom) (s : jstring) (lastIndex : nat) : list Match :=
  match fuel with
  | 0 => []
  | S fuel' =>
      match exec p lastIndex s with
      | (None, _) => []
      | (Some m, li) =>
          m :: matchLoop fuel' p s (if length (m_text m) =? 0 then li + 1 else li)
      end
  end.

Definition allMatches (p : list Atom) (s : jstring) : list Match :=
  matchLoop (length s + 2) p s 0.

Definition stringMatch (p : list Atom) (s : jstring) : option (list jstring) :=
  match allMatches p s with
  | [] => None
  | ms => Some (map m_text ms)
  end.

(** GetSubstitution for a pattern without capture groups: [$$], [$&],
    [$`] and [$'] are expanded, any other [$] stands for itself. *)
Fixpoint getSubstitution (matched s : jstring) (position : nat) (template : jstring) : jstring :=
  match template with
  | [] => []
  | c :: t' =>
      if Ascii.eqb c "$"%char then
        match t' with
        | [] => [c]
        | d :: t'' =>
            if Ascii.eqb d "$"%char then "$"%char :: getSubstitution matched s position t''
            else if Ascii.eqb d "&"%char then matched ++ getSubstitution matched s position t''
            else if Ascii.eqb d "`"%char then firstn position s ++ getSubstitution matched s position t''
            else if Ascii.eqb d "'"%char
            then skipn (position + length matched) s ++ getSubstitution matched s position t''
            else c :: getSubstitution matched s position t'
        end
      else c :: getSubstitution matched s position t'
  end.

(** The assembly loop of [s.replace(regex, template)]. *)
Fixpoint assemble (s template : jstring) (results : list Match)
    (nextSourcePosition : nat) (accumulated : jstring) : jstring :=
  match results with
  | [] => accumulated ++ skipn nextSourcePosition s
  | m :: rest =>
      let position := m_index m in
      let replacement := getSubstitution (m_text m) s position template in
      if nextSourcePosition <=? position then
        assemble s template rest (position + length (m_text m))
                 (accumulated ++ firstn (position - nextSourcePosition) (skipn nextSourcePosition s)
                              ++ replacement)
      else assemble s template rest nextSourcePosition accumulated
  end.

(** [s.replace(regex, template)] for a global regex. *)
Definition stringReplace (p : list Atom) (s template : jstring) : jstring :=
  assemble s template (allMatches p s) 0 [].

(* ------------------------------------------------------------------ *)
(** ** The search recompute effect (the same text in both files) *)

(** The [while ((match = regex.exec(line)) !== null)] loop on one line: the
    spans pushed and the [lastIndex] the shared regex is left with
    ([length l + 2] rounds are enough, as for [matchLoop]). *)
Fixpoint execLoop (fuel : nat) (p : list Atom) (l : jstring) (lineIndex lastIndex : nat)
  : list SearchResult * nat :=
  match fuel with
  | 0 => ([], lastIndex)
  | S fuel' =>
      match exec p lastIndex l with
      | (None, li) => ([], li)
      | (Some m, li) =>
          if length (m_text m) =? 0 then execLoop fuel' p l lineIndex (li + 1)
          else
            let (rs, li') := execLoop fuel' p l lineIndex li in
            (mkResult lineIndex (m_index m) (m_index m + length (m_text m)) :: rs, li')
      end
  end.

(** [lines.forEach((line, lineIndex) => ...)], one regex for all lines. *)
Fixpoint forEachLine (p : list Atom) (lines : list jstring) (lineIndex lastIndex : nat)
  : list SearchResult * nat :=
  match lines with
  | [] => ([], lastIndex)
  | l :: rest =>
      let (r1, li) := execLoop (length l + 2) p l lineIndex lastIndex in
      let (r2, li') := forEachLine p rest (S lineIndex) li in
      (r1 ++ r2, li')
  end.

(** The body of the [try] of the effect. *)
Definition searchBody (query : jstring) (fileContent : option jstring)
  : Completion (list SearchResult) :=
  let safeSearchQuery := escapeRegExp query in
  let* regex := RegExp safeSearchQuery in
  let* text := stringOf fileContent in
  Normal (fst (forEachLine regex (split nl text) 0 0)).

Definition searchEffect (s : State) : Completion State :=
  match searchQuery s, currentFile s with
  | [], _ => Normal (setSearchResults [] s)
  | _ :: _, None => Normal (setSearchResults [] s)
  | _ :: _, Some f =>
      let* results := tryCatch (searchBody (searchQuery s) (content f))
                               (fun _ => Normal []) in
      Normal (setSearchResults results s)
  end.

(** Two values of [currentFile] are the same. *)
Definition fileEq (a b : option FileEntry) : bool :=
  match a, b with
  | None, None => true
  | Some f, Some g => streq (name f) (name g) && strictEq (content f) (content g)
  | _, _ => false
  end.

(** The dependencies [[searchQuery, currentFile]] of the search effect
    differ in value between two renders.  React compares [currentFile] by
    identity: the objects of [openedFiles] are never written in place, so
    a change of value is a change of identity and the effect runs.  The
    converse does not hold: [updateContentAndHistory] makes a new object
    whatever the content is. *)
Definition searchDepsChanged (prev next : State) : bool :=
  negb (streq (searchQuery prev) (searchQuery next))
  || negb (fileEq (currentFile prev) (currentFile next)).

(** [isHighlighted(lineIndex, charIndex)]. *)
Definition isHighlighted (s : State) (lineIndex charIndex : nat) : bool :=
  if length (searchQuery s) =? 0 then false
  else existsb (fun r => (res_line r =? lineIndex) && (res_start r <=? charIndex)
                         && (charIndex <? res_end r))
               (searchResults s).

(** [getLetterStartIndex(line, separator = ';')], for a one-character
    separator (App.jsx has the separator [';'] written in). *)
Definition getLetterStartIndex (l : jstring) (separator : ascii) : nat :=
  let parts := split separator l in
  if 3 <? length parts then length (join separator (firstn 3 parts)) + 1
  else 0.

(** [a.filter((_, i) => keep i)]. *)
Fixpoint filterIndex {A} (keep : nat -> bool) (i : nat) (a : list A) : list A :=
  match a with
  | [] => []
  | x :: a' => if keep i then x :: filterIndex keep (S i) a' else filterIndex keep (S i) a'
  end.

(** [a.map((x, i) => f x i)], the first index being [i]. *)
Fixpoint mapIndex {A B} (f : A -> nat -> B) (i : nat) (a : list A) : list B :=
  match a with
  | [] => []
  | x :: a' => f x i :: mapIndex f (S i) a'
  end.

(** What the JSX draws for one character of a line: the character, whether
    it is highlighted, whether the cursor span follows it, and the number
    in its tooltip when the tooltip is shown. *)
Record Cell := mkCell {
  cell_char : ascii;
  cell_highlighted : bool;
  cell_cursor : bool;
  cell_tooltip : option nat
}.

(** A line as drawn: the cursor span of the line itself and the
    characters. *)
Record RenderedLine := mkLine { line_cursor : bool; line_cells : list Cell }.

(** [hoveredPosition?.line === lineIndex && hoveredPosition?.char === charIndex];
    [hoveredPosition] is [null] until the mouse enters a character. *)
Definition isHoveredAt (hovered : option CursorPosition) (lineIndex charIndex : nat) : bool :=
  match hovered with
  | Some h => (line h =? lineIndex) && (char h =? charIndex)
  | None => false
  end.

(** The body of [line.split('').map((char, charIndex) => ...)], the same in
    the two files.  The tooltip number [charIndex - letterStartIndex + 1] is
    drawn only under [showTooltip], where [charIndex >= letterStartIndex]. *)
Definition renderCharacter (s : State) (hovered : option CursorPosition)
    (lineIndex letterStartIndex : nat) (c : ascii) (charIndex : nat) : Cell :=
  let isHovered := isHoveredAt hovered lineIndex charIndex in
  let isCursorAfter :=
    (line (cursorPosition s) =? lineIndex) && (char (cursorPosition s) =? charIndex + 1) in
  let showTooltip := (isHovered || isCursorAfter) && (letterStartIndex <=? charIndex) in
  mkCell c (isHighlighted s lineIndex charIndex) isCursorAfter
         (if showTooltip then Some (charIndex - letterStartIndex + 1) else None).

(** The numbers of the click handlers are the doubles of [clientX] and of
    [getBoundingClientRect()].  The handlers are written over any type of
    numbers with the operations they use, so that what is proved of them
    does not depend on the arithmetic. *)
Record Numbers := mkNumbers {
  num : Type;
  num_sub : num -> num -> num;       (* a - b *)
  num_add : num -> num -> num;       (* a + b *)
  num_half : num -> num;             (* a / 2 *)
  num_abs : num -> num;              (* Math.abs(a) *)
  num_ltb : num -> num -> bool;      (* a < b *)
  num_infinity : num                 (* Infinity *)
}.

(** A [DOMRect], and a [span[data-char-index]] of a line with its
    rectangle. *)
Record Rect (N : Numbers) := mkRect { rect_left : num N; rect_width : num N }.
Arguments mkRect {N}.
Arguments rect_left {N}.
Arguments rect_width {N}.

Record Span (N : Numbers) := mkSpan { span_charIndex : nat; span_rect : Rect N }.
Arguments mkSpan {N}.
Arguments span_charIndex {N}.
Arguments span_rect {N}.

(** [s.startsWith(prefix)] and [s.includes(needle)]. *)
Fixpoint startsWith (prefix s : jstring) : bool :=
  match prefix, s with
  | [], _ => true
  | p :: prefix', c :: s' => Ascii.eqb p c && startsWith prefix' s'
  | _ :: _, [] => false
  end.

Fixpoint includes (needle s : jstring) : bool :=
  match s with
  | [] => startsWith needle []
  | _ :: s' => startsWith needle s || includes needle s'
  end.

(** A [File] of [e.dataTransfer.files]: its name, its MIME type, and the
    text that [readAsText] reads from it. *)
Record DroppedFile := mkDropped {
  file_name : jstring;
  file_type : jstring;
  file_text : jstring
}.

(** [{ name: file.name, content: newContent }]. *)
Definition fileEntryOf (file : DroppedFile) : FileEntry :=
  mkFile (file_name file) (Some (file_text file)).

(* ------------------------------------------------------------------ *)
(** ** src/assets/funcional1.jsx *)

Module Funcional1.

(** [updateContentAndHistory(newContent, addToHistory)]; [s] is the state
    its closure reads, [pending] the state its writes go to. *)
Definition updateContentAndHistory (s : State) (newContent : option jstring)
    (addToHistory : bool) (pending : State) : State :=
  match currentFile s with
  | None => pending
  | Some f =>
      let newFiles := array_set (currentFileIndex s) (mkFile (name f) newContent) (openedFiles s) in
      let pending1 := setOpenedFiles newFiles pending in
      if addToHistory && negb (strictEq (array_get (history s) (historyIndex s)) newContent) then
        let newHistory := array_slice0 (historyIndex s + 1) (history s) ++ [newContent] in
        setHistoryIndex (Z.of_nat (length newHistory) - 1) (setHistory newHistory pending1)
      else pending1
  end.

(** The effect with dependencies [[currentFileIndex, currentFile?.name]]. *)
Definition historyEffect (s : State) : State :=
  match currentFile s with
  | Some f => setHistoryIndex 0 (setHistory [content f] s)
  | None => setHistoryIndex (-1) (setHistory [] s)
  end.

Definition currentFileName (s : State) : option jstring :=
  option_map name (currentFile s).

Definition historyDepsChanged (prev next : State) : bool :=
  negb (currentFileIndex prev =? currentFileIndex next)
  || negb (strictEq (currentFileName prev) (currentFileName next)).

(** The default case inserts when
    [e.key.length === 1 && !e.ctrlKey && !e.metaKey]. *)
Definition insertable (e : KeyEvent) : bool :=
  (length (key e) =? 1) && negb (ctrlKey e) && negb (metaKey e).

Definition handleKeyDown (e : KeyEvent) (s : State) : Completion State :=
  match currentFile s with
  | None => Normal s
  | Some f =>
      (* Ctrl+H only calls preventDefault *)
      if accelerator e "s" then Normal (setNotification Saved s)
      else if accelerator e "z" then
        if (0 <? historyIndex s)%Z then
          let newIndex := (historyIndex s - 1)%Z in
          Normal (updateContentAndHistory s (array_get (history s) newIndex) false
                    (setHistoryIndex newIndex s))
        else Normal s
      else if accelerator e "y" then
        if (historyIndex s <? Z.of_nat (length (history s)) - 1)%Z then
          let newIndex := (historyIndex s + 1)%Z in
          Normal (updateContentAndHistory s (array_get (history s) newIndex) false
                    (setHistoryIndex newIndex s))
        else Normal s
      else
        (* [!cursorPosition] never holds, and a content is a string or
           [undefined], never [null]: the guard before the split passes *)
        let* text := stringOf (content f) in
        let lines := split nl text in
        let* r := keySwitch insertable e lines (line (cursorPosition s)) (char (cursorPosition s)) in
        let pending :=
          if sw_contentChanged r
          then updateContentAndHistory s (Some (join nl (sw_lines r))) true s
          else s in
        Normal (setCursorPosition (mkCursor (sw_line r) (sw_char r)) pending)
  end.

Definition handleReplaceAll (s : State) : Completion State :=
  match currentFile s, searchQuery s with
  | None, _ => Normal s
  | Some _, [] => Normal s
  | Some f, _ :: _ =>
      tryCatch
        (let safeSearchQuery := escapeRegExp (searchQuery s) in
         let* regex := RegExp safeSearchQuery in
         let* originalContent := stringOf (content f) in
         match stringMatch regex originalContent with
         | None => Normal (setNotification NoMatches s)
         | Some matches =>
             if length matches =? 0 then Normal (setNotification NoMatches s)
             else
               let newContent := stringReplace regex originalContent (replaceQuery s) in
               if negb (streq newContent originalContent) then
                 Normal (setNotification (Replaced (length matches))
                           (updateContentAndHistory s (Some newContent) true s))
               else Normal s
         end)
        (fun _ => Normal (setNotification SearchError s))
  end.

(** [handleClose(indexToClose)]; [Math.max(0, indexToClose - 1)] is the
    truncated subtraction. *)
Definition handleClose (indexToClose : nat) (s : State) : State :=
  let newFiles := filterIndex (fun i => negb (i =? indexToClose)) 0 (openedFiles s) in
  let pending := setOpenedFiles newFiles s in
  if length newFiles =? 0 then setCurrentFileIndex 0 pending
  else if currentFileIndex s =? indexToClose
  then setCurrentFileIndex (Nat.max 0 (indexToClose - 1)) pending
  else if indexToClose <? currentFileIndex s
  then setCurrentFileIndex (currentFileIndex s - 1) pending
  else pending.

(** [reader.onload] of [handleDrop] for the file number [index] of [total]
    dropped files, [firstNewFileIndex] being [openedFiles.length] at the
    time of the drop. *)
Definition readerOnload (firstNewFileIndex index total : nat) (newFile : FileEntry)
    (s : State) : State :=
  let pending := setOpenedFiles (openedFiles s ++ [newFile]) s in
  if index =? total - 1 then setCurrentFileIndex (firstNewFileIndex + index) pending
  else pending.

(** The effects that run after a render: the history reset when one of its
    dependencies changed, and the search recompute.  The search results are
    a function of the dependencies of their effect: in a state whose
    stored results are those of its query and content, running the effect
    after every render gives the state React computes, which runs it only
    when a dependency changed ([renderWhen] below). *)
Definition render (prev next : State) : Completion State :=
  searchEffect (if historyDepsChanged prev next then historyEffect next else next).

(** The first render runs every effect. *)
Definition mount (s : State) : Completion State :=
  searchEffect (historyEffect s).

(** An event: its handler, then the render it causes.  A handler that
    throws has queued no write at that point. *)
Definition dispatch (handler : State -> Completion State) (s : State) : Completion State :=
  let* s' := handler s in render s s'.

(** Dropping one text file on the editor and reading it. *)
Definition loadDocument (fileName text : jstring) (s : State) : Completion State :=
  dispatch (fun s0 => Normal (readerOnload (length (openedFiles s0)) 0 1
                                           (mkFile fileName (Some text)) s0)) s.

Definition keyDown (e : KeyEvent) : State -> Completion State :=
  dispatch (handleKeyDown e).

(** A line of the text area: the cursor span of the line is drawn before
    its characters, for the column 0. *)
Definition renderLine (s : State) (hovered : option CursorPosition)
    (l : jstring) (lineIndex : nat) : RenderedLine :=
  let letterStartIndex := getLetterStartIndex l ";"%char in
  mkLine ((line (cursorPosition s) =? lineIndex) && (char (cursorPosition s) =? 0))
         (mapIndex (renderCharacter s hovered lineIndex letterStartIndex) 0 l).

(** The text area: the welcome message ([None]) when no file is active,
    the lines of [currentFile.content.split('\n')] otherwise. *)
Definition renderDocument (s : State) (hovered : option CursorPosition)
  : Completion (option (list RenderedLine)) :=
  match currentFile s with
  | None => Normal None
  | Some f =>
      let* text := stringOf (content f) in
      Normal (Some (mapIndex (renderLine s hovered) 0 (split nl text)))
  end.

(** The [onClick] of a line.  [closestStep] is the body of
    [charSpans.forEach]; [closest] is the pair of its [offset] and
    [index]. *)
Definition closestStep (N : Numbers) (clientX : num N) (closest : num N * nat)
    (span : Span N) : num N * nat :=
  let offset := num_sub N clientX (rect_left (span_rect span)) in
  let width := rect_width (span_rect span) in
  if num_ltb N (num_abs N offset) (num_abs N (fst closest))
  then (offset, span_charIndex span + (if num_ltb N (num_half N width) offset then 1 else 0))
  else closest.

Definition lineClick (N : Numbers) (l : jstring) (lineIndex : nat)
    (charSpans : list (Span N)) (clientX : num N) : CursorPosition :=
  if length charSpans =? 0 then mkCursor lineIndex 0
  else
    let closest := fold_left (closestStep N clientX) charSpans (num_infinity N, length l) in
    mkCursor lineIndex (snd closest).

Definition clickLine (N : Numbers) (l : jstring) (lineIndex : nat)
    (charSpans : list (Span N)) (clientX : num N) : State -> Completion State :=
  dispatch (fun s => Normal (setCursorPosition (lineClick N l lineIndex charSpans clientX) s)).

(** The filter of [handleDrop]:
    [file.type.startsWith("text/") || file.name.includes('.') === false
     || file.type === ""]. *)
Definition acceptsFile (file : DroppedFile) : bool :=
  startsWith (str "text/") (file_type file)
  || negb (includes (str ".") (file_name file))
  || streq (file_type file) [].

(** [Array.from(droppedFiles).forEach((file, index) => ...)]: the reads
    that are started, each with the [index] of its file, and the names of
    the files an error notification is set for.  The handler itself writes
    nothing else but [isDragging]. *)
Fixpoint forEachDropped (index : nat) (droppedFiles : list DroppedFile)
  : list (nat * DroppedFile) * list jstring :=
  match droppedFiles with
  | [] => ([], [])
  | file :: rest =>
      let (reads, errors) := forEachDropped (S index) rest in
      if acceptsFile file then ((index, file) :: reads, errors)
      else (reads, file_name file :: errors)
  end.

Definition handleDrop (droppedFiles : list DroppedFile)
  : list (nat * DroppedFile) * list jstring :=
  forEachDropped 0 droppedFiles.

(** The event of a read that completes: [reader.onload], then the
    render. *)
Definition onload (firstNewFileIndex total : nat) (read : nat * DroppedFile)
  : State -> Completion State :=
  dispatch (fun s => Normal (readerOnload firstNewFileIndex (fst read) total
                                          (fileEntryOf (snd read)) s)).

Fixpoint runReads (firstNewFileIndex total : nat) (order : list (nat * DroppedFile))
    (s : State) : Completion State :=
  match order with
  | [] => Normal s
  | read :: rest =>
      let* s' := onload firstNewFileIndex total read s in
      runReads firstNewFileIndex total rest s'
  end.

(** A drop of [droppedFiles] on the state [s], the reads completing in the
    order [order] with no other event in between. *)
Definition dropFiles (droppedFiles : list DroppedFile) (order : list (nat * DroppedFile))
    (s : State) : Completion State :=
  runReads (length (openedFiles s)) (length droppedFiles) order s.

(** The render with the dependency test of the search effect: [rerun]
    tells whether React runs the effect after this render, which it does
    at least when [searchDepsChanged] holds. *)
Definition renderWhen (rerun : bool) (prev next : State) : Completion State :=
  let s1 := if historyDepsChanged prev next then historyEffect next else next in
  if rerun then searchEffect s1 else Normal s1.

Definition dispatchWhen (rerun : bool) (handler : State -> Completion State) (s : State)
  : Completion State :=
  let* s' := handler s in renderWhen rerun s s'.

End Funcional1.

(* ------------------------------------------------------------------ *)
(** ** src/App.jsx *)

Module AppJsx.

(** [updateContentAndHistory] has no guard here; it is called by
    [handleKeyDown] only, after [if (!currentFile) return], and [f] is that
    [currentFile]. *)
Definition updateContentAndHistory (s : State) (f : FileEntry) (newContent : option jstring)
    (addToHistory : bool) (pending : State) : State :=
  let newFiles := array_set (currentFileIndex s) (mkFile (name f) newContent) (openedFiles s) in
  let pending1 := setOpenedFiles newFiles pending in
  if addToHistory && negb (strictEq (array_get (history s) (historyIndex s)) newContent) then
    let newHistory := array_slice0 (historyIndex s + 1) (history s) ++ [newContent] in
    setHistoryIndex (Z.of_nat (length newHistory) - 1) (setHistory newHistory pending1)
  else pending1.

(** The default case inserts when [e.key.length === 1]. *)
Definition insertable (e : KeyEvent) : bool := length (key e) =? 1.

Definition handleKeyDown (e : KeyEvent) (s : State) : Completion State :=
  match currentFile s with
  | None => Normal s
  | Some f =>
      if accelerator e "s" then Normal (setNotification Saved s)
      else if accelerator e "z" then
        if (0 <? historyIndex s)%Z then
          let newIndex := (historyIndex s - 1)%Z in
          Normal (updateContentAndHistory s f (array_get (history s) newIndex) false
                    (setHistoryIndex newIndex s))
        else Normal s
      else if accelerator e "y" then
        if (historyIndex s <? Z.of_nat (length (history s)) - 1)%Z then
          let newIndex := (historyIndex s + 1)%Z in
          Normal (updateContentAndHistory s f (array_get (history s) newIndex) false
                    (setHistoryIndex newIndex s))
        else Normal s
      else
        let* text := stringOf (content f) in
        let lines := split nl text in
        let* r := keySwitch insertable e lines (line (cursorPosition s)) (char (cursorPosition s)) in
        let pending :=
          if sw_contentChanged r
          then updateContentAndHistory s f (Some (join nl (sw_lines r))) true s
          else s in
        Normal (setCursorPosition (mkCursor (sw_line r) (sw_char r)) pending)
  end.

(** [reader.onload] of [handleDrop]: the file is appended and made active,
    and the history is initialised with its content. *)
Definition readerOnload (newFile : FileEntry) (s : State) : State :=
  setHistoryIndex 0
    (setHistory [content newFile]
       (setCurrentFileIndex (length (openedFiles s))
          (setOpenedFiles (openedFiles s ++ [newFile]) s))).

(** This file has no history effect: a render runs the search effect.  As
    in [Funcional1.render], this is the state React computes when the
    stored results are those of the query and content ([dispatchWhen]
    below has the dependency test). *)
Definition dispatch (handler : State -> Completion State) (s : State) : Completion State :=
  let* s' := handler s in searchEffect s'.

(** An event with the dependency test of the search effect: [rerun] tells
    whether React runs the effect after the render, which it does at least
    when [searchDepsChanged] holds. *)
Definition dispatchWhen (rerun : bool) (handler : State -> Completion State) (s : State)
  : Completion State :=
  let* s' := handler s in if rerun then searchEffect s' else Normal s'.

Definition loadDocument (fileName text : jstring) (s : State) : Completion State :=
  dispatch (fun s0 => Normal (readerOnload (mkFile fileName (Some text)) s0)) s.

Definition keyDown (e : KeyEvent) : State -> Completion State :=
  dispatch (handleKeyDown e).

(** [handleClose()]: closes the active document. *)
Definition handleClose (s : State) : State :=
  if length (openedFiles s) =? 0 then s
  else
    let newFiles := filterIndex (fun i => negb (i =? currentFileIndex s)) 0 (openedFiles s) in
    let pending := setOpenedFiles newFiles s in
    if length newFiles =? 0 then setCurrentFileIndex 0 pending
    else setCurrentFileIndex (Nat.max 0 (currentFileIndex s - 1)) pending.

(** A line of the text area: the cursor span of the line is drawn after
    its characters, for the column [line.length]. *)
Definition renderLine (s : State) (hovered : option CursorPosition)
    (l : jstring) (lineIndex : nat) : RenderedLine :=
  let letterStartIndex := getLetterStartIndex l ";"%char in
  mkLine ((line (cursorPosition s) =? lineIndex) && (char (cursorPosition s) =? length l))
         (mapIndex (renderCharacter s hovered lineIndex letterStartIndex) 0 l).

Definition renderDocument (s : State) (hovered : option CursorPosition)
  : Completion (option (list RenderedLine)) :=
  match currentFile s with
  | None => Normal None
  | Some f =>
      let* text := stringOf (content f) in
      Normal (Some (mapIndex (renderLine s hovered) 0 (split nl text)))
  end.

(** The [onClick] of a line.  [closestLoop] is
    [charSpans.forEach((span, index) => ...)]; the accumulator is the pair
    of [minDistance] and [closestCharIndex]. *)
Fixpoint closestLoop (N : Numbers) (clientX : num N) (index : nat)
    (charSpans : list (Span N)) (acc : num N * nat) : num N * nat :=
  match charSpans with
  | [] => acc
  | span :: rest =>
      let rect := span_rect span in
      let mid := num_add N (rect_left rect) (num_half N (rect_width rect)) in
      let distance := num_abs N (num_sub N clientX mid) in
      closestLoop N clientX (S index) rest
        (if num_ltb N distance (fst acc)
         then (distance, if num_ltb N clientX mid then index else index + 1)
         else acc)
  end.

Definition lineClick (N : Numbers) (l : jstring) (lineIndex : nat)
    (charSpans : list (Span N)) (clientX : num N) : CursorPosition :=
  mkCursor lineIndex
    (if 0 <? length charSpans
     then snd (closestLoop N clientX 0 charSpans (num_infinity N, length l))
     else length l).

Definition clickLine (N : Numbers) (l : jstring) (lineIndex : nat)
    (charSpans : list (Span N)) (clientX : num N) : State -> Completion State :=
  dispatch (fun s => Normal (setCursorPosition (lineClick N l lineIndex charSpans clientX) s)).

(** The filter of [handleDrop]:
    [file.type.startsWith("text/") || file.type === ""]. *)
Definition acceptsFile (file : DroppedFile) : bool :=
  startsWith (str "text/") (file_type file) || streq (file_type file) [].

(** [handleDrop]: the files whose read is started, and the number of
    files the error notification is set for.  The handler itself writes
    nothing else but [isDragging]. *)
Definition handleDrop (droppedFiles : list DroppedFile) : list DroppedFile * nat :=
  (filter acceptsFile droppedFiles,
   length (filter (fun file => negb (acceptsFile file)) droppedFiles)).

(** [reader.onload] with the [openedFiles.length] that the closure of
    [handleDrop] holds; [readerOnload] is the case of one file, where it is
    the length at the time of the read. *)
Definition readerOnloadAt (closureLength : nat) (newFile : FileEntry) (s : State) : State :=
  setHistoryIndex 0
    (setHistory [content newFile]
       (setCurrentFileIndex closureLength
          (setOpenedFiles (openedFiles s ++ [newFile]) s))).

Definition onload (closureLength : nat) (file : DroppedFile) : State -> Completion State :=
  dispatch (fun s => Normal (readerOnloadAt closureLength (fileEntryOf file) s)).

Fixpoint runReads (closureLength : nat) (order : list DroppedFile) (s : State)
  : Completion State :=
  match order with
  | [] => Normal s
  | file :: rest => let* s' := onload closureLength file s in runReads closureLength rest s'
  end.

(** A drop on the state [s], the reads of the accepted files completing in
    the order [order] with no other event in between. *)
Definition dropFiles (order : list DroppedFile) (s : State) : Completion State :=
  runReads (length (openedFiles s)) order s.

End AppJsx.

(* ------------------------------------------------------------------ *)
(** ** Specification-side definitions *)

(** The cursor addresses a character boundary of [lines]. *)
Definition cursorInRange (lines : list jstring) (c : CursorPosition) : Prop :=
  exists l, nth_error lines (line c) = Some l /\ char c <= length l.

(** The text of the active document. *)
Definition liveContent (s : State) : option (option jstring) :=
  option_map content (currentFile s).

(** The directions of the cursor model and the keys that stand for them. *)
Inductive Direction := DirUp | DirDown | DirLeft | DirRight | DirHome | DirEnd.

Definition keyOf (d : Direction) : string :=
  match d with
  | DirUp => "ArrowUp"
  | DirDown => "ArrowDown"
  | DirLeft => "ArrowLeft"
  | DirRight => "ArrowRight"
  | DirHome => "Home"
  | DirEnd => "End"
  end.

(** The motion rules as the specification words them (section 4.2). *)
Definition moveSpec (d : Direction) (lines : list jstring) (pos : CursorPosition)
  : CursorPosition :=
  let len i := length (nth i lines []) in
  let ln := line pos in
  let col := char pos in
  match d with
  | DirUp => if 0 <? ln then mkCursor (ln - 1) (Nat.min col (len (ln - 1))) else pos
  | DirDown => if ln + 1 <? length lines then mkCursor (ln + 1) (Nat.min col (len (ln + 1))) else pos
  | DirLeft =>
      if 0 <? col then mkCursor ln (col - 1)
      else if 0 <? ln then mkCursor (ln - 1) (len (ln - 1))
      else pos
  | DirRight =>
      if col <? len ln then mkCursor ln (col + 1)
      else if ln + 1 <? length lines then mkCursor (ln + 1) 0
      else pos
  | DirHome => mkCursor ln 0
  | DirEnd => mkCursor ln (len ln)
  end.

(** A line holds no line separator. *)
Definition noNl (l : jstring) : Prop := ~ In nl l.

(** The cursor invariant of a state: there is an active document with text
    and the cursor addresses a character boundary of its lines. *)
Definition cursorOk (s : State) : Prop :=
  exists lines, currentLines s = Some lines /\ cursorInRange lines (cursorPosition s).

(** [commit] is [updateContentAndHistory(content)] of funcional1.jsx called
    in the render of state [s]. *)
Definition commit (c : jstring) (s : State) : State :=
  Funcional1.updateContentAndHistory s (Some c) true s.

(** The undo and redo accelerators, with the modifiers held. *)
Definition undoKeyWith (ctrl meta : bool) : KeyEvent := mkKey (str "z") ctrl meta.
Definition redoKeyWith (ctrl meta : bool) : KeyEvent := mkKey (str "y") ctrl meta.

Definition ab_cd : jstring := str "ab" ++ nl :: str "cd".
Definition ab__cd : jstring := str "ab" ++ nl :: nl :: str "cd".

(** The scenario of section 8, for a document loader and a key dispatcher. *)
Definition EndToEnd (load : jstring -> jstring -> State -> Completion State)
    (keyDown : KeyEvent -> State -> Completion State) (start : State) : Prop :=
  exists s0 s1 s2 s3 s4,
    load (str "f.txt") ab_cd start = Normal s0
    /\ liveContent s0 = Some (Some ab_cd)
    /\ cursorPosition s0 = mkCursor 0 0
    /\ history s0 = [Some ab_cd] /\ historyIndex s0 = 0%Z
    /\ keyDown (plainKey "ArrowRight") s0 = Normal s1
    /\ keyDown (plainKey "ArrowRight") s1 = Normal s2
    /\ cursorPosition s2 = mkCursor 0 2
    /\ keyDown (plainKey "ArrowRight") s2 = Normal s3
    /\ cursorPosition s3 = mkCursor 1 0
    /\ liveContent s3 = Some (Some ab_cd)
    /\ history s3 = [Some ab_cd] /\ historyIndex s3 = 0%Z
    /\ keyDown (plainKey "Enter") s3 = Normal s4
    /\ liveContent s4 = Some (Some ab__cd)
    /\ cursorPosition s4 = mkCursor 2 0
    /\ history s4 = [Some ab_cd; Some ab__cd] /\ historyIndex s4 = 1%Z.

(** [q] is a prefix of [s] up to the case of the letters. *)
Fixpoint ciPrefix (q s : jstring) : bool :=
  match q with
  | [] => true
  | a :: q' =>
      match s with
      | [] => false
      | c :: s' => Ascii.eqb (canonicalize a) (canonicalize c) && ciPrefix q' s'
      end
  end.

(** The query occurs in the line at column [i], up to case. *)
Definition occursAt (q l : jstring) (i : nat) : Prop :=
  i <= length l /\ ciPrefix q (skipn i l) = true.

(** The starts of the occurrences of a non-empty [q] in [s] taken from the
    left without overlap: [s] begins at column [pos] and its first [skip]
    characters belong to an occurrence already taken. *)
Fixpoint occurrences (q : jstring) (skip pos : nat) (s : jstring) : list nat :=
  match s with
  | [] => []
  | _ :: s' =>
      match skip with
      | S k => occurrences q k (S pos) s'
      | 0 =>
          if ciPrefix q s then pos :: occurrences q (length q - 1) (S pos) s'
          else occurrences q 0 (S pos) s'
      end
  end.

(** The text in which each of these occurrences is replaced by [r]. *)
Fixpoint replaceSpec (q r : jstring) (skip : nat) (s : jstring) : jstring :=
  match s with
  | [] => []
  | c :: s' =>
      match skip with
      | S k => replaceSpec q r k s'
      | 0 =>
          if ciPrefix q s then r ++ replaceSpec q r (length q - 1) s'
          else c :: replaceSpec q r 0 s'
      end
  end.

(** The spans of one line, from the starts of the occurrences. *)
Definition spansOf (q : jstring) (lineIndex : nat) (starts : list nat) : list SearchResult :=
  map (fun i => mkResult lineIndex i (i + length q)) starts.

(** The result list line by line: the spans of the occurrences of each
    line, taken in that line alone. *)
Fixpoint findSpec (q : jstring) (lineIndex : nat) (lines : list jstring) : list SearchResult :=
  match lines with
  | [] => []
  | l :: rest => spansOf q lineIndex (occurrences q 0 0 l) ++ findSpec q (S lineIndex) rest
  end.

(** The order of the result list: by line, then by column, the spans of a
    line not overlapping. *)
Definition spanBefore (a b : SearchResult) : Prop :=
  res_line a < res_line b \/ (res_line a = res_line b /\ res_end a <= res_start b).

(** A replacement text without the character [$]. *)
Definition noDollar (r : jstring) : Prop := ~ In "$"%char r.

(** The event of closing the tab [i], in funcional1.jsx. *)
Definition closeTab (i : nat) : State -> Completion State :=
  Funcional1.dispatch (fun s => Normal (Funcional1.handleClose i s)).

(** The event of clicking the tab or the explorer entry [i]:
    [setCurrentFileIndex(index)]. *)
Definition selectTab (i : nat) : State -> Completion State :=
  Funcional1.dispatch (fun s => Normal (setCurrentFileIndex i s)).

(** The text "a\nb". *)
Definition a_b : jstring := str "a" ++ nl :: str "b".

(** The history invariant: a document is active, the index is in range and
    the entry it points to is the live content. *)
Definition historyInv (s : State) : Prop :=
  exists f, currentFile s = Some f
            /\ (0 <= historyIndex s < Z.of_nat (length (history s)))%Z
            /\ array_get (history s) (historyIndex s) = content f.

(** A state with one document of content [text], as the editor holds it
    after the document was loaded, with the cursor at [(ln, col)]. *)
Definition editing (text : jstring) (ln col : nat) : State :=
  mkState [mkFile (str "f.txt") (Some text)] 0 [] [] [] (mkCursor ln col)
          [Some text] 0 NoNotification.

(** A document in which "b" was typed after "a": two history entries, the
    second one current. *)
Definition twoEntries : State :=
  mkState [mkFile (str "f.txt") (Some (str "ab"))] 0 [] [] [] (mkCursor 0 2)
          [Some (str "a"); Some (str "ab")] 1 NoNotification.

(** A document whose content is [undefined], with a query typed in. *)
Definition undefinedContent : State :=
  mkState [mkFile (str "f.txt") None] 0 (str "a") [] [] (mkCursor 0 0) [None] 0 NoNotification.

(** The same with a search query and a replacement typed in the bar. *)
Definition searching (text query replacement : jstring) (ln col : nat) : State :=
  setReplaceQuery replacement (setSearchQuery query (editing text ln col)).

(** The events of funcional1.jsx that keep the active document or change
    it through the index: loading a file, selecting a tab, a key, the
    replace-all button, typing in the search and the replace fields. *)
Inductive Event :=
| EvLoad (fileName text : jstring)
| EvSelect (i : nat)
| EvKey (e : KeyEvent)
| EvReplaceAll
| EvSearchQuery (q : jstring)
| EvReplaceQuery (r : jstring).

Definition runEvent (ev : Event) (s : State) : Completion State :=
  match ev with
  | EvLoad fileName text => Funcional1.loadDocument fileName text s
  | EvSelect i => selectTab i s
  | EvKey e => Funcional1.keyDown e s
  | EvReplaceAll => Funcional1.dispatch Funcional1.handleReplaceAll s
  | EvSearchQuery q => Funcional1.dispatch (fun t => Normal (setSearchQuery q t)) s
  | EvReplaceQuery r => Funcional1.dispatch (fun t => Normal (setReplaceQuery r t)) s
  end.

Fixpoint runEvents (evs : list Event) (s : State) : Completion State :=
  match evs with
  | [] => Normal s
  | ev :: rest => let* s' := runEvent ev s in runEvents rest s'
  end.

(** The handler of an event, without the render that follows it. *)
Definition handlerOf (ev : Event) : State -> Completion State :=
  match ev with
  | EvLoad fileName text =>
      fun s => Normal (Funcional1.readerOnload (length (openedFiles s)) 0 1
                                               (mkFile fileName (Some text)) s)
  | EvSelect i => fun s => Normal (setCurrentFileIndex i s)
  | EvKey e => Funcional1.handleKeyDown e
  | EvReplaceAll => Funcional1.handleReplaceAll
  | EvSearchQuery q => fun s => Normal (setSearchQuery q s)
  | EvReplaceQuery r => fun s => Normal (setReplaceQuery r s)
  end.

(** The handlers of App.jsx for the same events; it has no replace-all and
    no replace field. *)
Definition appHandlerOf (ev : Event) : option (State -> Completion State) :=
  match ev with
  | EvLoad fileName text =>
      Some (fun s => Normal (AppJsx.readerOnload (mkFile fileName (Some text)) s))
  | EvSelect i => Some (fun s => Normal (setCurrentFileIndex i s))
  | EvKey e => Some (AppJsx.handleKeyDown e)
  | EvSearchQuery q => Some (fun s => Normal (setSearchQuery q s))
  | EvReplaceAll => None
  | EvReplaceQuery _ => None
  end.

(** Whenever a document is active, the history invariant holds. *)
Definition docInv (s : State) : Prop :=
  currentFile s = None \/ historyInv s.

(** The keys that have a case of their own in the switch. *)
Definition namedKeys : list string :=
  ["ArrowUp"; "ArrowDown"; "ArrowLeft"; "ArrowRight"; "Home"; "End"; "Backspace"; "Enter"].

(** No case of the switch but the default one is taken. *)
Definition unnamedKey (e : KeyEvent) : Prop :=
  forall k, In k namedKeys -> keyIs e k = false.

(** Ctrl or Meta is held. *)
Definition modifierHeld (e : KeyEvent) : bool := ctrlKey e || metaKey e.

(** The cursor spans drawn in a line and in a document. *)
Definition cursorsOfLine (r : RenderedLine) : nat :=
  (if line_cursor r then 1 else 0) + length (filter cell_cursor (line_cells r)).

Definition cursorsDrawn (doc : list RenderedLine) : nat :=
  list_sum (map cursorsOfLine doc).

(** Proof steps: comparing two key names, and reading a line that is in
    range. *)
Ltac eval_keys :=
  repeat match goal with
         | |- context [streq (str ?a) (str ?b)] =>
             let v := eval vm_compute in (streq (str a) (str b)) in
             change (streq (str a) (str b)) with v
         end.

(** Numbers for examples: rational numbers of pixels, and [None] for
    [Infinity]. *)
Definition pixels : Numbers :=
  mkNumbers (option Q)
    (fun a b => match a, b with Some x, Some y => Some (x - y)%Q | _, _ => None end)
    (fun a b => match a, b with Some x, Some y => Some (x + y)%Q | _, _ => None end)
    (fun a => option_map (fun x => (x / 2)%Q) a)
    (fun a => option_map Qabs a)
    (fun a b => match a, b with
                | Some x, Some y => negb (Qle_bool y x)
                | Some _, None => true
                | None, _ => false
                end)
    None.

(** The spans of a line of [n] characters, each one 10 pixels wide, the
    first one at [left]. *)
Definition spansAt (left : Z) (n : nat) : list (Span pixels) :=
  map (fun i => mkSpan i (mkRect (N := pixels)
                            (Some (inject_Z (left + 10 * Z.of_nat i)))
                            (Some (inject_Z 10))))
      (seq 0 n).

(** Case analysis on the comparisons of a goal. *)
Ltac bool_cases :=
  repeat match goal with
         | |- context [?a =? ?b] => destruct (Nat.eqb_spec a b)
         | |- context [?a <? ?b] => destruct (Nat.ltb_spec a b)
         | |- context [?a <=? ?b] => destruct (Nat.leb_spec a b)
         end;
  cbn [andb orb negb]; try lia; try reflexivity.


(* ------------------------------------------------------------------ *)
(** ** Basic facts *)

Lemma streq_true_iff (a b : jstring) : streq a b = true <-> a = b.
Proof.
  revert b; induction a as [|x a IH]; intros [|y b]; simpl; split; intro H;
    try reflexivity; try discriminate.
  - apply andb_true_iff in H as [H1 H2].
    apply Ascii.eqb_eq in H1. apply IH in H2. congruence.
  - injection H as -> ->. rewrite Ascii.eqb_refl. simpl. now apply IH.
Qed.

Lemma streq_refl (a : jstring) : streq a a = true.
Proof. now apply streq_true_iff. Qed.

Lemma strictEq_true_iff (a b : option jstring) : strictEq a b = true <-> a = b.
Proof.
  destruct a, b; simpl; split; intro H; try reflexivity; try discriminate.
  - apply streq_true_iff in H. congruence.
  - injection H as ->. apply streq_refl.
Qed.

Lemma strictEq_refl (a : option jstring) : strictEq a a = true.
Proof. now apply strictEq_true_iff. Qed.

Lemma strictEq_false_iff (a b : option jstring) : strictEq a b = false <-> a <> b.
Proof.
  split.
  - intros H E. apply strictEq_true_iff in E. congruence.
  - intro H. destruct (strictEq a b) eqn:E; [|reflexivity].
    apply strictEq_true_iff in E. contradiction.
Qed.

Lemma array_set_length {A} (i : nat) (v : A) (a : list A) :
  length (array_set i v a) = length a.
Proof.
  revert i; induction a as [|x a IH]; intros [|i]; simpl; auto.
Qed.

Lemma nth_error_array_set_eq {A} (i : nat) (v : A) (a : list A) :
  i < length a -> nth_error (array_set i v a) i = Some v.
Proof.
  revert i; induction a as [|x a IH]; intros [|i] H; simpl in *; try lia; auto.
  apply IH. lia.
Qed.

Lemma nth_error_array_set_neq {A} (i j : nat) (v : A) (a : list A) :
  i <> j -> nth_error (array_set i v a) j = nth_error a j.
Proof.
  revert i j; induction a as [|x a IH]; intros [|i] [|j] H; simpl; auto; try lia.
Qed.

Lemma array_set_same {A} (i : nat) (v : A) (a : list A) :
  nth_error a i = Some v -> array_set i v a = a.
Proof.
  revert i; induction a as [|x a IH]; intros [|i] H; simpl in *; try discriminate.
  - congruence.
  - f_equal. auto.
Qed.

Lemma array_set_twice {A} (i : nat) (v w : A) (a : list A) :
  array_set i v (array_set i w a) = array_set i v a.
Proof.
  revert i; induction a as [|x a IH]; intros [|i]; simpl; auto. f_equal. auto.
Qed.

Lemma array_set_split {A} (i : nat) (v x : A) (a : list A) :
  nth_error a i = Some x ->
  array_set i v a = firstn i a ++ v :: skipn (S i) a.
Proof.
  revert i; induction a as [|y a IH]; intros [|i] H; simpl in *; try discriminate; auto.
  f_equal. auto.
Qed.

Lemma file_eta (f : FileEntry) : mkFile (name f) (content f) = f.
Proof. now destruct f. Qed.

Lemma cursor_eta (c : CursorPosition) : mkCursor (line c) (char c) = c.
Proof. now destruct c. Qed.

Lemma setCursorPosition_same (s : State) : setCursorPosition (cursorPosition s) s = s.
Proof. now destruct s. Qed.

Lemma currentFile_lt (s : State) (f : FileEntry) :
  currentFile s = Some f -> currentFileIndex s < length (openedFiles s).
Proof. intro H. apply nth_error_Some. unfold currentFile in H. congruence. Qed.

Lemma array_get_in_range (h : list (option jstring)) (i : Z) (v : option jstring) :
  (0 <= i)%Z -> nth_error h (Z.to_nat i) = Some v -> array_get h i = v.
Proof.
  intros Hi H. unfold array_get.
  destruct (Z.ltb_spec i 0); [lia|]. now rewrite H.
Qed.

Lemma array_slice0_nonneg {A} (e : Z) (a : list A) :
  (0 <= e)%Z -> array_slice0 e a = firstn (Z.to_nat e) a.
Proof. intro H. unfold array_slice0. destruct (Z.ltb_spec e 0); [lia|reflexivity]. Qed.

(** Evaluation of the accelerator tests on the keys of the handlers. *)
Lemma accelerator_key (k k' : string) (c m : bool) :
  accelerator (mkKey (str k) c m) k' = (c || m) && streq (str k) (str k').
Proof. reflexivity. Qed.

(* ------------------------------------------------------------------ *)
(** ** The end-to-end scenario *)

Lemma mount_initialState : Funcional1.mount initialState = Normal initialState.
Proof. reflexivity. Qed.

(** C1: from the freshly loaded document "ab\ncd" with the cursor at (0,0),
    ArrowRight twice gives (0,2), once more gives (1,0), and Enter then
    gives the content "ab\n\ncd", the cursor (2,0) and a second history
    entry; in funcional1.jsx and in App.jsx. *)
Theorem C1_end_to_end :
  EndToEnd Funcional1.loadDocument Funcional1.keyDown initialState
  /\ EndToEnd AppJsx.loadDocument AppJsx.keyDown initialState.
Proof.
  split; unfold EndToEnd; do 5 eexists;
    repeat match goal with |- _ /\ _ => split end;
    try (vm_compute; reflexivity).
Qed.

(* ------------------------------------------------------------------ *)
(** ** Undo, redo and commit (funcional1.jsx) *)

Section History.

Import Funcional1.

(** An undo or a redo accelerator: the key with Ctrl or Meta held. *)
Variables (ctrl meta : bool).
Hypothesis held : ctrl || meta = true.


Lemma undo_unfold (s : State) (f : FileEntry) :
  currentFile s = Some f ->
  handleKeyDown (undoKeyWith ctrl meta) s =
  if (0 <? historyIndex s)%Z
  then Normal (setOpenedFiles
                 (array_set (currentFileIndex s)
                    (mkFile (name f) (array_get (history s) (historyIndex s - 1)))
                    (openedFiles s))
                 (setHistoryIndex (historyIndex s - 1) s))
  else Normal s.
Proof.
  intro Hf. unfold handleKeyDown, undoKeyWith. rewrite Hf.
  rewrite !accelerator_key, held. simpl.
  destruct (0 <? historyIndex s)%Z; [|reflexivity].
  unfold updateContentAndHistory. now rewrite Hf.
Qed.

Lemma redo_unfold (s : State) (f : FileEntry) :
  currentFile s = Some f ->
  handleKeyDown (redoKeyWith ctrl meta) s =
  if (historyIndex s <? Z.of_nat (length (history s)) - 1)%Z
  then Normal (setOpenedFiles
                 (array_set (currentFileIndex s)
                    (mkFile (name f) (array_get (history s) (historyIndex s + 1)))
                    (openedFiles s))
                 (setHistoryIndex (historyIndex s + 1) s))
  else Normal s.
Proof.
  intro Hf. unfold handleKeyDown, redoKeyWith. rewrite Hf.
  rewrite !accelerator_key, held. simpl.
  destruct (historyIndex s <? Z.of_nat (length (history s)) - 1)%Z; [|reflexivity].
  unfold updateContentAndHistory. now rewrite Hf.
Qed.

Lemma currentFile_after_set (s pending : State) (f g : FileEntry) :
  currentFile s = Some f ->
  currentFileIndex pending = currentFileIndex s ->
  currentFile (setOpenedFiles (array_set (currentFileIndex s) g (openedFiles s)) pending)
  = Some g.
Proof.
  intros Hf Hi. unfold currentFile. simpl. rewrite Hi.
  apply nth_error_array_set_eq. now apply currentFile_lt with f.
Qed.

Lemma commit_unfold (c : jstring) (s : State) (f : FileEntry) :
  currentFile s = Some f ->
  commit c s =
  let files := array_set (currentFileIndex s) (mkFile (name f) (Some c)) (openedFiles s) in
  if strictEq (array_get (history s) (historyIndex s)) (Some c)
  then setOpenedFiles files s
  else
    let newHistory := array_slice0 (historyIndex s + 1) (history s) ++ [Some c] in
    setHistoryIndex (Z.of_nat (length newHistory) - 1)
      (setHistory newHistory (setOpenedFiles files s)).
Proof.
  intro Hf. unfold commit, updateContentAndHistory. rewrite Hf. simpl.
  now destruct (strictEq _ _).
Qed.

Lemma currentFile_commit (c : jstring) (s : State) (f : FileEntry) :
  currentFile s = Some f ->
  currentFile (commit c s) = Some (mkFile (name f) (Some c)).
Proof.
  intro Hf. rewrite (commit_unfold c s f Hf). simpl.
  destruct (strictEq _ _);
    unfold currentFile; simpl; apply nth_error_array_set_eq; now apply currentFile_lt with f.
Qed.

(** A commit of content other than the current entry: truncate, append,
    point to the last entry. *)
Lemma commit_new (c : jstring) (s : State) (f : FileEntry) :
  currentFile s = Some f ->
  (0 <= historyIndex s < Z.of_nat (length (history s)))%Z ->
  array_get (history s) (historyIndex s) <> Some c ->
  history (commit c s) = firstn (Z.to_nat (historyIndex s) + 1) (history s) ++ [Some c]
  /\ historyIndex (commit c s) = (historyIndex s + 1)%Z
  /\ historyIndex (commit c s) = (Z.of_nat (length (history (commit c s))) - 1)%Z
  /\ array_get (history (commit c s)) (historyIndex (commit c s)) = Some c.
Proof.
  intros Hf Hr Hne. rewrite (commit_unfold c s f Hf). simpl.
  apply strictEq_false_iff in Hne. rewrite Hne. simpl.
  rewrite array_slice0_nonneg by lia.
  replace (Z.to_nat (historyIndex s + 1)) with (Z.to_nat (historyIndex s) + 1) by lia.
  assert (Hlen : length (firstn (Z.to_nat (historyIndex s) + 1) (history s) ++ [Some c])
                 = Z.to_nat (historyIndex s) + 2).
  { rewrite length_app, firstn_length_le; simpl; lia. }
  rewrite Hlen. repeat split; try lia.
  apply array_get_in_range; [lia|].
  replace (Z.to_nat (Z.of_nat (Z.to_nat (historyIndex s) + 2) - 1))
    with (length (firstn (Z.to_nat (historyIndex s) + 1) (history s)) + 0)
    by (rewrite firstn_length_le; lia).
  now rewrite nth_error_app2, Nat.add_comm, Nat.add_sub by lia.
Qed.

(** A commit of the content of the current entry leaves the history as it
    is. *)
Lemma commit_same (c : jstring) (s : State) (f : FileEntry) :
  currentFile s = Some f ->
  array_get (history s) (historyIndex s) = Some c ->
  history (commit c s) = history s /\ historyIndex (commit c s) = historyIndex s.
Proof.
  intros Hf He. rewrite (commit_unfold c s f Hf). simpl.
  rewrite He, strictEq_refl. now simpl.
Qed.

(** C2: with the live content being the current history entry, undo at
    index > 0 decrements the index and makes history[index - 1] the live
    content, the redo that follows gives back the state before the undo;
    undo at index 0 and redo at the last index change nothing; neither
    ever changes the history list. *)
Theorem C2_undo_redo (s : State) (f : FileEntry) :
  currentFile s = Some f ->
  (historyIndex s < Z.of_nat (length (history s)))%Z ->
  array_get (history s) (historyIndex s) = content f ->
  ((0 < historyIndex s)%Z ->
     exists s1,
       handleKeyDown (undoKeyWith ctrl meta) s = Normal s1
       /\ historyIndex s1 = (historyIndex s - 1)%Z
       /\ liveContent s1 = Some (array_get (history s) (historyIndex s - 1))
       /\ handleKeyDown (redoKeyWith ctrl meta) s1 = Normal s
       /\ liveContent s = Some (content f))
  /\ ((historyIndex s <= 0)%Z -> handleKeyDown (undoKeyWith ctrl meta) s = Normal s)
  /\ (historyIndex s = (Z.of_nat (length (history s)) - 1)%Z ->
      handleKeyDown (redoKeyWith ctrl meta) s = Normal s)
  /\ (forall s', handleKeyDown (undoKeyWith ctrl meta) s = Normal s' \/ handleKeyDown (redoKeyWith ctrl meta) s = Normal s' ->
                 history s' = history s).
Proof.
  intros Hf Hlt Hlive.
  pose proof (undo_unfold s f Hf) as Hu. pose proof (redo_unfold s f Hf) as Hr.
  repeat split.
  - intro Hpos. rewrite Hu.
    destruct (Z.ltb_spec 0 (historyIndex s)); [|lia].
    eexists. split; [reflexivity|]. split; [reflexivity|].
    set (g := mkFile (name f) (array_get (history s) (historyIndex s - 1))).
    assert (Hg : currentFile (setOpenedFiles
                   (array_set (currentFileIndex s) g (openedFiles s))
                   (setHistoryIndex (historyIndex s - 1) s)) = Some g)
      by (now apply currentFile_after_set with f).
    split; [unfold liveContent; now rewrite Hg|].
    split; [|unfold liveContent; now rewrite Hf].
    rewrite (redo_unfold _ _ Hg). simpl.
    destruct (Z.ltb_spec (historyIndex s - 1) (Z.of_nat (length (history s)) - 1)); [|lia].
    f_equal. replace (historyIndex s - 1 + 1)%Z with (historyIndex s) by lia.
    rewrite Hlive, file_eta, array_set_twice, array_set_same by exact Hf.
    now destruct s.
  - intro H0. rewrite Hu. destruct (Z.ltb_spec 0 (historyIndex s)); [lia|reflexivity].
  - intro Hlast. rewrite Hr.
    destruct (Z.ltb_spec (historyIndex s) (Z.of_nat (length (history s)) - 1)); [lia|reflexivity].
  - intros s' [H|H].
    + rewrite Hu in H. destruct (0 <? historyIndex s)%Z; injection H as <-; reflexivity.
    + rewrite Hr in H.
      destruct (historyIndex s <? Z.of_nat (length (history s)) - 1)%Z;
        injection H as <-; reflexivity.
Qed.

(** C3: a commit of the content of the current entry changes neither the
    history nor the index, so a second commit of the same content adds
    nothing; a commit of other content truncates after the index, appends
    and points to the new last entry; after an undo and a commit of new
    content, redo changes nothing. *)
Theorem C3_commit (s : State) (f : FileEntry) (c : jstring) :
  currentFile s = Some f ->
  (0 <= historyIndex s < Z.of_nat (length (history s)))%Z ->
  (array_get (history s) (historyIndex s) = Some c ->
     history (commit c s) = history s /\ historyIndex (commit c s) = historyIndex s)
  /\ (array_get (history s) (historyIndex s) <> Some c ->
      history (commit c s) = firstn (Z.to_nat (historyIndex s) + 1) (history s) ++ [Some c]
      /\ historyIndex (commit c s) = (historyIndex s + 1)%Z
      /\ historyIndex (commit c s) = (Z.of_nat (length (history (commit c s))) - 1)%Z)
  /\ (history (commit c (commit c s)) = history (commit c s)
      /\ historyIndex (commit c (commit c s)) = historyIndex (commit c s))
  /\ (forall s1,
        (0 < historyIndex s)%Z ->
        handleKeyDown (undoKeyWith ctrl meta) s = Normal s1 ->
        array_get (history s) (historyIndex s - 1) <> Some c ->
        history (commit c s1) = firstn (Z.to_nat (historyIndex s)) (history s) ++ [Some c]
        /\ handleKeyDown (redoKeyWith ctrl meta) (commit c s1) = Normal (commit c s1)).
Proof.
  intros Hf Hr.
  assert (Hsame : forall t g, currentFile t = Some g ->
            array_get (history t) (historyIndex t) = Some c ->
            history (commit c t) = history t /\ historyIndex (commit c t) = historyIndex t)
    by (intros t g; apply commit_same).
  split; [now apply Hsame with f|].
  split; [intro Hne; destruct (commit_new c s f Hf Hr Hne) as (?&?&?&?); now repeat split|].
  split.
  - pose proof (currentFile_commit c s f Hf) as Hc.
    apply Hsame with (mkFile (name f) (Some c)); [exact Hc|].
    destruct (strictEq (array_get (history s) (historyIndex s)) (Some c)) eqn:E.
    + apply strictEq_true_iff in E.
      destruct (commit_same c s f Hf E) as [-> ->]. exact E.
    + apply strictEq_false_iff in E.
      now destruct (commit_new c s f Hf Hr E) as (_&_&_&?).
  - intros s1 Hpos Hu Hne.
    rewrite (undo_unfold s f Hf) in Hu.
    destruct (Z.ltb_spec 0 (historyIndex s)); [|lia].
    injection Hu as <-.
    set (g := mkFile (name f) (array_get (history s) (historyIndex s - 1))).
    set (s1 := setOpenedFiles _ _).
    assert (Hg : currentFile s1 = Some g) by (now apply currentFile_after_set with f).
    assert (Hr1 : (0 <= historyIndex s1 < Z.of_nat (length (history s1)))%Z)
      by (simpl; lia).
    destruct (commit_new c s1 g Hg Hr1 Hne) as (Hh & Hi & Hlast & _).
    split.
    + rewrite Hh. simpl. do 2 f_equal. lia.
    + rewrite (redo_unfold _ _ (currentFile_commit c s1 g Hg)).
      destruct (Z.ltb_spec (historyIndex (commit c s1))
                           (Z.of_nat (length (history (commit c s1))) - 1)); [lia|reflexivity].
Qed.

End History.

Lemma C2_undo_redo_witness :
  exists s1,
    Funcional1.handleKeyDown (undoKeyWith true false) twoEntries = Normal s1
    /\ historyIndex s1 = 0%Z
    /\ liveContent s1 = Some (Some (str "a"))
    /\ Funcional1.handleKeyDown (redoKeyWith true false) s1 = Normal twoEntries
    /\ liveContent twoEntries = Some (Some (str "ab")).
Proof.
  apply (proj1 (C2_undo_redo true false eq_refl twoEntries
                  (mkFile (str "f.txt") (Some (str "ab")))
                  eq_refl ltac:(simpl; lia) eq_refl)).
  simpl; lia.
Defined.

Lemma C3_commit_witness :
  history (commit (str "abc") twoEntries)
  = [Some (str "a"); Some (str "ab"); Some (str "abc")]
  /\ historyIndex (commit (str "abc") twoEntries) = 2%Z
  /\ historyIndex (commit (str "abc") twoEntries)
     = (Z.of_nat (length (history (commit (str "abc") twoEntries))) - 1)%Z.
Proof.
  apply (proj1 (proj2 (C3_commit true false eq_refl twoEntries
                         (mkFile (str "f.txt") (Some (str "ab"))) (str "abc")
                         eq_refl ltac:(simpl; lia)))).
  discriminate.
Defined.

(* ------------------------------------------------------------------ *)
(** ** Cursor motion (funcional1.jsx) *)

Lemma keyIs_key (k k' : string) (c m : bool) :
  keyIs (mkKey (str k) c m) k' = streq (str k) (str k').
Proof. reflexivity. Qed.

Lemma lengthOf_nth (lines : list jstring) (i : nat) :
  i < length lines ->
  lengthOf (nth_error lines i) = Normal (length (nth i lines [])).
Proof.
  intro H. destruct (nth_error lines i) eqn:E.
  - now rewrite (nth_error_nth _ _ _ E).
  - apply nth_error_None in E. lia.
Qed.

Lemma currentLines_inv (s : State) (lines : list jstring) :
  currentLines s = Some lines ->
  exists f text, currentFile s = Some f /\ content f = Some text /\ lines = split nl text.
Proof.
  unfold currentLines. destruct (currentFile s) as [f|]; [|discriminate].
  destruct (content f) as [text|] eqn:E; [|discriminate].
  simpl. intro H. injection H as <-. now exists f, text.
Qed.

(** A key event that is none of the three accelerators reaches the switch. *)
Lemma handleKeyDown_switch (s : State) (f : FileEntry) (text : jstring) (e : KeyEvent) :
  currentFile s = Some f -> content f = Some text ->
  accelerator e "s" = false -> accelerator e "z" = false -> accelerator e "y" = false ->
  Funcional1.handleKeyDown e s =
  let* r := keySwitch Funcional1.insertable e (split nl text)
                      (line (cursorPosition s)) (char (cursorPosition s)) in
  Normal (setCursorPosition (mkCursor (sw_line r) (sw_char r))
            (if sw_contentChanged r
             then Funcional1.updateContentAndHistory s (Some (join nl (sw_lines r))) true s
             else s)).
Proof.
  intros Hf Hc Hs Hz Hy. unfold Funcional1.handleKeyDown.
  rewrite Hf, Hs, Hz, Hy, Hc. reflexivity.
Qed.

Lemma accelerator_motion (d : Direction) (ctrl meta : bool) (k : string) :
  k = "s" \/ k = "z" \/ k = "y" ->
  accelerator (mkKey (str (keyOf d)) ctrl meta) k = false.
Proof.
  intros [-> | [-> | ->]]; rewrite accelerator_key; destruct d; apply andb_false_r.
Qed.

(** C4: on a non-empty line list and an in-range cursor, the arrow keys,
    Home and End move the cursor as the motion rules say (with any
    modifiers held) and change nothing else: Up and Down step one line when
    it exists and clamp the column to the target line, Left and Right step
    one column and wrap over the line boundary, each is a no-op at its
    boundary, and Home and End keep the line. *)
Theorem C4_motion (s : State) (lines : list jstring) (d : Direction) (ctrl meta : bool) :
  currentLines s = Some lines ->
  cursorInRange lines (cursorPosition s) ->
  Funcional1.handleKeyDown (mkKey (str (keyOf d)) ctrl meta) s
  = Normal (setCursorPosition (moveSpec d lines (cursorPosition s)) s)
  /\ cursorInRange lines (moveSpec d lines (cursorPosition s))
  /\ line (moveSpec DirHome lines (cursorPosition s)) = line (cursorPosition s)
  /\ line (moveSpec DirEnd lines (cursorPosition s)) = line (cursorPosition s).
Proof.
  intros Hl (l & Hnth & Hcol).
  destruct (currentLines_inv s lines Hl) as (f & text & Hf & Hc & ->).
  set (lines := split nl text) in *.
  assert (Hlt : line (cursorPosition s) < length lines)
    by (apply nth_error_Some; congruence).
  pose proof (nth_error_nth _ _ [] Hnth) as Hl0.
  split; [|split; [|split; reflexivity]].
  - rewrite (handleKeyDown_switch s f text) by (assumption || (apply accelerator_motion; tauto)).
    fold lines. unfold keySwitch. rewrite !keyIs_key.
    destruct d; simpl keyOf; eval_keys; cbv iota; unfold moveSpec.
    + destruct (Nat.ltb_spec 0 (line (cursorPosition s))).
      * rewrite lengthOf_nth by lia. reflexivity.
      * simpl. now rewrite cursor_eta, setCursorPosition_same.
    + replace (line (cursorPosition s) + 1 <? length lines)
        with (line (cursorPosition s) <? length lines - 1)
        by (destruct (Nat.ltb_spec (line (cursorPosition s)) (length lines - 1)),
                     (Nat.ltb_spec (line (cursorPosition s) + 1) (length lines)); lia).
      destruct (Nat.ltb_spec (line (cursorPosition s)) (length lines - 1)).
      * rewrite lengthOf_nth by lia. reflexivity.
      * simpl. now rewrite cursor_eta, setCursorPosition_same.
    + destruct (Nat.ltb_spec 0 (char (cursorPosition s))); [reflexivity|].
      destruct (Nat.ltb_spec 0 (line (cursorPosition s))).
      * rewrite lengthOf_nth by lia. reflexivity.
      * simpl. now rewrite cursor_eta, setCursorPosition_same.
    + rewrite lengthOf_nth by lia. simpl bind.
      destruct (Nat.ltb_spec (char (cursorPosition s))
                             (length (nth (line (cursorPosition s)) lines []))); [reflexivity|].
      replace (line (cursorPosition s) + 1 <? length lines)
        with (line (cursorPosition s) <? length lines - 1)
        by (destruct (Nat.ltb_spec (line (cursorPosition s)) (length lines - 1)),
                     (Nat.ltb_spec (line (cursorPosition s) + 1) (length lines)); lia).
      destruct (Nat.ltb_spec (line (cursorPosition s)) (length lines - 1)); [reflexivity|].
      simpl. now rewrite cursor_eta, setCursorPosition_same.
    + reflexivity.
    + rewrite lengthOf_nth by lia. reflexivity.
  - assert (Hin : forall i c, i < length lines -> c <= length (nth i lines []) ->
                              cursorInRange lines (mkCursor i c)).
    { intros i c Hi Hc'. exists (nth i lines []). split; [|exact Hc'].
      now apply nth_error_nth'. }
    assert (Hpos : cursorInRange lines (cursorPosition s)) by (now exists l).
    unfold moveSpec. rewrite <- Hl0 in Hcol.
    destruct d;
      repeat match goal with
             | |- context [?a <? ?b] => destruct (Nat.ltb_spec a b)
             end;
      try exact Hpos; apply Hin; simpl; unfold jstring in *; lia.
Qed.

Lemma C4_motion_witness :
  Funcional1.handleKeyDown (mkKey (str "ArrowRight") false false) (editing ab_cd 0 2)
  = Normal (setCursorPosition (mkCursor 1 0) (editing ab_cd 0 2)).
Proof.
  assert (H : cursorInRange [str "ab"; str "cd"] (cursorPosition (editing ab_cd 0 2))).
  { exists (str "ab"). split; [reflexivity|vm_compute; lia]. }
  apply (proj1 (C4_motion (editing ab_cd 0 2) [str "ab"; str "cd"] DirRight false false
                  eq_refl H)).
Defined.

(* ------------------------------------------------------------------ *)
(** ** Lines: [split] and [join] *)

Lemma eqb_nl_false (c : ascii) : c <> nl -> Ascii.eqb c nl = false.
Proof. intro H. now apply Ascii.eqb_neq. Qed.

Lemma split_nonempty (s : jstring) : split nl s <> [].
Proof.
  destruct s as [|c s]; simpl; [discriminate|].
  destruct (Ascii.eqb c nl); [discriminate|].
  destruct (split nl s); discriminate.
Qed.

Lemma split_noNl (s : jstring) : Forall noNl (split nl s).
Proof.
  induction s as [|c s IH]; simpl.
  - constructor; [intros []|constructor].
  - destruct (Ascii.eqb_spec c nl) as [->|Hc].
    + constructor; [intros []|exact IH].
    + destruct (split nl s) as [|l ls]; inversion IH; subst.
      * constructor; [|constructor]. intros [H|[]]. congruence.
      * constructor; [|assumption]. intros [H|H]; [congruence|contradiction].
Qed.

Lemma split_line (l : jstring) : noNl l -> split nl l = [l].
Proof.
  induction l as [|c l IH]; intro H; simpl; [reflexivity|].
  rewrite eqb_nl_false by (intros ->; apply H; now left).
  rewrite IH; [reflexivity|]. intro Hin. apply H. now right.
Qed.

Lemma split_app_nl (l r : jstring) :
  noNl l -> split nl (l ++ nl :: r) = l :: split nl r.
Proof.
  induction l as [|c l IH]; intro H; simpl.
  - reflexivity.
  - rewrite eqb_nl_false by (intros ->; apply H; now left).
    rewrite IH; [reflexivity|]. intro Hin. apply H. now right.
Qed.

Lemma split_join (ls : list jstring) :
  ls <> [] -> Forall noNl ls -> split nl (join nl ls) = ls.
Proof.
  induction ls as [|l ls IH]; intros Hne Hall; [contradiction|].
  inversion Hall as [|? ? Hl Hls]; subst.
  destruct ls as [|l2 ls].
  - simpl. now apply split_line.
  - change (join nl (l :: l2 :: ls)) with (l ++ nl :: join nl (l2 :: ls)).
    rewrite split_app_nl by assumption. f_equal. apply IH; [discriminate|assumption].
Qed.

Lemma join_split (s : jstring) : join nl (split nl s) = s.
Proof.
  induction s as [|c s IH]; simpl; [reflexivity|].
  destruct (Ascii.eqb_spec c nl) as [->|Hc].
  - pose proof (split_nonempty s) as Hne.
    destruct (split nl s) as [|l ls] eqn:E; [contradiction|].
    simpl in *. now rewrite IH.
  - pose proof (split_nonempty s) as Hne.
    destruct (split nl s) as [|l ls] eqn:E; [contradiction|].
    destruct ls; simpl in *; now rewrite <- IH.
Qed.

Lemma noNl_app (a b : jstring) : noNl a -> noNl b -> noNl (a ++ b).
Proof. intros Ha Hb Hin. apply in_app_or in Hin as [H|H]; auto. Qed.

Lemma In_firstn {A} (n : nat) (a : list A) (x : A) : In x (firstn n a) -> In x a.
Proof.
  intro H. rewrite <- (firstn_skipn n a). apply in_or_app. now left.
Qed.

Lemma In_skipn {A} (n : nat) (a : list A) (x : A) : In x (skipn n a) -> In x a.
Proof.
  intro H. rewrite <- (firstn_skipn n a). apply in_or_app. now right.
Qed.

Lemma noNl_firstn (n : nat) (a : jstring) : noNl a -> noNl (firstn n a).
Proof. intros Ha Hin. apply Ha. eapply In_firstn; eauto. Qed.

Lemma noNl_skipn (n : nat) (a : jstring) : noNl a -> noNl (skipn n a).
Proof. intros Ha Hin. apply Ha. eapply In_skipn; eauto. Qed.

Lemma Forall_array_set {A} (P : A -> Prop) (i : nat) (v : A) (a : list A) :
  Forall P a -> P v -> Forall P (array_set i v a).
Proof.
  intros Ha Hv. revert i. induction Ha as [|x a Hx Ha IH]; intros [|i]; simpl;
    constructor; auto.
Qed.






Lemma nth_error_splice_remove_before {A} (i j : nat) (a : list A) :
  j < i -> nth_error (splice_remove i a) j = nth_error a j.
Proof.
  intro H. unfold splice_remove.
  destruct (Nat.lt_ge_cases j (length a)) as [Hj|Hj].
  - rewrite nth_error_app1 by (rewrite length_firstn; lia).
    rewrite nth_error_firstn. now destruct (Nat.ltb_spec j i); [|lia].
  - rewrite firstn_all2, skipn_all2, app_nil_r by lia. reflexivity.
Qed.

(* ------------------------------------------------------------------ *)
(** ** The cursor invariant under the key handler (funcional1.jsx) *)










(** A cursor left on a line that undo removed: the next ArrowRight reads
    the length of an undefined line. *)
Lemma stale_cursor_throws :
  exists s0 s1 s2,
    Funcional1.loadDocument (str "f.txt") (str "a") initialState = Normal s0
    /\ Funcional1.keyDown (plainKey "Enter") s0 = Normal s1
    /\ Funcional1.keyDown (ctrlPlus "z") s1 = Normal s2
    /\ cursorPosition s2 = mkCursor 1 0
    /\ currentLines s2 = Some [str "a"]
    /\ Funcional1.keyDown (plainKey "ArrowRight") s2 = Throw TypeError.
Proof.
  do 3 eexists.
  split; [vm_compute; reflexivity|]. split; [vm_compute; reflexivity|].
  split; [vm_compute; reflexivity|]. split; [reflexivity|].
  split; [reflexivity|]. vm_compute. reflexivity.
Qed.

(* ------------------------------------------------------------------ *)
(** ** The compiled query *)

Lemma isSyntaxCharacter_backslash (c : ascii) :
  isSyntaxCharacter c = false -> Ascii.eqb c "\"%char = false /\ Ascii.eqb c "."%char = false.
Proof.
  intro H. split.
  - destruct (Ascii.eqb_spec c "\"%char) as [->|]; [discriminate H|reflexivity].
  - destruct (Ascii.eqb_spec c "."%char) as [->|]; [discriminate H|reflexivity].
Qed.

(** The pattern built from an escaped query always compiles, to the
    literal characters of the query. *)
Lemma RegExp_escapeRegExp (q : jstring) :
  RegExp (escapeRegExp q) = Normal (map Lit q).
Proof.
  induction q as [|c q IH]; [reflexivity|].
  simpl escapeRegExp. destruct (isSyntaxCharacter c) eqn:E.
  - change (RegExp ("\"%char :: c :: escapeRegExp q))
      with (if isSyntaxCharacter c
            then let* p := RegExp (escapeRegExp q) in Normal (Lit c :: p)
            else Unmodelled).
    now rewrite E, IH.
  - destruct (isSyntaxCharacter_backslash c E) as [E1 E2].
    simpl RegExp. now rewrite E1, E2, E, IH.
Qed.

Lemma matchHere_literal (q s : jstring) : matchHere (map Lit q) s = ciPrefix q s.
Proof.
  revert s; induction q as [|a q IH]; intros [|c s]; simpl; try reflexivity.
  now rewrite IH.
Qed.

Lemma ciPrefix_length (q s : jstring) : ciPrefix q s = true -> length q <= length s.
Proof.
  revert s; induction q as [|a q IH]; intros [|c s] H; simpl in *; try lia; try discriminate.
  apply andb_true_iff in H as [_ H]. apply IH in H. lia.
Qed.

Lemma firstMatch_none (q s : jstring) :
  q <> [] -> firstMatch (map Lit q) s = None -> occurrences q 0 0 s = [] /\
  forall pos, occurrences q 0 pos s = [].
Proof.
  intros Hq. induction s as [|c s IH]; intro H; [now split|].
  simpl in H. rewrite matchHere_literal in H.
  destruct (ciPrefix q (c :: s)) eqn:E; [discriminate|].
  destruct (firstMatch (map Lit q) s) eqn:F; [discriminate|].
  destruct (IH eq_refl) as [_ IH'].
  split; [|intro pos]; cbn [occurrences]; rewrite E; apply IH'.
Qed.

(** Skipping the rest of a taken occurrence. *)
Lemma occurrences_skip (q : jstring) (k pos : nat) (s : jstring) :
  occurrences q k pos s = occurrences q 0 (pos + k) (skipn k s).
Proof.
  revert pos s; induction k as [|k IH]; intros pos s.
  - now rewrite Nat.add_0_r.
  - destruct s as [|c s]; [reflexivity|].
    cbn [occurrences skipn]. rewrite IH. f_equal. lia.
Qed.

Lemma replaceSpec_skip (q r : jstring) (k : nat) (s : jstring) :
  replaceSpec q r k s = replaceSpec q r 0 (skipn k s).
Proof.
  revert s; induction k as [|k IH]; intros s; [reflexivity|].
  destruct s as [|c s]; [reflexivity|]. cbn [replaceSpec skipn]. apply IH.
Qed.

Lemma firstMatch_some (q s : jstring) (i : nat) :
  q <> [] -> firstMatch (map Lit q) s = Some i ->
  i + length q <= length s
  /\ ciPrefix q (skipn i s) = true
  /\ forall pos, occurrences q 0 pos s
                 = (pos + i) :: occurrences q 0 (pos + i + length q) (skipn (i + length q) s).
Proof.
  intros Hq. revert i. induction s as [|c s IH]; intros i H.
  - simpl in H. rewrite matchHere_literal in H.
    destruct q; [contradiction|discriminate].
  - simpl in H. rewrite matchHere_literal in H.
    destruct (ciPrefix q (c :: s)) eqn:E.
    + injection H as <-. split; [apply ciPrefix_length in E; simpl in *; lia|].
      split; [exact E|]. intro pos.
      cbn [occurrences]. rewrite E, occurrences_skip.
      destruct q as [|a q]; [contradiction|].
      cbn [length skipn Nat.add Nat.sub]. rewrite Nat.sub_0_r, !Nat.add_0_r.
      do 2 f_equal. lia.
    + destruct (firstMatch (map Lit q) s) as [j|] eqn:F; [|discriminate].
      injection H as <-. destruct (IH j eq_refl) as (H1 & H2 & H3).
      split; [simpl; lia|]. split; [exact H2|]. intro pos.
      cbn [occurrences]. rewrite E, H3. cbn [Nat.add skipn].
      f_equal; [lia|]. f_equal. lia.
Qed.

(** The match loop of [String.prototype.match] and [replace] on a literal
    pattern finds the occurrences taken from the left without overlap. *)
Lemma matchLoop_occurrences (q s : jstring) (fuel lastIndex : nat) :
  q <> [] ->
  length s + 2 <= fuel + lastIndex ->
  matchLoop fuel (map Lit q) s lastIndex
  = map (fun i => mkMatch i (firstn (length q) (skipn i s)))
        (occurrences q 0 lastIndex (skipn lastIndex s)).
Proof.
  intro Hq. revert lastIndex. induction fuel as [|fuel IH]; intros lastIndex Hf.
  - rewrite skipn_all2 by lia. reflexivity.
  - cbn [matchLoop]. unfold exec. rewrite length_map.
    destruct (Nat.ltb_spec (length s) lastIndex) as [Hlt|Hle].
    + rewrite skipn_all2 by lia. reflexivity.
    + destruct (firstMatch (map Lit q) (skipn lastIndex s)) as [i|] eqn:F.
      * destruct (firstMatch_some q _ i Hq F) as (Hlen & _ & Hocc).
        rewrite length_skipn in Hlen.
        assert (Hq1 : 1 <= length q) by (destruct q; [contradiction|simpl; lia]).
        assert (Hm : length (firstn (length q) (skipn (lastIndex + i) s)) = length q)
          by (rewrite length_firstn, length_skipn; unfold jstring in *; lia).
        rewrite Hocc. cbn [m_text map]. rewrite Hm.
        replace (length q =? 0) with false by (symmetry; apply Nat.eqb_neq; lia).
        rewrite IH by (unfold jstring in *; lia).
        rewrite skipn_skipn.
        replace (i + length q + lastIndex) with (lastIndex + i + length q) by lia.
        reflexivity.
      * destruct (firstMatch_none q _ Hq F) as [_ ->]. reflexivity.
Qed.

(** The loop of the search effect pushes the same matches as spans and
    leaves the regex with [lastIndex = 0]. *)
Lemma execLoop_occurrences (q l : jstring) (fuel lineIndex lastIndex : nat) :
  q <> [] ->
  1 <= fuel ->
  length l + 2 <= fuel + lastIndex ->
  execLoop fuel (map Lit q) l lineIndex lastIndex
  = (spansOf q lineIndex (occurrences q 0 lastIndex (skipn lastIndex l)), 0).
Proof.
  intro Hq. revert lastIndex. induction fuel as [|fuel IH]; intros lastIndex H1 Hf; [lia|].
  cbn [execLoop]. unfold exec. rewrite length_map.
  destruct (Nat.ltb_spec (length l) lastIndex) as [Hlt|Hle].
  - rewrite skipn_all2 by lia. reflexivity.
  - destruct (firstMatch (map Lit q) (skipn lastIndex l)) as [i|] eqn:F.
    + destruct (firstMatch_some q _ i Hq F) as (Hlen & _ & Hocc).
      rewrite length_skipn in Hlen.
      assert (Hq1 : 1 <= length q) by (destruct q; [contradiction|simpl; lia]).
      assert (Hm : length (firstn (length q) (skipn (lastIndex + i) l)) = length q)
        by (rewrite length_firstn, length_skipn; unfold jstring in *; lia).
      rewrite Hocc. cbn [m_text m_index]. rewrite Hm.
      replace (length q =? 0) with false by (symmetry; apply Nat.eqb_neq; lia).
      rewrite IH by (unfold jstring in *; lia).
      rewrite skipn_skipn.
      replace (i + length q + lastIndex) with (lastIndex + i + length q) by lia.
      reflexivity.
    + destruct (firstMatch_none q _ Hq F) as [_ ->]. reflexivity.
Qed.

(* ------------------------------------------------------------------ *)
(** ** Occurrences: sound, ordered, complete *)

Lemma occurrences_sound (q : jstring) (k pos : nat) (s : jstring) (i : nat) :
  In i (occurrences q k pos s) ->
  pos + k <= i /\ i - pos <= length s /\ ciPrefix q (skipn (i - pos) s) = true.
Proof.
  revert k pos. induction s as [|c s IH]; intros k pos H; [contradiction|].
  cbn [occurrences] in H. destruct k as [|k].
  - destruct (ciPrefix q (c :: s)) eqn:E.
    + destruct H as [<-|H].
      * rewrite Nat.sub_diag. simpl length. repeat split; try lia. exact E.
      * apply IH in H as (H1 & H2 & H3).
        replace (i - pos) with (S (i - S pos)) by lia. simpl. repeat split; try lia. exact H3.
    + apply IH in H as (H1 & H2 & H3).
      replace (i - pos) with (S (i - S pos)) by lia. simpl. repeat split; try lia. exact H3.
  - apply IH in H as (H1 & H2 & H3).
    replace (i - pos) with (S (i - S pos)) by lia. simpl. repeat split; try lia. exact H3.
Qed.

Lemma occurrences_sorted (q : jstring) (k pos : nat) (s : jstring) :
  q <> [] ->
  StronglySorted (fun a b => a + length q <= b) (occurrences q k pos s).
Proof.
  intro Hq. revert k pos. induction s as [|c s IH]; intros k pos; [constructor|].
  cbn [occurrences]. destruct k as [|k]; [|apply IH].
  destruct (ciPrefix q (c :: s)); [|apply IH].
  constructor; [apply IH|].
  apply Forall_forall. intros i Hi. apply occurrences_sound in Hi as (H & _).
  destruct q; [contradiction|simpl in *; lia].
Qed.

Lemma occurrences_complete (q : jstring) (k pos : nat) (s : jstring) (j : nat) :
  q <> [] -> k <= j -> ciPrefix q (skipn j s) = true ->
  exists i, In i (occurrences q k pos s) /\ i <= pos + j < i + length q.
Proof.
  intro Hq. revert k pos j. induction s as [|c s IH]; intros k pos j Hk H.
  - rewrite skipn_nil in H. destruct q; [contradiction|discriminate].
  - cbn [occurrences]. destruct k as [|k].
    + destruct (ciPrefix q (c :: s)) eqn:E.
      * destruct (Nat.lt_ge_cases j (length q)) as [Hlt|Hge].
        -- exists pos. split; [now left|lia].
        -- destruct j as [|j]; [destruct q; [contradiction|simpl in Hge; lia]|].
           destruct (IH (length q - 1) (S pos) j ltac:(lia) H) as (i & Hi & Hr).
           exists i. split; [now right|lia].
      * destruct j as [|j]; [simpl in H; congruence|].
        destruct (IH 0 (S pos) j ltac:(lia) H) as (i & Hi & Hr).
        exists i. split; [exact Hi|lia].
    + destruct j as [|j]; [lia|].
      destruct (IH k (S pos) j ltac:(lia) H) as (i & Hi & Hr).
      exists i. split; [exact Hi|lia].
Qed.

Lemma occurrences_length_pos (q : jstring) (k pos pos' : nat) (s : jstring) :
  length (occurrences q k pos s) = length (occurrences q k pos' s).
Proof.
  revert k pos pos'. induction s as [|c s IH]; intros k pos pos'; [reflexivity|].
  cbn [occurrences]. destruct k as [|k]; [|apply IH].
  destruct (ciPrefix q (c :: s)); [|apply IH]. simpl. f_equal. apply IH.
Qed.

(** No character folds to the line separator but itself. *)
Lemma canonicalize_nl (c : ascii) : canonicalize c = canonicalize nl -> c = nl.
Proof.
  destruct c as [[] [] [] [] [] [] [] []]; vm_compute; intro H;
    try reflexivity; discriminate H.
Qed.

Lemma ciPrefix_app_nl (q l rest : jstring) :
  noNl q -> ciPrefix q (l ++ nl :: rest) = ciPrefix q l.
Proof.
  revert l. induction q as [|a q IH]; intros l Hq; [reflexivity|].
  assert (Ha : a <> nl) by (intros ->; apply Hq; now left).
  assert (Hq' : noNl q) by (intro H; apply Hq; now right).
  destruct l as [|c l]; cbn [app ciPrefix].
  - destruct (Ascii.eqb_spec (canonicalize a) (canonicalize nl)) as [E|E]; [|reflexivity].
    apply canonicalize_nl in E. contradiction.
  - now rewrite IH.
Qed.

(** A query without line separator is searched in the whole text as it is
    line by line. *)
Lemma occurrences_app_nl (q : jstring) (k pos : nat) (l rest : jstring) :
  noNl q -> q <> [] -> k <= length l ->
  occurrences q k pos (l ++ nl :: rest)
  = occurrences q k pos l ++ occurrences q 0 (pos + length l + 1) rest.
Proof.
  intros Hq Hne. revert k pos. induction l as [|c l IH]; intros k pos Hk.
  - simpl in Hk. replace k with 0 by lia.
    pose proof (ciPrefix_app_nl q [] rest Hq) as E. cbn [app] in E.
    cbn [app occurrences length]. rewrite E.
    destruct q; [contradiction|]. cbn [ciPrefix app]. f_equal. lia.
  - cbn [app occurrences length]. destruct k as [|k].
    + change (c :: l ++ nl :: rest) with ((c :: l) ++ nl :: rest).
      rewrite (ciPrefix_app_nl q (c :: l) rest Hq).
      destruct (ciPrefix q (c :: l)) eqn:E.
      * apply ciPrefix_length in E. simpl in E.
        rewrite IH by lia. cbn [app]. do 3 f_equal. lia.
      * rewrite IH by lia. do 2 f_equal. lia.
    + simpl in Hk. rewrite IH by lia. do 2 f_equal. lia.
Qed.

Lemma occurrences_join (q : jstring) (lines : list jstring) (k pos : nat) :
  noNl q -> q <> [] ->
  length (occurrences q 0 pos (join nl lines)) = length (findSpec q k lines).
Proof.
  intros Hq Hne. revert k pos. induction lines as [|l ls IH]; intros k pos; [reflexivity|].
  destruct ls as [|l2 ls].
  - cbn [join findSpec]. rewrite app_nil_r. unfold spansOf. rewrite length_map.
    apply occurrences_length_pos.
  - change (join nl (l :: l2 :: ls)) with (l ++ nl :: join nl (l2 :: ls)).
    rewrite occurrences_app_nl by (assumption || lia).
    cbn [findSpec]. rewrite !length_app. unfold spansOf at 1. rewrite length_map.
    rewrite (IH (S k)). f_equal.
    + apply occurrences_length_pos.
    + cbn [findSpec]. now rewrite length_app.
Qed.

(* ------------------------------------------------------------------ *)
(** ** The search effect against the line-by-line result *)

Lemma forEachLine_findSpec (q : jstring) (lines : list jstring) (k : nat) :
  q <> [] -> forEachLine (map Lit q) lines k 0 = (findSpec q k lines, 0).
Proof.
  intro Hq. revert k. induction lines as [|l ls IH]; intro k; [reflexivity|].
  cbn [forEachLine findSpec].
  rewrite execLoop_occurrences by (assumption || lia).
  now rewrite IH.
Qed.

Lemma searchBody_findSpec (q text : jstring) :
  q <> [] -> searchBody q (Some text) = Normal (findSpec q 0 (split nl text)).
Proof.
  intro Hq. unfold searchBody. rewrite RegExp_escapeRegExp. simpl.
  now rewrite forEachLine_findSpec.
Qed.

Lemma searchEffect_findSpec (s : State) (f : FileEntry) (text : jstring) :
  currentFile s = Some f -> content f = Some text -> searchQuery s <> [] ->
  searchEffect s = Normal (setSearchResults (findSpec (searchQuery s) 0 (split nl text)) s).
Proof.
  intros Hf Hc Hq. unfold searchEffect. rewrite Hf, Hc.
  destruct (searchQuery s) as [|q0 q] eqn:E; [contradiction|].
  now rewrite searchBody_findSpec.
Qed.

Lemma In_findSpec (q : jstring) (lines : list jstring) (k0 : nat) (r : SearchResult) :
  In r (findSpec q k0 lines) <->
  exists n l i, nth_error lines n = Some l /\ In i (occurrences q 0 0 l)
                /\ r = mkResult (k0 + n) i (i + length q).
Proof.
  revert k0. induction lines as [|l ls IH]; intro k0; cbn [findSpec].
  - split; [contradiction|]. intros (n & l & i & H & _). now destruct n.
  - rewrite in_app_iff, IH. unfold spansOf. rewrite in_map_iff. split.
    + intros [(i & E & Hi) | (n & l' & i & Hn & Hi & E)]; subst r.
      * exists 0, l, i. rewrite Nat.add_0_r. now repeat split.
      * exists (S n), l', i. repeat split; auto. f_equal. lia.
    + intros (n & l' & i & Hn & Hi & E). subst r. destruct n as [|n].
      * left. injection Hn as <-. exists i. rewrite Nat.add_0_r. now split.
      * right. exists n, l', i. repeat split; auto. f_equal. lia.
Qed.

Lemma findSpec_sorted (q : jstring) (lines : list jstring) (k0 : nat) :
  q <> [] -> StronglySorted spanBefore (findSpec q k0 lines).
Proof.
  intro Hq. revert k0. induction lines as [|l ls IH]; intro k0; [constructor|].
  cbn [findSpec].
  assert (Hlater : forall r, In r (findSpec q (S k0) ls) -> k0 < res_line r).
  { intros r Hr. apply In_findSpec in Hr as (n & l' & i & _ & _ & E). subst r. simpl. lia. }
  pose proof (occurrences_sorted q 0 0 l Hq) as Hs.
  remember (occurrences q 0 0 l) as starts eqn:Heq. clear Heq.
  induction Hs as [|i starts Hs IHs Hall]; [apply IH|].
  cbn [spansOf map app]. constructor; [exact IHs|].
  apply Forall_forall. intros r Hr. apply in_app_iff in Hr as [Hr|Hr].
  - right. unfold spansOf in Hr. apply in_map_iff in Hr as (j & E & Hj). subst r.
    rewrite Forall_forall in Hall. specialize (Hall j Hj). simpl. lia.
  - left. simpl. now apply Hlater.
Qed.

(** C6: for a non-empty query the search effect returns, line by line, the
    spans of the occurrences of the query taken as a literal and compared
    without case: every span is an occurrence in its line and ends at
    start + length; the list is ordered by line and column without
    overlap; every occurrence is covered by a span that starts at or before
    it; "abc" in "abcabc" gives (0,0,3) and (0,3,6), and "a.b" matches
    "a.b" and not "axb". *)
Theorem C6_find (s : State) (f : FileEntry) (text : jstring) :
  currentFile s = Some f -> content f = Some text -> searchQuery s <> [] ->
  exists results,
    searchEffect s = Normal (setSearchResults results s)
    /\ results = findSpec (searchQuery s) 0 (split nl text)
    /\ (forall r, In r results ->
          exists l, nth_error (split nl text) (res_line r) = Some l
                    /\ occursAt (searchQuery s) l (res_start r)
                    /\ res_end r = res_start r + length (searchQuery s)
                    /\ res_end r <= length l)
    /\ StronglySorted spanBefore results
    /\ (forall k l j, nth_error (split nl text) k = Some l ->
          occursAt (searchQuery s) l j ->
          exists r, In r results /\ res_line r = k /\ res_start r <= j < res_end r)
    /\ searchBody (str "abc") (Some (str "abcabc")) = Normal [mkResult 0 0 3; mkResult 0 3 6]
    /\ searchBody (str "a.b") (Some (str "axb")) = Normal []
    /\ searchBody (str "a.b") (Some (str "axb a.b")) = Normal [mkResult 0 4 7].
Proof.
  intros Hf Hc Hq. eexists. split; [apply (searchEffect_findSpec s f text Hf Hc Hq)|].
  split; [reflexivity|].
  split; [|split; [now apply findSpec_sorted|split;
    [|split; [|split]; vm_compute; reflexivity]]].
  - intros r Hr. apply In_findSpec in Hr as (n & l & i & Hn & Hi & E). subst r.
    apply occurrences_sound in Hi as (_ & Hi1 & Hi2). rewrite Nat.sub_0_r in *.
    exists l. simpl. split; [exact Hn|]. split; [now split|]. split; [reflexivity|].
    apply ciPrefix_length in Hi2. rewrite length_skipn in Hi2. unfold jstring in *. lia.
  - intros k l j Hn (Hj & Ho).
    destruct (occurrences_complete (searchQuery s) 0 0 l j Hq ltac:(lia) Ho) as (i & Hi & Hr).
    exists (mkResult k i (i + length (searchQuery s))). split; [|simpl; lia].
    apply In_findSpec. now exists k, l, i.
Qed.

Lemma C6_find_witness :
  exists results,
    searchEffect (searching (str "abcabc") (str "abc") [] 0 0)
    = Normal (setSearchResults results (searching (str "abcabc") (str "abc") [] 0 0))
    /\ results = findSpec (str "abc") 0 [str "abcabc"]
    /\ StronglySorted spanBefore results.
Proof.
  destruct (C6_find (searching (str "abcabc") (str "abc") [] 0 0)
              (mkFile (str "f.txt") (Some (str "abcabc"))) (str "abcabc")
              eq_refl eq_refl ltac:(discriminate))
    as (results & H1 & H2 & _ & H4 & _).
  exists results. repeat split; assumption.
Defined.

(** Without the escaping, the dot of "a.b" would match any character. *)
Lemma unescaped_dot_matches :
  RegExp (str "a.b") = Normal [Lit "a"%char; AnyChar; Lit "b"%char]
  /\ matchHere [Lit "a"%char; AnyChar; Lit "b"%char] (str "axb") = true
  /\ RegExp (escapeRegExp (str "a.b")) = Normal [Lit "a"%char; Lit "."%char; Lit "b"%char].
Proof. split; [|split]; vm_compute; reflexivity. Qed.

(** C10: with the empty query the search effect stores the empty list; it
    always completes normally; whenever the body of its try block throws
    (which the pattern compile, for one, never does) it stores the empty
    list. *)
Theorem C10_search_never_raises (s : State) :
  (searchQuery s = [] -> searchEffect s = Normal (setSearchResults [] s))
  /\ (exists results, searchEffect s = Normal (setSearchResults results s))
  /\ (forall f e, currentFile s = Some f ->
        searchBody (searchQuery s) (content f) = Throw e ->
        searchEffect s = Normal (setSearchResults [] s))
  /\ (forall e, RegExp (escapeRegExp (searchQuery s)) <> Throw e).
Proof.
  split; [|split; [|split]].
  - intro Hq. unfold searchEffect. now rewrite Hq.
  - unfold searchEffect. destruct (searchQuery s) as [|q0 q] eqn:Hq; [now eexists|].
    destruct (currentFile s) as [f|]; [|now eexists].
    unfold searchBody. rewrite RegExp_escapeRegExp.
    destruct (content f); simpl; now eexists.
  - intros f e Hf Hb. unfold searchEffect. rewrite Hf, Hb.
    now destruct (searchQuery s).
  - intro e. now rewrite RegExp_escapeRegExp.
Qed.

Lemma C10_search_never_raises_witness :
  searchEffect (editing ab_cd 0 0) = Normal (setSearchResults [] (editing ab_cd 0 0))
  /\ searchBody (searchQuery undefinedContent) None = Throw TypeError
  /\ searchEffect undefinedContent = Normal (setSearchResults [] undefinedContent).
Proof.
  split; [apply (proj1 (C10_search_never_raises (editing ab_cd 0 0))); reflexivity|].
  split; [reflexivity|].
  apply (proj1 (proj2 (proj2 (C10_search_never_raises undefinedContent)))
           (mkFile (str "f.txt") None) TypeError); reflexivity.
Defined.

(* ------------------------------------------------------------------ *)
(** ** Replace-all *)

Lemma getSubstitution_verbatim (matched s : jstring) (position : nat) (r : jstring) :
  noDollar r -> getSubstitution matched s position r = r.
Proof.
  induction r as [|c r IH]; intro H; [reflexivity|].
  cbn [getSubstitution].
  destruct (Ascii.eqb_spec c "$"%char) as [->|_]; [exfalso; apply H; now left|].
  f_equal. apply IH. intro Hin. apply H. now right.
Qed.

Lemma allMatches_literal (q s : jstring) :
  q <> [] ->
  allMatches (map Lit q) s
  = map (fun i => mkMatch i (firstn (length q) (skipn i s))) (occurrences q 0 0 s).
Proof.
  intro Hq. unfold allMatches. rewrite matchLoop_occurrences by (assumption || lia).
  reflexivity.
Qed.

Lemma replaceSpec_no_occurrence (q r : jstring) (pos : nat) (s : jstring) :
  occurrences q 0 pos s = [] -> replaceSpec q r 0 s = s.
Proof.
  revert pos. induction s as [|c s IH]; intros pos H; [reflexivity|].
  cbn [occurrences replaceSpec] in *.
  destruct (ciPrefix q (c :: s)); [discriminate|].
  f_equal. now apply IH with (S pos).
Qed.

Lemma assemble_replaceSpec (q r : jstring) (n : nat) :
  q <> [] -> noDollar r ->
  forall s pre t next acc,
    length t <= n -> s = pre ++ t -> next <= length pre ->
    assemble s r (map (fun i => mkMatch i (firstn (length q) (skipn i s)))
                      (occurrences q 0 (length pre) t)) next acc
    = acc ++ skipn next pre ++ replaceSpec q r 0 t.
Proof.
  intros Hq Hr. assert (Hq1 : 1 <= length q) by (destruct q; [contradiction|simpl; lia]).
  induction n as [|n IH]; intros s pre t next acc Hn Hs Hnext.
  - destruct t; [|simpl in Hn; lia]. rewrite app_nil_r in Hs. subst s.
    cbn [occurrences map assemble replaceSpec]. now rewrite app_nil_r.
  - destruct t as [|c t].
    + rewrite app_nil_r in Hs. subst s.
      cbn [occurrences map assemble replaceSpec]. now rewrite app_nil_r.
    + cbn [occurrences replaceSpec]. destruct (ciPrefix q (c :: t)) eqn:E.
      * pose proof (ciPrefix_length _ _ E) as Hlen. simpl in Hlen, Hn.
        cbn [map assemble m_index m_text].
        destruct (Nat.leb_spec next (length pre)); [|lia].
        rewrite getSubstitution_verbatim by assumption.
        assert (Hsk : skipn (length pre) s = c :: t)
          by (subst s; rewrite skipn_app, skipn_all, Nat.sub_diag; reflexivity).
        assert (Hmid : firstn (length pre - next) (skipn next s) = skipn next pre).
        { subst s. rewrite skipn_app, firstn_app, length_skipn.
          replace (next - length pre) with 0 by lia.
          rewrite firstn_all2 by (rewrite length_skipn; lia).
          replace (length pre - next - (length pre - next)) with 0 by lia.
          now rewrite app_nil_r. }
        rewrite Hsk, Hmid, length_firstn.
        replace (Nat.min (length q) (length (c :: t))) with (length q) by (simpl; lia).
        rewrite occurrences_skip, replaceSpec_skip.
        replace (S (length pre) + (length q - 1)) with (length (pre ++ firstn (length q) (c :: t)))
          by (rewrite length_app, length_firstn; simpl; lia).
        replace (length pre + length q) with (length (pre ++ firstn (length q) (c :: t)))
          by (rewrite length_app, length_firstn; simpl; lia).
        assert (Hrest : skipn (length q - 1) t = skipn (length q) (c :: t))
          by (destruct (length q); [lia|simpl; now rewrite Nat.sub_0_r]).
        rewrite Hrest.
        rewrite (IH s (pre ++ firstn (length q) (c :: t)) (skipn (length q) (c :: t))).
        -- rewrite skipn_all. cbn [app]. now rewrite <- !app_assoc.
        -- rewrite length_skipn. cbn [length]. unfold jstring in *. lia.
        -- rewrite <- app_assoc, firstn_skipn. exact Hs.
        -- unfold jstring in *. lia.
      * simpl in Hn.
        replace (S (length pre)) with (length (pre ++ [c])) by (rewrite length_app; simpl; lia).
        rewrite (IH s (pre ++ [c]) t next acc).
        -- rewrite skipn_app. replace (next - length pre) with 0 by lia.
           cbn [skipn]. now rewrite <- !app_assoc.
        -- lia.
        -- rewrite <- app_assoc. exact Hs.
        -- rewrite length_app. simpl. lia.
Qed.

(** [replace] with a global literal pattern and a template without [$]
    replaces the occurrences taken from the left without overlap. *)
Lemma stringReplace_literal (q r s : jstring) :
  q <> [] -> noDollar r -> stringReplace (map Lit q) s r = replaceSpec q r 0 s.
Proof.
  intros Hq Hr. unfold stringReplace. rewrite allMatches_literal by assumption.
  exact (assemble_replaceSpec q r (length s) Hq Hr s [] s 0 []
           (le_n _) eq_refl (le_n _)).
Qed.

Lemma handleReplaceAll_spec (s : State) (f : FileEntry) (text : jstring) :
  currentFile s = Some f -> content f = Some text -> searchQuery s <> [] ->
  Funcional1.handleReplaceAll s =
  if length (occurrences (searchQuery s) 0 0 text) =? 0
  then Normal (setNotification NoMatches s)
  else
    let newContent := stringReplace (map Lit (searchQuery s)) text (replaceQuery s) in
    if negb (streq newContent text)
    then Normal (setNotification (Replaced (length (occurrences (searchQuery s) 0 0 text)))
                   (commit newContent s))
    else Normal s.
Proof.
  intros Hf Hc Hq. unfold Funcional1.handleReplaceAll. rewrite Hf.
  destruct (searchQuery s) as [|q0 q] eqn:E; [contradiction|]. rewrite <- E in *.
  rewrite RegExp_escapeRegExp, Hc. cbn [bind stringOf].
  unfold stringMatch. rewrite allMatches_literal by assumption.
  destruct (occurrences (searchQuery s) 0 0 text) as [|i occ]; [reflexivity|].
  cbn [map length Nat.eqb]. rewrite !length_map.
  destruct (negb _); reflexivity.
Qed.

(** C5, as the code has it: with a non-empty query and a replacement
    without [$], replace-all counts the occurrences of the query (literal,
    without case) in the original content; with no occurrence the content
    is unchanged and "no matches" is reported; otherwise, when the
    replaced text differs from the original, it becomes the content, is
    committed, and the count is reported; when it equals the original,
    nothing is reported and nothing is committed.  "foo" by "baz" in
    "foo bar foo" gives "baz bar baz" and the count 2. *)
Theorem C5_replaceAll (s : State) (f : FileEntry) (text : jstring) :
  currentFile s = Some f -> content f = Some text ->
  searchQuery s <> [] -> noDollar (replaceQuery s) ->
  let count := length (occurrences (searchQuery s) 0 0 text) in
  let newText := replaceSpec (searchQuery s) (replaceQuery s) 0 text in
  (count = 0 ->
     newText = text
     /\ Funcional1.handleReplaceAll s = Normal (setNotification NoMatches s))
  /\ (0 < count -> newText <> text ->
      Funcional1.handleReplaceAll s
      = Normal (setNotification (Replaced count) (commit newText s))
      /\ liveContent (setNotification (Replaced count) (commit newText s))
         = Some (Some newText))
  /\ (0 < count -> newText = text -> Funcional1.handleReplaceAll s = Normal s)
  /\ Funcional1.handleReplaceAll (searching (str "foo bar foo") (str "foo") (str "baz") 0 0)
     = Normal (setNotification (Replaced 2)
                 (commit (str "baz bar baz")
                         (searching (str "foo bar foo") (str "foo") (str "baz") 0 0))).
Proof.
  intros Hf Hc Hq Hr count newText.
  pose proof (handleReplaceAll_spec s f text Hf Hc Hq) as H.
  rewrite (stringReplace_literal _ _ text Hq Hr) in H.
  fold count newText in H. cbv zeta in H.
  split; [|split; [|split]].
  - intro H0. rewrite H0 in H. split; [|exact H].
    apply replaceSpec_no_occurrence with 0.
    now apply length_zero_iff_nil.
  - intros Hpos Hne.
    destruct (Nat.eqb_spec count 0); [lia|].
    destruct (streq newText text) eqn:E; [apply streq_true_iff in E; contradiction|].
    split; [exact H|].
    unfold liveContent.
    change (currentFile (setNotification ?n ?t)) with (currentFile t).
    now rewrite (currentFile_commit newText s f Hf).
  - intros Hpos He.
    destruct (Nat.eqb_spec count 0); [lia|].
    now rewrite He, streq_refl in H.
  - vm_compute. reflexivity.
Qed.

Lemma C5_replaceAll_witness :
  length (occurrences (str "a") 0 0 (str "banana")) = 3
  /\ Funcional1.handleReplaceAll (searching (str "banana") (str "a") (str "o") 0 0)
     = Normal (setNotification (Replaced 3)
                 (commit (str "bonono") (searching (str "banana") (str "a") (str "o") 0 0))).
Proof.
  split; [reflexivity|].
  assert (Hd : noDollar (replaceQuery (searching (str "banana") (str "a") (str "o") 0 0))).
  { intros [H|[]]. discriminate H. }
  apply (proj1 (proj2 (C5_replaceAll (searching (str "banana") (str "a") (str "o") 0 0)
                         (mkFile (str "f.txt") (Some (str "banana"))) (str "banana")
                         eq_refl eq_refl ltac:(discriminate) Hd))).
  - vm_compute. lia.
  - discriminate.
Defined.

(** C5 as stated fails: replacing "foo" by "foo" in "foo" finds one match,
    and replace-all reports neither that count nor "no matches". *)
Lemma C5_counterexample :
  length (occurrences (str "foo") 0 0 (str "foo")) = 1
  /\ Funcional1.handleReplaceAll (searching (str "foo") (str "foo") (str "foo") 0 0)
     = Normal (searching (str "foo") (str "foo") (str "foo") 0 0)
  /\ notification (searching (str "foo") (str "foo") (str "foo") 0 0) = NoNotification
  /\ ~ (forall s f text,
          currentFile s = Some f -> content f = Some text -> searchQuery s <> [] ->
          exists s', Funcional1.handleReplaceAll s = Normal s'
                     /\ notification s'
                        = if length (occurrences (searchQuery s) 0 0 text) =? 0
                          then NoMatches
                          else Replaced (length (occurrences (searchQuery s) 0 0 text))).
Proof.
  split; [reflexivity|]. split; [reflexivity|]. split; [reflexivity|].
  intro H.
  destruct (H (searching (str "foo") (str "foo") (str "foo") 0 0)
              (mkFile (str "f.txt") (Some (str "foo"))) (str "foo")
              eq_refl eq_refl ltac:(discriminate)) as (s' & H1 & H2).
  vm_compute in H1. injection H1 as <-. vm_compute in H2. discriminate H2.
Qed.

(** The replacement is a template: [$$] stands for one [$] and [$&] for the
    matched text. *)
Lemma replacement_template_expanded :
  stringReplace (map Lit (str "foo")) (str "a foo") (str "$$") = str "a $"
  /\ stringReplace (map Lit (str "foo")) (str "a Foo") (str "[$&]") = str "a [Foo]".
Proof. split; vm_compute; reflexivity. Qed.

(** C9: the search field is an [<input type="text">], whose value holds no
    line separator.  For every such query and every content, the spans
    of the search are as many as the matches replace-all counts, so that
    replace-all reports "no matches" exactly when there is no span and,
    whenever it reports a number of instances, that number is the number
    of spans.  It reports nothing for the empty query, for which there is
    no span, and when the replacement leaves the content as it is. *)
Theorem C9_counts_agree (s : State) (f : FileEntry) (text : jstring) :
  currentFile s = Some f -> content f = Some text ->
  noNl (searchQuery s) ->
  exists results,
    searchEffect s = Normal (setSearchResults results s)
    /\ (searchQuery s = [] ->
        results = [] /\ Funcional1.handleReplaceAll s = Normal s)
    /\ (searchQuery s <> [] ->
        length results = length (allMatches (map Lit (searchQuery s)) text)
        /\ ((length results = 0
             /\ Funcional1.handleReplaceAll s = Normal (setNotification NoMatches s))
            \/ (0 < length results
                /\ exists newText,
                     newText <> text
                     /\ Funcional1.handleReplaceAll s
                        = Normal (setNotification (Replaced (length results))
                                    (commit newText s)))
            \/ (0 < length results
                /\ stringReplace (map Lit (searchQuery s)) text (replaceQuery s) = text
                /\ Funcional1.handleReplaceAll s = Normal s))).
Proof.
  intros Hf Hc Hnl.
  destruct (searchQuery s) as [|q0 q] eqn:Hq0.
  - exists []. split; [unfold searchEffect; now rewrite Hq0|].
    split; [|intro H; now contradiction H].
    intros _. split; [reflexivity|].
    unfold Funcional1.handleReplaceAll. now rewrite Hf, Hq0.
  - assert (Hq : searchQuery s <> []) by (rewrite Hq0; discriminate).
    rewrite <- Hq0 in *. clear Hq0.
    eexists. split; [apply (searchEffect_findSpec s f text Hf Hc Hq)|].
    split; [intro H; now contradiction Hq|]. intros _.
    assert (Hlen : length (findSpec (searchQuery s) 0 (split nl text))
                   = length (occurrences (searchQuery s) 0 0 text)).
    { rewrite <- (occurrences_join (searchQuery s) (split nl text) 0 0 Hnl Hq).
      now rewrite join_split. }
    split; [now rewrite allMatches_literal, length_map|].
    rewrite Hlen, (handleReplaceAll_spec s f text Hf Hc Hq).
    destruct (Nat.eqb_spec (length (occurrences (searchQuery s) 0 0 text)) 0) as [E|E].
    + now left.
    + right. cbv zeta.
      destruct (streq (stringReplace (map Lit (searchQuery s)) text (replaceQuery s)) text)
        eqn:S.
      * right. apply streq_true_iff in S. repeat split; [lia|exact S].
      * left. split; [lia|]. eexists. split; [|reflexivity].
        intro E'. rewrite E', streq_refl in S. discriminate.
Qed.

Lemma C9_counts_agree_witness :
  exists results,
    searchEffect (searching (str "banana") (str "a") (str "o") 0 0)
    = Normal (setSearchResults results (searching (str "banana") (str "a") (str "o") 0 0))
    /\ length results = length (allMatches (map Lit (str "a")) (str "banana")).
Proof.
  assert (Hn : noNl (searchQuery (searching (str "banana") (str "a") (str "o") 0 0))).
  { intros [H|[]]. discriminate H. }
  destruct (C9_counts_agree (searching (str "banana") (str "a") (str "o") 0 0)
              (mkFile (str "f.txt") (Some (str "banana"))) (str "banana")
              eq_refl eq_refl Hn) as (results & H1 & _ & H2).
  exists results. split; [exact H1|].
  apply (proj1 (H2 ltac:(discriminate))).
Defined.

(** The condition on the line separator is needed: the search works line
    by line and replace-all on the whole content, so that for the line
    separator as a query, which the search field cannot hold, the search
    has no span where replace-all counts one match. *)
Lemma line_separator_query :
  exists s',
    searchEffect (searching a_b [nl] (str "x") 0 0)
    = Normal (setSearchResults [] (searching a_b [nl] (str "x") 0 0))
    /\ Funcional1.handleReplaceAll (searching a_b [nl] (str "x") 0 0) = Normal s'
    /\ notification s' = Replaced 1
    /\ liveContent s' = Some (Some (str "axb")).
Proof.
  eexists. split; [vm_compute; reflexivity|].
  split; [vm_compute; reflexivity|]. split; reflexivity.
Qed.

(* ------------------------------------------------------------------ *)
(** ** The history across a change of the active document *)

(** The history effect, when it runs, resets the history to the content of
    the active document. *)
Lemma historyEffect_resets (s : State) (f : FileEntry) :
  currentFile s = Some f ->
  history (Funcional1.historyEffect s) = [content f]
  /\ historyIndex (Funcional1.historyEffect s) = 0%Z.
Proof. intro H. unfold Funcional1.historyEffect. now rewrite H. Qed.

(** C8 fails on the code: two documents of the same name are loaded, the
    first one is selected and edited, then closed.  Closing it leaves both
    dependencies of the history effect (index 0, name) as they were, so the
    effect does not run: the second document becomes active with the
    history of the closed one, and undo then writes the closed document's
    text into it. *)
Theorem C8_history_kept_on_close :
  exists s0 s1 s2 s3 s4 s5,
    Funcional1.loadDocument (str "a.txt") (str "x") initialState = Normal s0
    /\ Funcional1.loadDocument (str "a.txt") (str "y") s0 = Normal s1
    /\ liveContent s1 = Some (Some (str "y"))
    /\ history s1 = [Some (str "y")] /\ historyIndex s1 = 0%Z
    /\ selectTab 0 s1 = Normal s2
    /\ liveContent s2 = Some (Some (str "x"))
    /\ history s2 = [Some (str "x")] /\ historyIndex s2 = 0%Z
    /\ Funcional1.keyDown (plainKey "z") s2 = Normal s3
    /\ liveContent s3 = Some (Some (str "zx"))
    /\ closeTab 0 s3 = Normal s4
    /\ liveContent s4 = Some (Some (str "y"))
    /\ history s4 = [Some (str "x"); Some (str "zx")]
    /\ historyIndex s4 = 1%Z
    /\ ~ historyInv s4
    /\ Funcional1.keyDown (ctrlPlus "z") s4 = Normal s5
    /\ s5 <> s4
    /\ liveContent s5 = Some (Some (str "x")).
Proof.
  do 6 eexists.
  split; [vm_compute; reflexivity|]. split; [vm_compute; reflexivity|].
  split; [reflexivity|]. split; [reflexivity|]. split; [reflexivity|].
  split; [vm_compute; reflexivity|].
  split; [reflexivity|]. split; [reflexivity|]. split; [reflexivity|].
  split; [vm_compute; reflexivity|]. split; [reflexivity|].
  split; [vm_compute; reflexivity|]. split; [reflexivity|].
  split; [reflexivity|]. split; [reflexivity|].
  split.
  { intros (f & Hf & _ & Hget). vm_compute in Hf. injection Hf as <-.
    vm_compute in Hget. discriminate Hget. }
  split; [vm_compute; reflexivity|]. split; [discriminate|reflexivity].
Qed.

(* ------------------------------------------------------------------ *)
(** ** The history invariant along the events of one document *)

Lemma historyInv_commit (c : jstring) (s : State) :
  historyInv s -> historyInv (commit c s).
Proof.
  intros (f & Hf & Hr & Hlive).
  exists (mkFile (name f) (Some c)). split; [now apply currentFile_commit|].
  destruct (strictEq (array_get (history s) (historyIndex s)) (Some c)) eqn:E.
  - apply strictEq_true_iff in E.
    destruct (commit_same c s f Hf E) as [-> ->]. now split.
  - apply strictEq_false_iff in E.
    destruct (commit_new c s f Hf Hr E) as (_ & Hi & Hlast & Hget).
    split; [lia|exact Hget].
Qed.

Lemma historyInv_historyEffect (s : State) (f : FileEntry) :
  currentFile s = Some f -> historyInv (Funcional1.historyEffect s).
Proof.
  intro Hf. exists f. unfold Funcional1.historyEffect. rewrite Hf.
  repeat split; simpl; try lia. exact Hf.
Qed.

(** Every key event keeps the history invariant. *)
Lemma historyInv_handleKeyDown (e : KeyEvent) (s s' : State) :
  historyInv s -> Funcional1.handleKeyDown e s = Normal s' -> historyInv s'.
Proof.
  intros Hinv. pose proof Hinv as (f & Hf & Hr & Hlive).
  assert (Hlt : currentFileIndex s < length (openedFiles s))
    by (now apply currentFile_lt with f).
  unfold Funcional1.handleKeyDown. rewrite Hf.
  destruct (accelerator e "s"); [intros [= <-]; exact Hinv|].
  destruct (accelerator e "z").
  { destruct (Z.ltb_spec 0 (historyIndex s)); intros [= <-]; [|exact Hinv].
    unfold Funcional1.updateContentAndHistory. rewrite Hf. simpl.
    eexists. split; [unfold currentFile; simpl; now apply nth_error_array_set_eq|].
    simpl. split; [lia|reflexivity]. }
  destruct (accelerator e "y").
  { destruct (Z.ltb_spec (historyIndex s) (Z.of_nat (length (history s)) - 1));
      intros [= <-]; [|exact Hinv].
    unfold Funcional1.updateContentAndHistory. rewrite Hf. simpl.
    eexists. split; [unfold currentFile; simpl; now apply nth_error_array_set_eq|].
    simpl. split; [lia|reflexivity]. }
  destruct (content f) as [text|]; [|discriminate]. simpl.
  destruct (keySwitch _ _ _ _ _) as [r| |]; [|discriminate|discriminate]. simpl.
  intros [= <-].
  destruct (sw_contentChanged r); [|exact Hinv].
  exact (historyInv_commit (join nl (sw_lines r)) s Hinv).
Qed.

(** Replace-all keeps the history invariant. *)
Lemma historyInv_handleReplaceAll (s s' : State) :
  historyInv s -> Funcional1.handleReplaceAll s = Normal s' -> historyInv s'.
Proof.
  intros Hinv. unfold Funcional1.handleReplaceAll.
  destruct (currentFile s) as [f|]; [|now intros [= <-]].
  destruct (searchQuery s) as [|q0 q]; [now intros [= <-]|].
  destruct (RegExp (escapeRegExp (q0 :: q))) as [p|x|]; simpl;
    [|now intros [= <-]|discriminate].
  destruct (content f) as [text|]; simpl; [|now intros [= <-]].
  destruct (stringMatch p text) as [ms|]; [|now intros [= <-]].
  destruct (length ms =? 0); [now intros [= <-]|].
  destruct (negb _); intros [= <-]; [|exact Hinv].
  exact (historyInv_commit _ s Hinv).
Qed.

(* ------------------------------------------------------------------ *)
(** ** Splitting and joining on any separator *)

Lemma split_sep_nonempty (sep : ascii) (s : jstring) : split sep s <> [].
Proof.
  destruct s as [|c s]; simpl; [discriminate|].
  destruct (Ascii.eqb c sep); [discriminate|].
  destruct (split sep s); discriminate.
Qed.

Lemma split_sep_free (sep : ascii) (s : jstring) :
  Forall (fun l => ~ In sep l) (split sep s).
Proof.
  induction s as [|c s IH]; simpl.
  - constructor; [intros []|constructor].
  - destruct (Ascii.eqb_spec c sep) as [->|Hc].
    + constructor; [intros []|exact IH].
    + destruct (split sep s) as [|l ls]; inversion IH; subst.
      * constructor; [|constructor]. intros [H|[]]. congruence.
      * constructor; [|assumption]. intros [H|H]; [congruence|contradiction].
Qed.

Lemma split_sep_app (sep : ascii) (l r : jstring) :
  ~ In sep l -> split sep (l ++ sep :: r) = l :: split sep r.
Proof.
  induction l as [|c l IH]; intro H; simpl.
  - now rewrite Ascii.eqb_refl.
  - destruct (Ascii.eqb_spec c sep) as [->|_]; [exfalso; apply H; now left|].
    rewrite IH; [reflexivity|]. intro Hin. apply H. now right.
Qed.

Lemma split_sep_line (sep : ascii) (l : jstring) : ~ In sep l -> split sep l = [l].
Proof.
  induction l as [|c l IH]; intro H; simpl; [reflexivity|].
  destruct (Ascii.eqb_spec c sep) as [->|_]; [exfalso; apply H; now left|].
  rewrite IH; [reflexivity|]. intro Hin. apply H. now right.
Qed.

Lemma join_cons2 (sep : ascii) (l l2 : jstring) (ls : list jstring) :
  join sep (l :: l2 :: ls) = l ++ sep :: join sep (l2 :: ls).
Proof. reflexivity. Qed.

Lemma join_split_sep (sep : ascii) (s : jstring) : join sep (split sep s) = s.
Proof.
  induction s as [|c s IH]; [reflexivity|]. cbn [split].
  pose proof (split_sep_nonempty sep s) as Hne.
  destruct (Ascii.eqb_spec c sep) as [->|Hc];
    destruct (split sep s) as [|l ls] eqn:E; try contradiction.
  - rewrite join_cons2. cbn [app]. now rewrite IH.
  - destruct ls as [|l2 ls].
    + cbn [join] in *. now rewrite IH.
    + rewrite join_cons2 in *. cbn [app]. now rewrite IH.
Qed.

Lemma split_join_sep (sep : ascii) (ls : list jstring) :
  ls <> [] -> Forall (fun l => ~ In sep l) ls -> split sep (join sep ls) = ls.
Proof.
  induction ls as [|l ls IH]; intros Hne Hall; [contradiction|].
  inversion Hall as [|? ? Hl Hls]; subst.
  destruct ls as [|l2 ls].
  - simpl. now apply split_sep_line.
  - rewrite join_cons2, split_sep_app by assumption.
    f_equal. apply IH; [discriminate|assumption].
Qed.

Lemma length_split (sep : ascii) (s : jstring) :
  length (split sep s) = S (count_occ ascii_dec s sep).
Proof.
  induction s as [|c s IH]; simpl; [reflexivity|].
  pose proof (split_sep_nonempty sep s) as Hne.
  destruct (Ascii.eqb_spec c sep) as [->|Hc].
  - destruct (ascii_dec sep sep); [|contradiction]. simpl. now rewrite IH.
  - destruct (ascii_dec c sep); [contradiction|].
    destruct (split sep s) as [|l ls]; [contradiction|]. exact IH.
Qed.

(** X1: [split] and [join] on one separator are inverse of each other: a
    text is the join of its pieces, the pieces are never none and hold no
    separator, and a non-empty list of separator-free pieces is the split
    of its join. *)
Theorem split_join_roundtrip (sep : ascii) :
  (forall s, join sep (split sep s) = s
             /\ split sep s <> []
             /\ Forall (fun l => ~ In sep l) (split sep s)
             /\ length (split sep s) = S (count_occ ascii_dec s sep))
  /\ (forall ls, ls <> [] -> Forall (fun l => ~ In sep l) ls ->
                 split sep (join sep ls) = ls).
Proof.
  split.
  - intro s. split; [apply join_split_sep|].
    split; [apply split_sep_nonempty|]. split; [apply split_sep_free|apply length_split].
  - apply split_join_sep.
Qed.

Lemma split_join_roundtrip_witness :
  split nl (join nl [str "ab"; []; str "cd"]) = [str "ab"; []; str "cd"].
Proof.
  apply (proj2 (split_join_roundtrip nl)); [discriminate|].
  repeat constructor; vm_compute; intuition discriminate.
Defined.

(* ------------------------------------------------------------------ *)
(** ** getLetterStartIndex *)

(** X2: [getLetterStartIndex] is 0 on a line with fewer than three
    separators; on any other line it is the column just after the third
    separator; it never exceeds the length of the line. *)
Theorem getLetterStartIndex_spec (l : jstring) (sep : ascii) :
  (count_occ ascii_dec l sep < 3 -> getLetterStartIndex l sep = 0)
  /\ (3 <= count_occ ascii_dec l sep ->
      exists a b c rest,
        l = a ++ sep :: b ++ sep :: c ++ sep :: rest
        /\ ~ In sep a /\ ~ In sep b /\ ~ In sep c
        /\ getLetterStartIndex l sep = length a + length b + length c + 3)
  /\ getLetterStartIndex l sep <= length l.
Proof.
  assert (H2 : 3 <= count_occ ascii_dec l sep ->
      exists a b c rest,
        l = a ++ sep :: b ++ sep :: c ++ sep :: rest
        /\ ~ In sep a /\ ~ In sep b /\ ~ In sep c
        /\ getLetterStartIndex l sep = length a + length b + length c + 3).
  { intro H. unfold getLetterStartIndex.
    pose proof (length_split sep l) as Hlen.
    pose proof (join_split_sep sep l) as Hj.
    pose proof (split_sep_free sep l) as Hf.
    destruct (split sep l) as [|a [|b [|c [|d r]]]]; simpl in Hlen; try lia.
    exists a, b, c, (join sep (d :: r)).
    pose proof (Forall_inv Hf) as Ha.
    pose proof (Forall_inv (Forall_inv_tail Hf)) as Hb.
    pose proof (Forall_inv (Forall_inv_tail (Forall_inv_tail Hf))) as Hc.
    cbv beta in Ha, Hb, Hc.
    rewrite !join_cons2 in Hj. split; [now symmetry|]. repeat split; try assumption.
    destruct (Nat.ltb_spec 3 (length (a :: b :: c :: d :: r))); [|simpl in *; lia].
    cbn [firstn]. rewrite !join_cons2. cbn [join].
    rewrite !length_app. cbn [length]. rewrite !length_app. cbn [length]. lia. }
  split; [|split; [exact H2|]].
  - intro H. unfold getLetterStartIndex. rewrite length_split.
    destruct (Nat.ltb_spec 3 (S (count_occ ascii_dec l sep))); [lia|reflexivity].
  - destruct (Nat.lt_ge_cases (count_occ ascii_dec l sep) 3) as [H|H].
    + unfold getLetterStartIndex. rewrite length_split.
      destruct (Nat.ltb_spec 3 (S (count_occ ascii_dec l sep))); lia.
    + destruct (H2 H) as (a & b & c & rest & -> & _ & _ & _ & ->).
      rewrite !length_app. cbn [length]. rewrite !length_app. cbn [length].
      rewrite !length_app. cbn [length]. lia.
Qed.

Lemma getLetterStartIndex_spec_witness :
  getLetterStartIndex (str "12;ab;x;hello") ";"%char = 8
  /\ getLetterStartIndex (str "a;b;c") ";"%char = 0.
Proof.
  split.
  - destruct (proj1 (proj2 (getLetterStartIndex_spec (str "12;ab;x;hello") ";"%char)))
      as (a & b & c & rest & _ & _ & _ & _ & _); [vm_compute; lia|reflexivity].
  - apply (proj1 (getLetterStartIndex_spec (str "a;b;c") ";"%char)). vm_compute. lia.
Defined.

(* ------------------------------------------------------------------ *)
(** ** Single edits of the key handler *)

Lemma array_set_middle {A} (pre post : list A) (x y : A) :
  array_set (length pre) y (pre ++ x :: post) = pre ++ y :: post.
Proof. induction pre as [|a pre IH]; simpl; [reflexivity|now rewrite IH]. Qed.

Lemma nth_error_middle {A} (pre post : list A) (x : A) :
  nth_error (pre ++ x :: post) (length pre) = Some x.
Proof. induction pre as [|a pre IH]; simpl; auto. Qed.

Lemma splice_insert_middle {A} (pre post : list A) (x a : A) :
  splice_insert (length pre + 1) a (pre ++ x :: post) = pre ++ x :: a :: post.
Proof.
  unfold splice_insert. induction pre as [|b pre IH]; simpl; [reflexivity|].
  now rewrite IH.
Qed.

Lemma splice_remove_middle {A} (pre post : list A) (x a : A) :
  splice_remove (length pre + 1) (pre ++ x :: a :: post) = pre ++ x :: post.
Proof.
  unfold splice_remove. induction pre as [|b pre IH]; [reflexivity|].
  cbn [length Nat.add firstn skipn app]. f_equal. exact IH.
Qed.

Lemma nth_error_pre_post {A} (l : list A) (n : nat) (x : A) :
  nth_error l n = Some x -> exists pre post, l = pre ++ x :: post /\ length pre = n.
Proof.
  intro H. apply nth_error_split in H as (pre & post & -> & <-). now exists pre, post.
Qed.

Lemma keyIs_single (c : ascii) (ctrl meta : bool) : unnamedKey (mkKey [c] ctrl meta).
Proof.
  intros k H. unfold namedKeys in H. simpl in H.
  repeat (destruct H as [<-|H]; [unfold keyIs; simpl; apply andb_false_r|]).
  contradiction.
Qed.

(** The switch on a key without a case of its own. *)
Lemma keySwitch_default (ins : KeyEvent -> bool) (e : KeyEvent)
    (lines : list jstring) (ln ch : nat) :
  unnamedKey e ->
  keySwitch ins e lines ln ch =
  if ins e then
    let* l := stringOf (nth_error lines ln) in
    Normal (mkSwitch (array_set ln (slice_to ch l ++ key e ++ slice_from ch l) lines)
                     ln (ch + 1) true)
  else Normal (mkSwitch lines ln ch false).
Proof.
  intro H. unfold keySwitch.
  rewrite (H "ArrowUp"), (H "ArrowDown"), (H "ArrowLeft"), (H "ArrowRight"),
    (H "Home"), (H "End"), (H "Backspace"), (H "Enter");
    unfold namedKeys; simpl; tauto.
Qed.

Lemma keySwitch_backspace (ins : KeyEvent -> bool) (ctrl meta : bool)
    (lines : list jstring) (ln ch : nat) :
  keySwitch ins (mkKey (str "Backspace") ctrl meta) lines ln ch =
  if 0 <? ch then
    let* l := stringOf (nth_error lines ln) in
    Normal (mkSwitch (array_set ln (slice_to (ch - 1) l ++ slice_from ch l) lines)
                     ln (ch - 1) true)
  else if 0 <? ln then
    let* prev := stringOf (nth_error lines (ln - 1)) in
    let cur := match nth_error lines ln with
               | Some l => l
               | None => str "undefined"
               end in
    Normal (mkSwitch (splice_remove ln (array_set (ln - 1) (prev ++ cur) lines))
                     (ln - 1) (length prev) true)
  else Normal (mkSwitch lines ln ch true).
Proof. unfold keySwitch. rewrite !keyIs_key. eval_keys. reflexivity. Qed.

Lemma keySwitch_enter (ins : KeyEvent -> bool) (ctrl meta : bool)
    (lines : list jstring) (ln ch : nat) :
  keySwitch ins (mkKey (str "Enter") ctrl meta) lines ln ch =
  let* l := stringOf (nth_error lines ln) in
  Normal (mkSwitch (splice_insert (ln + 1) (slice_from ch l)
                      (array_set ln (slice_to ch l) lines))
                   (ln + 1) 0 true).
Proof. unfold keySwitch. rewrite !keyIs_key. eval_keys. reflexivity. Qed.

Lemma accelerator_named (k k' : string) (ctrl meta : bool) :
  streq (str k) (str k') = false -> accelerator (mkKey (str k) ctrl meta) k' = false.
Proof. intro H. rewrite accelerator_key, H. apply andb_false_r. Qed.

Lemma openedFiles_commit (c : jstring) (s : State) (f : FileEntry) :
  currentFile s = Some f ->
  openedFiles (commit c s)
  = array_set (currentFileIndex s) (mkFile (name f) (Some c)) (openedFiles s).
Proof.
  intro Hf. unfold commit, Funcional1.updateContentAndHistory. rewrite Hf.
  now destruct (_ && _).
Qed.

Lemma currentFileIndex_commit (c : jstring) (s : State) :
  currentFileIndex (commit c s) = currentFileIndex s.
Proof.
  unfold commit, Funcional1.updateContentAndHistory.
  destruct (currentFile s); [|reflexivity]. now destruct (_ && _).
Qed.

(** One editing key event, from the result of its switch. *)
Lemma edit_step (s : State) (f : FileEntry) (text : jstring) (e : KeyEvent) (r : SwitchResult) :
  currentFile s = Some f -> content f = Some text ->
  accelerator e "s" = false -> accelerator e "z" = false -> accelerator e "y" = false ->
  keySwitch Funcional1.insertable e (split nl text)
            (line (cursorPosition s)) (char (cursorPosition s)) = Normal r ->
  sw_contentChanged r = true ->
  exists s1,
    Funcional1.handleKeyDown e s = Normal s1
    /\ s1 = setCursorPosition (mkCursor (sw_line r) (sw_char r)) (commit (join nl (sw_lines r)) s)
    /\ currentFile s1 = Some (mkFile (name f) (Some (join nl (sw_lines r))))
    /\ cursorPosition s1 = mkCursor (sw_line r) (sw_char r)
    /\ openedFiles s1
       = array_set (currentFileIndex s) (mkFile (name f) (Some (join nl (sw_lines r))))
                   (openedFiles s).
Proof.
  intros Hf Hc Hs Hz Hy Hk Hch.
  eexists. split.
  - rewrite (handleKeyDown_switch s f text e Hf Hc Hs Hz Hy), Hk. simpl. rewrite Hch.
    reflexivity.
  - split; [reflexivity|]. split; [|split; [reflexivity|]].
    + change (currentFile (setCursorPosition ?c ?t)) with (currentFile t).
      now apply currentFile_commit.
    + change (openedFiles (setCursorPosition ?c ?t)) with (openedFiles t).
      now apply openedFiles_commit.
Qed.

Lemma cursorOk_inv (s : State) :
  cursorOk s ->
  exists f text pre l post,
    currentFile s = Some f /\ content f = Some text
    /\ split nl text = pre ++ l :: post
    /\ length pre = line (cursorPosition s)
    /\ char (cursorPosition s) <= length l.
Proof.
  intros (lines & Hl & l & Hn & Hc).
  destruct (currentLines_inv s lines Hl) as (f & text & Hf & Hcf & ->).
  destruct (nth_error_pre_post _ _ _ Hn) as (pre & post & E & Hp).
  now exists f, text, pre, l, post.
Qed.

Lemma noNl_middle (pre post : list jstring) (l : jstring) :
  Forall noNl (pre ++ l :: post) -> Forall noNl pre /\ noNl l /\ Forall noNl post.
Proof.
  intro H. apply Forall_app in H as [H1 H2]. inversion H2; subst. now repeat split.
Qed.

Lemma Forall_middle (pre post : list jstring) (l : jstring) :
  Forall noNl pre -> noNl l -> Forall noNl post -> Forall noNl (pre ++ l :: post).
Proof. intros. apply Forall_app. split; [assumption|now constructor]. Qed.

Lemma restore_files (s : State) (f : FileEntry) (text : jstring) (g : FileEntry) :
  currentFile s = Some f -> content f = Some text ->
  array_set (currentFileIndex s) (mkFile (name f) (Some text))
    (array_set (currentFileIndex s) g (openedFiles s)) = openedFiles s.
Proof.
  intros Hf Hc. rewrite array_set_twice. apply array_set_same.
  rewrite <- Hc, file_eta. exact Hf.
Qed.

Lemma typed_line (l : jstring) (c : ascii) (ch : nat) :
  ch <= length l ->
  slice_to (ch + 1 - 1) (slice_to ch l ++ [c] ++ slice_from ch l)
  ++ slice_from (ch + 1) (slice_to ch l ++ [c] ++ slice_from ch l) = l.
Proof.
  intro H. unfold slice_to, slice_from.
  assert (Hl : length (firstn ch l) = ch) by (rewrite length_firstn; lia).
  replace (ch + 1 - 1) with ch by lia.
  rewrite firstn_app, Hl, Nat.sub_diag, firstn_O, app_nil_r.
  rewrite firstn_all2 by lia.
  rewrite skipn_app, Hl, skipn_all2 by lia.
  replace (ch + 1 - ch) with 1 by lia. cbn [app skipn].
  apply firstn_skipn.
Qed.

(** X3: typing a character (other than the line separator) at an in-range
    cursor and pressing Backspace gives back the documents and the cursor
    as they were; in between the cursor is one column to the right. *)
Theorem insert_then_backspace (s : State) (c : ascii) :
  cursorOk s -> c <> nl ->
  exists s1 s2,
    Funcional1.handleKeyDown (mkKey [c] false false) s = Normal s1
    /\ cursorPosition s1 = mkCursor (line (cursorPosition s)) (char (cursorPosition s) + 1)
    /\ liveContent s1 <> liveContent s
    /\ Funcional1.handleKeyDown (plainKey "Backspace") s1 = Normal s2
    /\ openedFiles s2 = openedFiles s
    /\ cursorPosition s2 = cursorPosition s.
Proof.
  intros Hok Hc.
  destruct (cursorOk_inv s Hok) as (f & text & pre & l & post & Hf & Hcf & Hsp & Hln & Hch).
  pose proof (split_noNl text) as Hall. rewrite Hsp in Hall.
  destruct (noNl_middle _ _ _ Hall) as (Hpre & Hl & Hpost).
  set (ch := char (cursorPosition s)) in *.
  set (l1 := slice_to ch l ++ [c] ++ slice_from ch l).
  assert (Hl1 : noNl l1).
  { apply noNl_app; [now apply noNl_firstn|].
    apply noNl_app; [|now apply noNl_skipn]. intros [H|[]]. congruence. }
  assert (Hk1 : keySwitch Funcional1.insertable (mkKey [c] false false) (split nl text)
                  (line (cursorPosition s)) ch
                = Normal (mkSwitch (pre ++ l1 :: post) (length pre) (ch + 1) true)).
  { rewrite keySwitch_default by apply keyIs_single.
    change (Funcional1.insertable (mkKey [c] false false)) with true. cbv iota.
    rewrite Hsp, <- Hln, nth_error_middle. cbn [stringOf bind key].
    now rewrite array_set_middle. }
  destruct (edit_step s f text (mkKey [c] false false) _ Hf Hcf
              eq_refl eq_refl eq_refl Hk1 eq_refl)
    as (s1 & Hs1 & Es1 & Hf1 & Hc1 & Ho1).
  cbn [sw_lines sw_line sw_char] in Es1, Hf1, Hc1, Ho1.
  assert (Hsp1 : split nl (join nl (pre ++ l1 :: post)) = pre ++ l1 :: post).
  { apply split_join; [now destruct pre|now apply Forall_middle]. }
  assert (Hk2 : keySwitch Funcional1.insertable (plainKey "Backspace")
                  (split nl (join nl (pre ++ l1 :: post)))
                  (line (cursorPosition s1)) (char (cursorPosition s1))
                = Normal (mkSwitch (pre ++ l :: post) (length pre) (ch + 1 - 1) true)).
  { unfold plainKey. rewrite keySwitch_backspace, Hc1, Hsp1. cbn [line char].
    destruct (Nat.ltb_spec 0 (ch + 1)); [|lia].
    rewrite nth_error_middle. cbn [stringOf bind].
    rewrite array_set_middle. unfold l1. now rewrite typed_line. }
  destruct (edit_step s1 _ _ _ _ Hf1 eq_refl
              (accelerator_named "Backspace" "s" false false eq_refl)
              (accelerator_named "Backspace" "z" false false eq_refl)
              (accelerator_named "Backspace" "y" false false eq_refl) Hk2 eq_refl)
    as (s2 & Hs2 & _ & _ & Hc2 & Ho2).
  cbn [sw_lines sw_line sw_char name] in Hc2, Ho2.
  exists s1, s2. split; [exact Hs1|]. split; [now rewrite Hc1, Hln|].
  split.
  { unfold liveContent. rewrite Hf1, Hf. cbn [option_map content]. rewrite Hcf.
    intros [= E]. apply (f_equal (split nl)) in E. rewrite Hsp1, Hsp in E.
    apply app_inv_head in E. injection E as E.
    apply (f_equal (@length ascii)) in E. unfold l1, slice_to, slice_from in E.
    rewrite !length_app, length_firstn, length_skipn in E. simpl in E. lia. }
  split; [exact Hs2|]. split.
  - rewrite Ho2, Ho1.
    replace (currentFileIndex s1) with (currentFileIndex s)
      by (rewrite Es1; symmetry; apply currentFileIndex_commit).
    rewrite <- Hsp, join_split. now apply restore_files.
  - rewrite Hc2, Hln. replace (ch + 1 - 1) with ch by lia. apply cursor_eta.
Qed.

Lemma insert_then_backspace_witness :
  exists s1 s2,
    Funcional1.handleKeyDown (mkKey ["x"%char] false false) (editing ab_cd 0 2) = Normal s1
    /\ Funcional1.handleKeyDown (plainKey "Backspace") s1 = Normal s2
    /\ openedFiles s2 = openedFiles (editing ab_cd 0 2).
Proof.
  assert (H : cursorOk (editing ab_cd 0 2)).
  { exists [str "ab"; str "cd"]. split; [reflexivity|].
    exists (str "ab"). split; [reflexivity|vm_compute; lia]. }
  destruct (insert_then_backspace (editing ab_cd 0 2) "x"%char H ltac:(discriminate))
    as (s1 & s2 & H1 & _ & _ & H2 & H3 & _).
  now exists s1, s2.
Defined.

Lemma nth_error_middle_next {A} (pre post : list A) (x a : A) :
  nth_error (pre ++ x :: a :: post) (length pre + 1) = Some a.
Proof. induction pre as [|b pre IH]; simpl; auto. Qed.

(** X4: Enter at an in-range cursor followed by Backspace gives back the
    documents and the cursor as they were; in between the cursor is at the
    start of the new next line. *)
Theorem enter_then_backspace (s : State) :
  cursorOk s ->
  exists s1 s2,
    Funcional1.handleKeyDown (plainKey "Enter") s = Normal s1
    /\ cursorPosition s1 = mkCursor (line (cursorPosition s) + 1) 0
    /\ option_map (@length jstring) (currentLines s1)
       = option_map (fun ls => length ls + 1) (currentLines s)
    /\ Funcional1.handleKeyDown (plainKey "Backspace") s1 = Normal s2
    /\ openedFiles s2 = openedFiles s
    /\ cursorPosition s2 = cursorPosition s.
Proof.
  intros Hok.
  destruct (cursorOk_inv s Hok) as (f & text & pre & l & post & Hf & Hcf & Hsp & Hln & Hch).
  pose proof (split_noNl text) as Hall. rewrite Hsp in Hall.
  destruct (noNl_middle _ _ _ Hall) as (Hpre & Hl & Hpost).
  set (ch := char (cursorPosition s)) in *.
  set (lines1 := pre ++ slice_to ch l :: slice_from ch l :: post).
  assert (Hk1 : keySwitch Funcional1.insertable (plainKey "Enter") (split nl text)
                  (line (cursorPosition s)) ch
                = Normal (mkSwitch lines1 (length pre + 1) 0 true)).
  { unfold plainKey. rewrite keySwitch_enter, Hsp, <- Hln, nth_error_middle.
    cbn [stringOf bind]. now rewrite array_set_middle, splice_insert_middle. }
  destruct (edit_step s f text (plainKey "Enter") _ Hf Hcf
              (accelerator_named "Enter" "s" false false eq_refl)
              (accelerator_named "Enter" "z" false false eq_refl)
              (accelerator_named "Enter" "y" false false eq_refl) Hk1 eq_refl)
    as (s1 & Hs1 & Es1 & Hf1 & Hc1 & Ho1).
  cbn [sw_lines sw_line sw_char] in Es1, Hf1, Hc1, Ho1.
  assert (Hsp1 : split nl (join nl lines1) = lines1).
  { apply split_join; [unfold lines1; destruct pre; discriminate|].
    apply Forall_middle; [assumption|now apply noNl_firstn|].
    constructor; [now apply noNl_skipn|assumption]. }
  assert (Hk2 : keySwitch Funcional1.insertable (plainKey "Backspace")
                  (split nl (join nl lines1))
                  (line (cursorPosition s1)) (char (cursorPosition s1))
                = Normal (mkSwitch (pre ++ l :: post) (length pre + 1 - 1)
                            (length (slice_to ch l)) true)).
  { unfold plainKey. rewrite keySwitch_backspace, Hc1, Hsp1. cbn [line char].
    change (0 <? 0) with false. cbv iota.
    destruct (Nat.ltb_spec 0 (length pre + 1)); [|lia].
    replace (length pre + 1 - 1) with (length pre) by lia.
    unfold lines1. rewrite nth_error_middle, nth_error_middle_next. cbn [stringOf bind].
    rewrite array_set_middle, splice_remove_middle.
    unfold slice_to, slice_from. now rewrite firstn_skipn. }
  destruct (edit_step s1 _ _ (plainKey "Backspace") _ Hf1 eq_refl
              (accelerator_named "Backspace" "s" false false eq_refl)
              (accelerator_named "Backspace" "z" false false eq_refl)
              (accelerator_named "Backspace" "y" false false eq_refl) Hk2 eq_refl)
    as (s2 & Hs2 & _ & _ & Hc2 & Ho2).
  cbn [sw_lines sw_line sw_char name] in Hc2, Ho2.
  exists s1, s2. split; [exact Hs1|]. split; [now rewrite Hc1, Hln|].
  split.
  { unfold currentLines. rewrite Hf1, Hf, Hcf. cbn [content option_map].
    rewrite Hsp1, Hsp. unfold lines1. rewrite !length_app. cbn [length]. f_equal. lia. }
  split; [exact Hs2|]. split.
  - rewrite Ho2, Ho1.
    replace (currentFileIndex s1) with (currentFileIndex s)
      by (rewrite Es1; symmetry; apply currentFileIndex_commit).
    rewrite <- Hsp, join_split. now apply restore_files.
  - rewrite Hc2, Hln. unfold slice_to. rewrite length_firstn.
    replace (line (cursorPosition s) + 1 - 1) with (line (cursorPosition s)) by lia.
    replace (Nat.min ch (length l)) with ch by lia. apply cursor_eta.
Qed.

Lemma enter_then_backspace_witness :
  exists s1 s2,
    Funcional1.handleKeyDown (plainKey "Enter") (editing ab_cd 1 1) = Normal s1
    /\ cursorPosition s1 = mkCursor 2 0
    /\ Funcional1.handleKeyDown (plainKey "Backspace") s1 = Normal s2
    /\ openedFiles s2 = openedFiles (editing ab_cd 1 1).
Proof.
  assert (H : cursorOk (editing ab_cd 1 1)).
  { exists [str "ab"; str "cd"]. split; [reflexivity|].
    exists (str "cd"). split; [reflexivity|vm_compute; lia]. }
  destruct (enter_then_backspace (editing ab_cd 1 1) H)
    as (s1 & s2 & H1 & H2 & _ & H3 & H4 & _).
  now exists s1, s2.
Defined.

(** X5: with the history pointing at the live content, Backspace at the
    start of the document changes nothing at all: the handler marks the
    content as changed and commits the rejoined lines, which are the
    content itself, so no history entry is made. *)
Theorem backspace_at_origin (s : State) (ctrl meta : bool) :
  historyInv s ->
  (exists lines, currentLines s = Some lines) ->
  cursorPosition s = mkCursor 0 0 ->
  Funcional1.handleKeyDown (mkKey (str "Backspace") ctrl meta) s = Normal s.
Proof.
  intros (f0 & Hf0 & _ & Hlive) (lines & Hl) Hcur.
  destruct (currentLines_inv s lines Hl) as (f & text & Hf & Hc & ->).
  assert (f0 = f) by congruence. subst f0.
  rewrite (handleKeyDown_switch s f text) by
    (assumption || (apply accelerator_named; reflexivity)).
  rewrite keySwitch_backspace, Hcur. cbn [line char Nat.ltb Nat.leb bind].
  cbn [sw_contentChanged sw_lines sw_line sw_char]. rewrite join_split.
  unfold Funcional1.updateContentAndHistory. rewrite Hf, Hlive, Hc, strictEq_refl.
  cbn [negb andb]. rewrite <- Hc, file_eta, (array_set_same _ _ _ Hf).
  rewrite <- Hcur. f_equal. now destruct s.
Qed.

Lemma backspace_at_origin_witness :
  Funcional1.handleKeyDown (mkKey (str "Backspace") false false) (editing ab_cd 0 0)
  = Normal (editing ab_cd 0 0).
Proof.
  apply backspace_at_origin; [|now exists [str "ab"; str "cd"]|reflexivity].
  exists (mkFile (str "f.txt") (Some ab_cd)).
  split; [reflexivity|]. split; [simpl; lia|reflexivity].
Defined.

(* ------------------------------------------------------------------ *)
(** ** Keys that are not handled, and the two key handlers compared *)

Lemma keyIs_length (e : KeyEvent) (k : string) :
  keyIs e k = true -> length (key e) = length (str k).
Proof. unfold keyIs. intro H. apply streq_true_iff in H. now rewrite H. Qed.

Lemma accelerator_long_key (e : KeyEvent) (k : string) :
  length (key e) <> 1 -> length (str k) = 1 -> accelerator e k = false.
Proof.
  intros Hn Hk. unfold accelerator. destruct (keyIs e k) eqn:E; [|apply andb_false_r].
  apply keyIs_length in E. congruence.
Qed.

Lemma keySwitch_ext (ins ins' : KeyEvent -> bool) (e e' : KeyEvent)
    (lines : list jstring) (ln ch : nat) :
  key e = key e' -> ins e = ins' e' ->
  keySwitch ins e lines ln ch = keySwitch ins' e' lines ln ch.
Proof. intros Hk Hi. unfold keySwitch, keyIs. now rewrite Hk, Hi. Qed.

(** The handler of App.jsx on one event and the handler of funcional1.jsx
    on another do the same when the events have the same key, the same
    accelerator tests and the same test of the default case. *)
Lemma handleKeyDown_App_eq (e e' : KeyEvent) (s : State) :
  key e = key e' ->
  modifierHeld e = modifierHeld e' \/
    (keyIs e "s" = false /\ keyIs e "z" = false /\ keyIs e "y" = false) ->
  AppJsx.insertable e = Funcional1.insertable e' ->
  AppJsx.handleKeyDown e s = Funcional1.handleKeyDown e' s.
Proof.
  intros Hk Hm Hi.
  assert (Hacc : forall k, k = "s" \/ k = "z" \/ k = "y" ->
                           accelerator e k = accelerator e' k).
  { intros k Hkk. unfold accelerator, keyIs. rewrite <- Hk.
    destruct Hm as [Hm|(H1 & H2 & H3)].
    - unfold modifierHeld in Hm. now rewrite Hm.
    - unfold keyIs in H1, H2, H3.
      destruct Hkk as [-> | [-> | ->]]; rewrite ?H1, ?H2, ?H3, !andb_false_r; reflexivity. }
  unfold AppJsx.handleKeyDown, Funcional1.handleKeyDown.
  destruct (currentFile s) as [f|] eqn:Hf; [|reflexivity].
  rewrite <- !Hacc by tauto.
  unfold Funcional1.updateContentAndHistory, AppJsx.updateContentAndHistory. rewrite Hf.
  destruct (accelerator e "s"); [reflexivity|].
  destruct (accelerator e "z"); [reflexivity|].
  destruct (accelerator e "y"); [reflexivity|].
  destruct (content f) as [text|]; [|reflexivity]. cbn [stringOf bind].
  now rewrite (keySwitch_ext AppJsx.insertable Funcional1.insertable e e' _ _ _ Hk Hi).
Qed.

(** X6: the key handlers of the two files do the same on every event,
    except for a single-character key other than s, z and y pressed with
    Ctrl or Meta held. *)
Theorem handlers_agree (e : KeyEvent) (s : State) :
  modifierHeld e = false \/ length (key e) <> 1
  \/ keyIs e "s" = true \/ keyIs e "z" = true \/ keyIs e "y" = true ->
  AppJsx.handleKeyDown e s = Funcional1.handleKeyDown e s.
Proof.
  intro H.
  unfold AppJsx.handleKeyDown, Funcional1.handleKeyDown.
  destruct (currentFile s) as [f|] eqn:Hf; [|reflexivity].
  unfold Funcional1.updateContentAndHistory, AppJsx.updateContentAndHistory. rewrite Hf.
  destruct (accelerator e "s") eqn:As; [reflexivity|].
  destruct (accelerator e "z") eqn:Az; [reflexivity|].
  destruct (accelerator e "y") eqn:Ay; [reflexivity|].
  destruct (content f) as [text|]; [|reflexivity]. cbn [stringOf bind].
  assert (Hi : AppJsx.insertable e = Funcional1.insertable e).
  { unfold AppJsx.insertable, Funcional1.insertable, accelerator, modifierHeld in *.
    destruct (length (key e) =? 1) eqn:L; [|reflexivity].
    apply Nat.eqb_eq in L.
    destruct (ctrlKey e), (metaKey e); simpl in *; try reflexivity;
      destruct H as [H|[H|[H|[H|H]]]]; congruence. }
  now rewrite (keySwitch_ext AppJsx.insertable Funcional1.insertable e e _ _ _ eq_refl Hi).
Qed.

Lemma handlers_agree_witness :
  AppJsx.handleKeyDown (plainKey "x") (editing ab_cd 0 2)
  = Funcional1.handleKeyDown (plainKey "x") (editing ab_cd 0 2).
Proof. apply handlers_agree. left. reflexivity. Defined.

(** X7: a single-character key other than s, z and y pressed with Ctrl or
    Meta held changes nothing in funcional1.jsx, and in App.jsx it is typed
    as if no modifier were held. *)
Theorem modified_character (c : ascii) (ctrl meta : bool) (s : State) :
  ctrl || meta = true ->
  [c] <> str "s" -> [c] <> str "z" -> [c] <> str "y" ->
  (exists lines, currentLines s = Some lines) ->
  Funcional1.handleKeyDown (mkKey [c] ctrl meta) s = Normal s
  /\ AppJsx.handleKeyDown (mkKey [c] ctrl meta) s
     = Funcional1.handleKeyDown (mkKey [c] false false) s.
Proof.
  intros Hm Hs Hz Hy (lines & Hl).
  destruct (currentLines_inv s lines Hl) as (f & text & Hf & Hc & ->).
  assert (Hk : forall k, [c] <> str k -> keyIs (mkKey [c] ctrl meta) k = false).
  { intros k Hne. unfold keyIs. cbn [key].
    destruct (streq [c] (str k)) eqn:E; [|reflexivity].
    apply streq_true_iff in E. contradiction. }
  split.
  - rewrite (handleKeyDown_switch s f text) by
      (assumption || (unfold accelerator; rewrite Hk by assumption; apply andb_false_r)).
    rewrite keySwitch_default by apply keyIs_single.
    unfold Funcional1.insertable. cbn [key ctrlKey metaKey length Nat.eqb].
    replace (true && negb ctrl && negb meta) with false
      by (destruct ctrl, meta; try reflexivity; discriminate).
    cbn [bind sw_contentChanged sw_line sw_char].
    now rewrite cursor_eta, setCursorPosition_same.
  - apply handleKeyDown_App_eq; [reflexivity| |reflexivity].
    right. auto.
Qed.

Lemma modified_character_witness :
  Funcional1.handleKeyDown (mkKey ["c"%char] true false) (editing ab_cd 0 2)
  = Normal (editing ab_cd 0 2)
  /\ AppJsx.handleKeyDown (mkKey ["c"%char] true false) (editing ab_cd 0 2)
     = Funcional1.handleKeyDown (mkKey ["c"%char] false false) (editing ab_cd 0 2).
Proof.
  apply modified_character; try discriminate; [reflexivity|].
  now exists [str "ab"; str "cd"].
Defined.

(** X8: a key whose name is longer than one character and has no case of
    its own in the switch (Shift, Tab, Escape, F5, ...) changes nothing, in
    both files and with any modifiers. *)
Theorem unhandled_key_ignored (e : KeyEvent) (s : State) :
  unnamedKey e -> length (key e) <> 1 ->
  (exists lines, currentLines s = Some lines) ->
  Funcional1.handleKeyDown e s = Normal s /\ AppJsx.handleKeyDown e s = Normal s.
Proof.
  intros Hu Hn (lines & Hl).
  destruct (currentLines_inv s lines Hl) as (f & text & Hf & Hc & ->).
  assert (H1 : Funcional1.handleKeyDown e s = Normal s).
  { rewrite (handleKeyDown_switch s f text) by
      (assumption || (apply accelerator_long_key; [assumption|reflexivity])).
    rewrite keySwitch_default by assumption.
    unfold Funcional1.insertable.
    replace (length (key e) =? 1) with false by (symmetry; now apply Nat.eqb_neq).
    cbn [andb bind sw_contentChanged sw_line sw_char].
    now rewrite cursor_eta, setCursorPosition_same. }
  split; [exact H1|].
  rewrite <- H1. apply handleKeyDown_App_eq; [reflexivity|now left|].
  unfold AppJsx.insertable, Funcional1.insertable.
  now replace (length (key e) =? 1) with false by (symmetry; now apply Nat.eqb_neq).
Qed.

Lemma unhandled_key_ignored_witness :
  Funcional1.handleKeyDown (mkKey (str "Shift") false false) (editing ab_cd 0 2)
  = Normal (editing ab_cd 0 2)
  /\ AppJsx.handleKeyDown (mkKey (str "Shift") false false) (editing ab_cd 0 2)
     = Normal (editing ab_cd 0 2).
Proof.
  apply unhandled_key_ignored; [|discriminate|now exists [str "ab"; str "cd"]].
  intros k H. unfold namedKeys in H. simpl in H.
  repeat (destruct H as [<-|H]; [reflexivity|]). contradiction.
Defined.

(* ------------------------------------------------------------------ *)
(** ** Undo after an edit *)

Lemma array_get_firstn_app (h : list (option jstring)) (i : Z) (x : list (option jstring)) :
  (0 <= i < Z.of_nat (length h))%Z ->
  array_get (firstn (Z.to_nat i + 1) h ++ x) i = array_get h i.
Proof.
  intro H. unfold array_get. destruct (Z.ltb_spec i 0); [lia|].
  rewrite nth_error_app1 by (rewrite length_firstn; lia).
  rewrite nth_error_firstn.
  now destruct (Nat.ltb_spec (Z.to_nat i) (Z.to_nat i + 1)); [|lia].
Qed.

(** Undo in a state that holds the files and the history of a commit of
    new content gives back the files of before the commit. *)
Lemma undo_after_commit (ctrl meta : bool) (s s1 : State) (f : FileEntry) (c : jstring) :
  ctrl || meta = true ->
  currentFile s = Some f ->
  (0 <= historyIndex s < Z.of_nat (length (history s)))%Z ->
  array_get (history s) (historyIndex s) = content f ->
  content f <> Some c ->
  openedFiles s1 = openedFiles (commit c s) ->
  currentFileIndex s1 = currentFileIndex s ->
  history s1 = history (commit c s) ->
  historyIndex s1 = historyIndex (commit c s) ->
  exists s2,
    Funcional1.handleKeyDown (undoKeyWith ctrl meta) s1 = Normal s2
    /\ openedFiles s2 = openedFiles s
    /\ historyIndex s2 = historyIndex s
    /\ history s2 = history s1.
Proof.
  intros Hm Hf Hr Hlive Hne Ho Hi Hh Hx.
  assert (Hnew : array_get (history s) (historyIndex s) <> Some c) by congruence.
  destruct (commit_new c s f Hf Hr Hnew) as (Hh' & Hi' & _ & _).
  assert (Hlt : currentFileIndex s < length (openedFiles s))
    by (now apply currentFile_lt with f).
  assert (Hf1 : currentFile s1 = Some (mkFile (name f) (Some c))).
  { unfold currentFile. rewrite Ho, Hi, (openedFiles_commit c s f Hf).
    now apply nth_error_array_set_eq. }
  rewrite (undo_unfold ctrl meta Hm s1 _ Hf1), Hx, Hi'.
  destruct (Z.ltb_spec 0 (historyIndex s + 1)); [|lia].
  eexists. split; [reflexivity|]. cbn [openedFiles historyIndex history setOpenedFiles
                                        setHistoryIndex name].
  split; [|split; [lia|reflexivity]].
  rewrite Hh, Hh', Ho, Hi, (openedFiles_commit c s f Hf).
  replace (historyIndex s + 1 - 1)%Z with (historyIndex s) by lia.
  rewrite array_get_firstn_app, Hlive, file_eta, array_set_twice by assumption.
  now apply array_set_same.
Qed.

(** X9: with the history pointing at the live content, any key event
    (other than undo and redo) that changes the content of the active
    document is undone by the next undo: the documents are again as they
    were before the event, and the history index too. *)
Theorem edit_then_undo (ctrl meta : bool) (e : KeyEvent) (s s1 : State) :
  ctrl || meta = true ->
  historyInv s ->
  accelerator e "z" = false -> accelerator e "y" = false ->
  Funcional1.handleKeyDown e s = Normal s1 ->
  liveContent s1 <> liveContent s ->
  exists s2,
    Funcional1.handleKeyDown (undoKeyWith ctrl meta) s1 = Normal s2
    /\ openedFiles s2 = openedFiles s
    /\ historyIndex s2 = historyIndex s.
Proof.
  intros Hm (f & Hf & Hr & Hlive) Hz Hy H Hne.
  unfold Funcional1.handleKeyDown in H. rewrite Hf, Hz, Hy in H.
  destruct (accelerator e "s").
  { injection H as <-. now contradiction Hne. }
  destruct (content f) as [text|] eqn:Hc; [|discriminate]. cbn [stringOf bind] in H.
  destruct (keySwitch _ _ _ _ _) as [r| |]; [|discriminate|discriminate].
  cbn [bind] in H. injection H as <-.
  destruct (sw_contentChanged r); [|now contradiction Hne].
  fold (commit (join nl (sw_lines r)) s) in *.
  assert (Hne' : content f <> Some (join nl (sw_lines r))).
  { intro E. apply Hne. unfold liveContent.
    change (currentFile (setCursorPosition ?c ?t)) with (currentFile t).
    rewrite (currentFile_commit _ s f Hf), Hf. cbn [option_map content]. congruence. }
  rewrite <- Hc in Hlive.
  destruct (undo_after_commit ctrl meta s
              (setCursorPosition (mkCursor (sw_line r) (sw_char r))
                 (commit (join nl (sw_lines r)) s))
              f _ Hm Hf Hr Hlive Hne'
              eq_refl (currentFileIndex_commit _ s) eq_refl eq_refl)
    as (s2 & H1 & H2 & H3 & _).
  exists s2. split; [exact H1|]. split; assumption.
Qed.

Lemma edit_then_undo_witness :
  exists s1 s2,
    Funcional1.handleKeyDown (plainKey "Enter") (editing ab_cd 0 1) = Normal s1
    /\ Funcional1.handleKeyDown (undoKeyWith true false) s1 = Normal s2
    /\ openedFiles s2 = openedFiles (editing ab_cd 0 1).
Proof.
  assert (Hinv : historyInv (editing ab_cd 0 1)).
  { exists (mkFile (str "f.txt") (Some ab_cd)).
    split; [reflexivity|]. split; [simpl; lia|reflexivity]. }
  eexists.
  destruct (edit_then_undo true false (plainKey "Enter") (editing ab_cd 0 1) _
              eq_refl Hinv eq_refl eq_refl eq_refl ltac:(discriminate))
    as (s2 & H1 & H2 & _).
  exists s2. split; [reflexivity|]. now split.
Defined.

(** X10: with the history pointing at the live content, a replace-all that
    changes the content is undone by the next undo. *)
Theorem replaceAll_then_undo (ctrl meta : bool) (s s1 : State) :
  ctrl || meta = true ->
  historyInv s ->
  Funcional1.handleReplaceAll s = Normal s1 ->
  liveContent s1 <> liveContent s ->
  exists s2,
    Funcional1.handleKeyDown (undoKeyWith ctrl meta) s1 = Normal s2
    /\ openedFiles s2 = openedFiles s
    /\ historyIndex s2 = historyIndex s.
Proof.
  intros Hm (f & Hf & Hr & Hlive) H Hne.
  unfold Funcional1.handleReplaceAll in H. rewrite Hf in H.
  destruct (searchQuery s) as [|q0 q]; [injection H as <-; now contradiction Hne|].
  destruct (RegExp (escapeRegExp (q0 :: q))) as [p|x|]; cbn [bind tryCatch] in H;
    [|injection H as <-; now contradiction Hne|discriminate].
  destruct (content f) as [text|] eqn:Hc; cbn [stringOf bind tryCatch] in H;
    [|injection H as <-; now contradiction Hne].
  destruct (stringMatch p text) as [ms|]; [|injection H as <-; now contradiction Hne].
  destruct (length ms =? 0); [injection H as <-; now contradiction Hne|].
  destruct (streq (stringReplace p text (replaceQuery s)) text) eqn:E;
    cbn [negb tryCatch] in H; injection H as <-; [now contradiction Hne|].
  fold (commit (stringReplace p text (replaceQuery s)) s) in *.
  assert (Hne' : content f <> Some (stringReplace p text (replaceQuery s))).
  { rewrite Hc. intros [= E']. rewrite <- E', streq_refl in E. discriminate. }
  rewrite <- Hc in Hlive.
  destruct (undo_after_commit ctrl meta s
              (setNotification (Replaced (length ms))
                 (commit (stringReplace p text (replaceQuery s)) s))
              f _ Hm Hf Hr Hlive Hne'
              eq_refl (currentFileIndex_commit _ s) eq_refl eq_refl)
    as (s2 & H1 & H2 & H3 & _).
  exists s2. split; [exact H1|]. split; assumption.
Qed.

Lemma replaceAll_then_undo_witness :
  exists s1 s2,
    Funcional1.handleReplaceAll (searching (str "banana") (str "a") (str "o") 0 0) = Normal s1
    /\ liveContent s1 = Some (Some (str "bonono"))
    /\ Funcional1.handleKeyDown (undoKeyWith true false) s1 = Normal s2
    /\ openedFiles s2 = openedFiles (searching (str "banana") (str "a") (str "o") 0 0).
Proof.
  assert (Hinv : historyInv (searching (str "banana") (str "a") (str "o") 0 0)).
  { exists (mkFile (str "f.txt") (Some (str "banana"))).
    split; [reflexivity|]. split; [simpl; lia|reflexivity]. }
  eexists.
  destruct (replaceAll_then_undo true false (searching (str "banana") (str "a") (str "o") 0 0) _
              eq_refl Hinv eq_refl ltac:(discriminate))
    as (s2 & H1 & H2 & _).
  exists s2. split; [reflexivity|]. split; [reflexivity|]. now split.
Defined.

(* ------------------------------------------------------------------ *)
(** ** Renders: the search results and the history after an event *)

(** The search effect completes normally, and its result list depends on
    the query and the active document only. *)
Lemma searchEffect_shape (t : State) (r0 : list SearchResult) :
  exists r,
    searchEffect t = Normal (setSearchResults r t)
    /\ searchEffect (setSearchResults r0 t) = Normal (setSearchResults r t).
Proof.
  unfold searchEffect.
  change (searchQuery (setSearchResults r0 t)) with (searchQuery t).
  change (currentFile (setSearchResults r0 t)) with (currentFile t).
  destruct (searchQuery t) as [|q0 q]; [now exists []|].
  destruct (currentFile t) as [f|]; [|now exists []].
  unfold searchBody. rewrite RegExp_escapeRegExp.
  destruct (content f); simpl; now eexists.
Qed.

Lemma render_shape (prev next : State) :
  exists r,
    Funcional1.render prev next
    = Normal (setSearchResults r
                (if Funcional1.historyDepsChanged prev next
                 then Funcional1.historyEffect next else next)).
Proof.
  unfold Funcional1.render.
  destruct (searchEffect_shape
              (if Funcional1.historyDepsChanged prev next
               then Funcional1.historyEffect next else next) []) as (r & H & _).
  now exists r.
Qed.

Lemma docInv_historyEffect (t : State) : docInv (Funcional1.historyEffect t).
Proof.
  destruct (currentFile t) as [f|] eqn:Hf.
  - right. now apply historyInv_historyEffect with f.
  - left. unfold Funcional1.historyEffect. now rewrite Hf.
Qed.

Lemma render_docInv (prev next s' : State) :
  (Funcional1.historyDepsChanged prev next = false -> docInv next) ->
  Funcional1.render prev next = Normal s' -> docInv s'.
Proof.
  intros H Hr. destruct (render_shape prev next) as (r & E).
  rewrite E in Hr. injection Hr as <-.
  destruct (Funcional1.historyDepsChanged prev next).
  - exact (docInv_historyEffect next).
  - exact (H eq_refl).
Qed.

Lemma load_deps_changed (s : State) (nf : FileEntry) :
  Funcional1.historyDepsChanged s
    (Funcional1.readerOnload (length (openedFiles s)) 0 1 nf s) = true.
Proof.
  unfold Funcional1.historyDepsChanged, Funcional1.readerOnload. cbn [Nat.sub Nat.eqb].
  cbn [currentFileIndex setCurrentFileIndex setOpenedFiles].
  destruct (Nat.eqb_spec (currentFileIndex s) (length (openedFiles s) + 0)) as [E|E];
    [|reflexivity].
  unfold Funcional1.currentFileName, currentFile.
  cbn [currentFileIndex openedFiles setCurrentFileIndex setOpenedFiles].
  rewrite E, Nat.add_0_r.
  replace (nth_error (openedFiles s) (length (openedFiles s))) with (@None FileEntry)
    by (symmetry; apply nth_error_None; lia).
  now rewrite nth_error_middle.
Qed.

Lemma handleKeyDown_docInv (e : KeyEvent) (s s1 : State) :
  docInv s -> Funcional1.handleKeyDown e s = Normal s1 -> docInv s1.
Proof.
  intros [Hn|Hinv] H.
  - unfold Funcional1.handleKeyDown in H. rewrite Hn in H. injection H as <-. now left.
  - right. now apply historyInv_handleKeyDown with e s.
Qed.

Lemma handleReplaceAll_docInv (s s1 : State) :
  docInv s -> Funcional1.handleReplaceAll s = Normal s1 -> docInv s1.
Proof.
  intros [Hn|Hinv] H.
  - unfold Funcional1.handleReplaceAll in H. rewrite Hn in H. injection H as <-. now left.
  - right. now apply historyInv_handleReplaceAll with s.
Qed.

Lemma runEvent_docInv (ev : Event) (s s' : State) :
  docInv s -> runEvent ev s = Normal s' -> docInv s'.
Proof.
  intros Hinv H. destruct ev as [fileName text|i|e| |q|r]; cbn [runEvent] in H.
  - unfold Funcional1.loadDocument, Funcional1.dispatch in H. cbn [bind] in H.
    apply render_docInv in H; [exact H|]. rewrite load_deps_changed. discriminate.
  - unfold selectTab, Funcional1.dispatch in H. cbn [bind] in H.
    apply render_docInv in H; [exact H|]. intro Hd.
    unfold Funcional1.historyDepsChanged in Hd. apply orb_false_iff in Hd as [Hd _].
    apply negb_false_iff, Nat.eqb_eq in Hd. cbn [currentFileIndex setCurrentFileIndex] in Hd.
    subst i. now destruct s.
  - unfold Funcional1.keyDown, Funcional1.dispatch in H.
    destruct (Funcional1.handleKeyDown e s) as [s1| |] eqn:E; try discriminate.
    cbn [bind] in H. apply render_docInv in H; [exact H|].
    intros _. now apply handleKeyDown_docInv with e s.
  - unfold Funcional1.dispatch in H.
    destruct (Funcional1.handleReplaceAll s) as [s1| |] eqn:E; try discriminate.
    cbn [bind] in H. apply render_docInv in H; [exact H|].
    intros _. now apply handleReplaceAll_docInv with s.
  - unfold Funcional1.dispatch in H. cbn [bind] in H.
    apply render_docInv in H; [exact H|]. intros _. exact Hinv.
  - unfold Funcional1.dispatch in H. cbn [bind] in H.
    apply render_docInv in H; [exact H|]. intros _. exact Hinv.
Qed.

(** X11: along any run of loading files, selecting tabs, key events,
    replace-all and typing in the search and replace fields (closing a tab
    is not among them), whenever a document is active the history index is
    in range and the entry it points to is the live content. *)
Theorem history_invariant_along_events (evs : list Event) (s s' : State) :
  docInv s -> runEvents evs s = Normal s' -> docInv s'.
Proof.
  revert s. induction evs as [|ev evs IH]; intros s Hinv H; cbn [runEvents] in H.
  - now injection H as <-.
  - destruct (runEvent ev s) as [s1| |] eqn:E; try discriminate. cbn [bind] in H.
    apply (IH s1); [|exact H]. now apply runEvent_docInv with ev s.
Qed.

Lemma history_invariant_along_events_witness :
  exists s',
    runEvents [EvLoad (str "f.txt") ab_cd; EvKey (plainKey "x"); EvSearchQuery (str "b");
               EvReplaceQuery (str "c"); EvReplaceAll; EvKey (ctrlPlus "z")] initialState
    = Normal s'
    /\ docInv s'.
Proof.
  assert (H : exists s',
             runEvents [EvLoad (str "f.txt") ab_cd; EvKey (plainKey "x");
                        EvSearchQuery (str "b"); EvReplaceQuery (str "c"); EvReplaceAll;
                        EvKey (ctrlPlus "z")] initialState = Normal s')
    by (eexists; vm_compute; reflexivity).
  destruct H as (s' & H). exists s'. split; [exact H|].
  apply (history_invariant_along_events _ initialState s' (or_introl eq_refl) H).
Defined.

(** X12: loading a document, in any state, appends it, makes it the active
    one and resets the history to its content alone; the cursor stays where
    it was. *)
Theorem loadDocument_spec (fileName text : jstring) (s : State) :
  exists s',
    Funcional1.loadDocument fileName text s = Normal s'
    /\ openedFiles s' = openedFiles s ++ [mkFile fileName (Some text)]
    /\ currentFile s' = Some (mkFile fileName (Some text))
    /\ history s' = [Some text] /\ historyIndex s' = 0%Z
    /\ cursorPosition s' = cursorPosition s.
Proof.
  unfold Funcional1.loadDocument, Funcional1.dispatch. cbn [bind].
  destruct (render_shape s (Funcional1.readerOnload (length (openedFiles s)) 0 1
                              (mkFile fileName (Some text)) s)) as (r & ->).
  rewrite load_deps_changed. eexists. split; [reflexivity|].
  assert (Hf : currentFile (Funcional1.readerOnload (length (openedFiles s)) 0 1
                              (mkFile fileName (Some text)) s)
               = Some (mkFile fileName (Some text))).
  { unfold currentFile, Funcional1.readerOnload. cbn [Nat.sub Nat.eqb].
    cbn [currentFileIndex openedFiles setCurrentFileIndex setOpenedFiles].
    rewrite Nat.add_0_r. apply nth_error_middle. }
  unfold Funcional1.historyEffect. rewrite Hf.
  repeat split. exact Hf.
Qed.

(** X13: selecting another open document makes it the active one and
    resets the history to its content alone; the cursor stays where it
    was. *)
Theorem selectTab_spec (i : nat) (f : FileEntry) (s : State) :
  nth_error (openedFiles s) i = Some f -> i <> currentFileIndex s ->
  exists s',
    selectTab i s = Normal s'
    /\ openedFiles s' = openedFiles s
    /\ currentFile s' = Some f
    /\ history s' = [content f] /\ historyIndex s' = 0%Z
    /\ cursorPosition s' = cursorPosition s.
Proof.
  intros Hf Hi. unfold selectTab, Funcional1.dispatch. cbn [bind].
  destruct (render_shape s (setCurrentFileIndex i s)) as (r & ->).
  assert (Hd : Funcional1.historyDepsChanged s (setCurrentFileIndex i s) = true).
  { unfold Funcional1.historyDepsChanged. cbn [currentFileIndex setCurrentFileIndex].
    now replace (currentFileIndex s =? i) with false
      by (symmetry; apply Nat.eqb_neq; congruence). }
  rewrite Hd. eexists. split; [reflexivity|].
  assert (Hc : currentFile (setCurrentFileIndex i s) = Some f) by exact Hf.
  unfold Funcional1.historyEffect. rewrite Hc. repeat split. exact Hc.
Qed.

Lemma selectTab_spec_witness :
  exists s',
    selectTab 1 (setOpenedFiles [mkFile (str "a") (Some (str "x"));
                                 mkFile (str "b") (Some (str "y"))] (editing (str "x") 0 1))
    = Normal s'
    /\ currentFile s' = Some (mkFile (str "b") (Some (str "y")))
    /\ history s' = [Some (str "y")]
    /\ cursorPosition s' = mkCursor 0 1.
Proof.
  destruct (selectTab_spec 1 (mkFile (str "b") (Some (str "y")))
              (setOpenedFiles [mkFile (str "a") (Some (str "x"));
                               mkFile (str "b") (Some (str "y"))] (editing (str "x") 0 1))
              eq_refl ltac:(discriminate))
    as (s' & H1 & _ & H2 & H3 & _ & H4).
  exists s'. repeat split; assumption.
Defined.

Lemma fileEq_true (a b : option FileEntry) : fileEq a b = true -> a = b.
Proof.
  destruct a as [[n c]|], b as [[n' c']|]; cbn [fileEq name content]; intro H;
    try discriminate; try reflexivity.
  apply andb_true_iff in H as (H1 & H2).
  apply streq_true_iff in H1. apply strictEq_true_iff in H2. congruence.
Qed.

Lemma searchDeps_same (prev next : State) :
  searchDepsChanged prev next = false ->
  searchQuery prev = searchQuery next /\ currentFile prev = currentFile next.
Proof.
  unfold searchDepsChanged. intro H. apply orb_false_iff in H as (H1 & H2).
  apply negb_false_iff in H1, H2. split.
  - now apply streq_true_iff.
  - now apply fileEq_true.
Qed.

(** The results of the search effect are a function of its dependencies. *)
Lemma searchEffect_deps (t u : State) :
  searchQuery t = searchQuery u -> currentFile t = currentFile u ->
  exists r,
    searchEffect t = Normal (setSearchResults r t)
    /\ searchEffect u = Normal (setSearchResults r u).
Proof.
  intros Hq Hf. unfold searchEffect. rewrite Hq, Hf.
  destruct (searchQuery u) as [|q0 q]; [now exists []|].
  destruct (currentFile u) as [f|]; [|now exists []].
  unfold searchBody. rewrite RegExp_escapeRegExp.
  destruct (content f); simpl; now eexists.
Qed.

Lemma setSearchResults_same (t : State) : setSearchResults (searchResults t) t = t.
Proof. now destruct t. Qed.

Lemma updateContentAndHistory_searchResults (s : State) (c : option jstring) (b : bool)
    (pending : State) :
  searchResults (Funcional1.updateContentAndHistory s c b pending) = searchResults pending.
Proof.
  unfold Funcional1.updateContentAndHistory.
  destruct (currentFile s); [|reflexivity]. now destruct (_ && _).
Qed.

(** No handler writes the search results: only the effect does. *)
Lemma handleKeyDown_searchResults (e : KeyEvent) (s s1 : State) :
  Funcional1.handleKeyDown e s = Normal s1 -> searchResults s1 = searchResults s.
Proof.
  unfold Funcional1.handleKeyDown.
  destruct (currentFile s) as [f|]; [|now intros [= <-]].
  destruct (accelerator e "s"); [now intros [= <-]|].
  destruct (accelerator e "z").
  { destruct (0 <? historyIndex s)%Z; intros [= <-]; [|reflexivity].
    now rewrite updateContentAndHistory_searchResults. }
  destruct (accelerator e "y").
  { destruct (historyIndex s <? Z.of_nat (length (history s)) - 1)%Z; intros [= <-];
      [|reflexivity].
    now rewrite updateContentAndHistory_searchResults. }
  destruct (content f) as [text|]; cbn [stringOf bind]; [|discriminate].
  destruct (keySwitch _ _ _ _ _) as [r| |]; cbn [bind]; try discriminate.
  intros [= <-]. cbn [searchResults setCursorPosition].
  destruct (sw_contentChanged r); [|reflexivity].
  now rewrite updateContentAndHistory_searchResults.
Qed.

Lemma handleReplaceAll_searchResults (s s1 : State) :
  Funcional1.handleReplaceAll s = Normal s1 -> searchResults s1 = searchResults s.
Proof.
  unfold Funcional1.handleReplaceAll.
  destruct (currentFile s) as [f|]; [|now intros [= <-]].
  destruct (searchQuery s) as [|q0 q]; [now intros [= <-]|].
  destruct (RegExp (escapeRegExp (q0 :: q))) as [p|x|]; simpl;
    [|now intros [= <-]|discriminate].
  destruct (content f) as [text|]; simpl; [|now intros [= <-]].
  destruct (stringMatch p text) as [ms|]; [|now intros [= <-]].
  destruct (length ms =? 0); [now intros [= <-]|].
  destruct (negb _); intros [= <-]; [|reflexivity].
  cbn [searchResults setNotification]. now rewrite updateContentAndHistory_searchResults.
Qed.

Lemma handlerOf_searchResults (ev : Event) (s s1 : State) :
  handlerOf ev s = Normal s1 -> searchResults s1 = searchResults s.
Proof.
  destruct ev; cbn [handlerOf]; try (now intros [= <-]).
  - apply handleKeyDown_searchResults.
  - apply handleReplaceAll_searchResults.
Qed.

Lemma runEvent_handlerOf (ev : Event) (s : State) :
  runEvent ev s = Funcional1.dispatch (handlerOf ev) s.
Proof. now destruct ev. Qed.

Lemma historyStep_fields (prev next : State) :
  let s1 := if Funcional1.historyDepsChanged prev next
            then Funcional1.historyEffect next else next in
  searchQuery s1 = searchQuery next
  /\ currentFile s1 = currentFile next
  /\ searchResults s1 = searchResults next.
Proof.
  cbv zeta. destruct (Funcional1.historyDepsChanged prev next); [|now repeat split].
  unfold Funcional1.historyEffect.
  destruct (currentFile next) eqn:E; repeat split; exact E.
Qed.

(** X14: the search effect runs after a render only when React finds one
    of its dependencies [[searchQuery, currentFile]] changed, which it does
    at least when their values differ.  From a state whose stored results
    are those of its query and content, every event of funcional1.jsx
    (dropping a file, selecting a tab, a key, replace-all, typing in the
    search or the replace field) followed by such a render leads to a
    state whose stored results are again those of its query and content:
    empty for the empty query, the line-by-line occurrences otherwise.
    That state is the one reached when the effect runs after every
    render. *)
Theorem search_results_up_to_date (ev : Event) (rerun : bool) (s s1 : State) :
  searchEffect s = Normal s ->
  handlerOf ev s = Normal s1 ->
  (searchDepsChanged s s1 = true -> rerun = true) ->
  exists s',
    Funcional1.dispatchWhen rerun (handlerOf ev) s = Normal s'
    /\ runEvent ev s = Normal s'
    /\ searchEffect s' = Normal s'
    /\ (searchQuery s' = [] -> searchResults s' = [])
    /\ (forall f text,
          currentFile s' = Some f -> content f = Some text -> searchQuery s' <> [] ->
          searchResults s' = findSpec (searchQuery s') 0 (split nl text)).
Proof.
  intros Hup Hh Hrun.
  rewrite runEvent_handlerOf.
  unfold Funcional1.dispatchWhen, Funcional1.dispatch, Funcional1.renderWhen,
    Funcional1.render.
  rewrite Hh. cbn [bind].
  destruct (historyStep_fields s s1) as (Hq & Hf & Hr). cbv zeta in Hq, Hf, Hr.
  set (t := if Funcional1.historyDepsChanged s s1
            then Funcional1.historyEffect s1 else s1) in *.
  destruct (searchEffect_shape t []) as (r & E & _).
  assert (Hsame : (if rerun then searchEffect t else Normal t) = searchEffect t).
  { destruct rerun; [reflexivity|].
    destruct (searchDepsChanged s s1) eqn:Hd; [now specialize (Hrun eq_refl)|].
    destruct (searchDeps_same s s1 Hd) as (Hq1 & Hf1).
    destruct (searchEffect_deps s t) as (r' & E1 & E2); [congruence|congruence|].
    rewrite E1 in Hup. injection Hup as Hup. apply (f_equal searchResults) in Hup.
    cbn [searchResults setSearchResults] in Hup. subst r'.
    rewrite E2, <- (handlerOf_searchResults ev s s1 Hh), <- Hr.
    now rewrite setSearchResults_same. }
  rewrite Hsame, E. eexists. split; [reflexivity|]. split; [reflexivity|].
  assert (Hfix : searchEffect (setSearchResults r t) = Normal (setSearchResults r t)).
  { destruct (searchEffect_shape t r) as (r' & E1 & E2).
    rewrite E in E1. injection E1 as E1. subst r'. exact E2. }
  split; [exact Hfix|]. split.
  - intro Hq0. unfold searchEffect in Hfix. rewrite Hq0 in Hfix.
    injection Hfix as Hfix. symmetry. exact Hfix.
  - intros f text Hf0 Hc Hq0.
    rewrite (searchEffect_findSpec _ f text Hf0 Hc Hq0) in Hfix.
    injection Hfix as Hfix. symmetry. exact Hfix.
Qed.

Lemma search_results_up_to_date_witness :
  exists s',
    Funcional1.dispatchWhen false (handlerOf (EvKey (plainKey "ArrowRight")))
      (setSearchResults [mkResult 0 1 2] (searching ab_cd (str "b") [] 0 0))
    = Normal s'
    /\ searchEffect s' = Normal s'.
Proof.
  assert (Hup : searchEffect (setSearchResults [mkResult 0 1 2]
                                (searching ab_cd (str "b") [] 0 0))
                = Normal (setSearchResults [mkResult 0 1 2]
                            (searching ab_cd (str "b") [] 0 0)))
    by (vm_compute; reflexivity).
  assert (H : exists s1,
             handlerOf (EvKey (plainKey "ArrowRight"))
               (setSearchResults [mkResult 0 1 2] (searching ab_cd (str "b") [] 0 0))
             = Normal s1
             /\ searchDepsChanged
                  (setSearchResults [mkResult 0 1 2] (searching ab_cd (str "b") [] 0 0)) s1
                = false)
    by (eexists; split; [vm_compute; reflexivity|vm_compute; reflexivity]).
  destruct H as (s1 & H1 & H2).
  assert (H3 : searchDepsChanged
                 (setSearchResults [mkResult 0 1 2] (searching ab_cd (str "b") [] 0 0)) s1
               = true -> false = true)
    by (intro E; rewrite H2 in E; discriminate E).
  destruct (search_results_up_to_date (EvKey (plainKey "ArrowRight")) false
              (setSearchResults [mkResult 0 1 2] (searching ab_cd (str "b") [] 0 0)) s1
              Hup H1 H3)
    as (s' & Hd & _ & Hfix & _).
  exists s'. split; [exact Hd|exact Hfix].
Defined.

(* ------------------------------------------------------------------ *)
(** ** Closing a tab *)

Lemma filterIndex_ext {A} (keep keep' : nat -> bool) (k : nat) (a : list A) :
  (forall j, k <= j -> keep j = keep' j) -> filterIndex keep k a = filterIndex keep' k a.
Proof.
  revert k. induction a as [|x a IH]; intros k H; [reflexivity|].
  cbn [filterIndex]. rewrite (H k) by lia.
  rewrite (IH (S k)) by (intros j Hj; apply H; lia). reflexivity.
Qed.

Lemma filterIndex_all {A} (keep : nat -> bool) (k : nat) (a : list A) :
  (forall j, k <= j -> keep j = true) -> filterIndex keep k a = a.
Proof.
  revert k. induction a as [|x a IH]; intros k H; [reflexivity|].
  cbn [filterIndex]. rewrite (H k) by lia. f_equal. apply IH. intros j Hj. apply H. lia.
Qed.

(** [filter((_, i) => i !== indexToClose)] removes the element at that
    index. *)
Lemma filterIndex_remove {A} (i k : nat) (a : list A) :
  filterIndex (fun j => negb (j =? k + i)) k a = splice_remove i a.
Proof.
  unfold splice_remove. revert i k. induction a as [|x a IH]; intros i k.
  - now rewrite firstn_nil, skipn_nil.
  - cbn [filterIndex]. destruct i as [|i].
    + rewrite Nat.add_0_r, Nat.eqb_refl. cbn [negb firstn skipn app].
      apply filterIndex_all. intros j Hj.
      apply negb_true_iff, Nat.eqb_neq. lia.
    + replace (k =? k + S i) with false by (symmetry; apply Nat.eqb_neq; lia).
      cbn [negb]. change (firstn (S i) (x :: a)) with (x :: firstn i a).
      change (skipn (S (S i)) (x :: a)) with (skipn (S i) a). cbn [app]. f_equal.
      rewrite (filterIndex_ext _ (fun j => negb (j =? S k + i)) (S k) a); [apply IH|].
      intros j _. now replace (k + S i) with (S k + i) by lia.
Qed.

Lemma nth_error_splice_remove {A} (i j : nat) (a : list A) :
  nth_error (splice_remove i a) j = if j <? i then nth_error a j else nth_error a (S j).
Proof.
  destruct (Nat.ltb_spec j i) as [H|H].
  - now apply nth_error_splice_remove_before.
  - unfold splice_remove.
    destruct (Nat.le_gt_cases (length a) i) as [Hi|Hi].
    + rewrite firstn_all2, skipn_all2, app_nil_r by lia.
      transitivity (@None A); [|symmetry]; apply nth_error_None; lia.
    + rewrite nth_error_app2 by (rewrite length_firstn; lia).
      rewrite length_firstn, nth_error_skipn.
      f_equal. lia.
Qed.

Lemma length_splice_remove {A} (i : nat) (a : list A) :
  i < length a -> length (splice_remove i a) = length a - 1.
Proof.
  intro H. unfold splice_remove. rewrite length_app, length_firstn, length_skipn. lia.
Qed.

(** X15: closing the tab [i] of funcional1.jsx removes that document from
    the list; when another tab was active the active document stays the
    same one; when the active tab is closed the document before it becomes
    active, or the one after it when it was the first.  The close of
    App.jsx is the close of the active tab. *)
Theorem handleClose_spec (i : nat) (s : State) :
  i < length (openedFiles s) ->
  openedFiles (Funcional1.handleClose i s) = splice_remove i (openedFiles s)
  /\ length (openedFiles (Funcional1.handleClose i s)) = length (openedFiles s) - 1
  /\ (i <> currentFileIndex s ->
      currentFile (Funcional1.handleClose i s) = currentFile s)
  /\ (i = currentFileIndex s ->
      currentFile (Funcional1.handleClose i s)
      = nth_error (openedFiles s) (if i =? 0 then 1 else i - 1)
      /\ AppJsx.handleClose s = Funcional1.handleClose i s).
Proof.
  intro Hi.
  pose proof (filterIndex_remove i 0 (openedFiles s)) as Hrm. cbn [Nat.add] in Hrm.
  assert (Ho : openedFiles (Funcional1.handleClose i s) = splice_remove i (openedFiles s)).
  { unfold Funcional1.handleClose. rewrite Hrm.
    destruct (_ =? 0); [reflexivity|]. destruct (_ =? i); [reflexivity|].
    now destruct (_ <? _). }
  pose proof (length_splice_remove i (openedFiles s) Hi) as Hlen.
  split; [exact Ho|]. split; [now rewrite Ho|]. split.
  - intro Hne. unfold currentFile at 1. rewrite Ho.
    unfold Funcional1.handleClose. rewrite Hrm.
    destruct (Nat.eqb_spec (length (splice_remove i (openedFiles s))) 0) as [E|E].
    + cbn [currentFileIndex setCurrentFileIndex].
      rewrite nth_error_splice_remove. unfold currentFile.
      assert (length (openedFiles s) = 1) by lia.
      destruct (Nat.ltb_spec 0 i); [lia|].
      transitivity (@None FileEntry); [|symmetry]; apply nth_error_None; lia.
    + destruct (Nat.eqb_spec (currentFileIndex s) i); [congruence|].
      destruct (Nat.ltb_spec i (currentFileIndex s)) as [L|L];
        cbn [currentFileIndex setCurrentFileIndex setOpenedFiles];
        rewrite nth_error_splice_remove; unfold currentFile.
      * destruct (Nat.ltb_spec (currentFileIndex s - 1) i); [lia|].
        f_equal. lia.
      * destruct (Nat.ltb_spec (currentFileIndex s) i); [reflexivity|lia].
  - intro He. split.
    + unfold currentFile at 1. rewrite Ho.
      unfold Funcional1.handleClose. rewrite Hrm.
      destruct (Nat.eqb_spec (length (splice_remove i (openedFiles s))) 0) as [E|E].
      * cbn [currentFileIndex setCurrentFileIndex].
        assert (length (openedFiles s) = 1) by lia.
        replace (i =? 0) with true by (symmetry; apply Nat.eqb_eq; lia).
        rewrite nth_error_splice_remove.
        destruct (Nat.ltb_spec 0 i); [lia|reflexivity].
      * rewrite <- He, Nat.eqb_refl.
        cbn [currentFileIndex setCurrentFileIndex setOpenedFiles].
        rewrite nth_error_splice_remove, Nat.max_0_l.
        destruct (Nat.eqb_spec i 0) as [->|Hn].
        -- reflexivity.
        -- now destruct (Nat.ltb_spec (i - 1) i); [|lia].
    + unfold AppJsx.handleClose, Funcional1.handleClose. rewrite <- He, Nat.eqb_refl.
      now destruct (Nat.eqb_spec (length (openedFiles s)) 0); [lia|].
Qed.

Lemma handleClose_spec_witness :
  currentFile (Funcional1.handleClose 0
                 (setCurrentFileIndex 1
                    (setOpenedFiles [mkFile (str "a") (Some (str "x"));
                                     mkFile (str "b") (Some (str "y"))] initialState)))
  = Some (mkFile (str "b") (Some (str "y"))).
Proof.
  apply (proj1 (proj2 (proj2 (handleClose_spec 0
           (setCurrentFileIndex 1
              (setOpenedFiles [mkFile (str "a") (Some (str "x"));
                               mkFile (str "b") (Some (str "y"))] initialState))
           ltac:(simpl; lia)))));
    discriminate.
Defined.

(* ------------------------------------------------------------------ *)
(** ** Highlighting *)

(** X16: with the stored results being those of the stored non-empty query
    and content, a character is highlighted exactly when it lies in one of
    the occurrences taken in its line; a highlighted column is a column of
    its line, and the first character of every occurrence of the query is
    highlighted. *)
Theorem isHighlighted_spec (s : State) (f : FileEntry) (text : jstring) (k c : nat) :
  currentFile s = Some f -> content f = Some text -> searchQuery s <> [] ->
  searchResults s = findSpec (searchQuery s) 0 (split nl text) ->
  (isHighlighted s k c = true <->
   exists l i, nth_error (split nl text) k = Some l
               /\ In i (occurrences (searchQuery s) 0 0 l)
               /\ i <= c < i + length (searchQuery s))
  /\ (isHighlighted s k c = true ->
      exists l, nth_error (split nl text) k = Some l /\ c < length l)
  /\ (forall l, nth_error (split nl text) k = Some l ->
                occursAt (searchQuery s) l c -> isHighlighted s k c = true).
Proof.
  intros Hf Hc Hq Hres.
  assert (H1 : isHighlighted s k c = true <->
               exists l i, nth_error (split nl text) k = Some l
                           /\ In i (occurrences (searchQuery s) 0 0 l)
                           /\ i <= c < i + length (searchQuery s)).
  { unfold isHighlighted.
    replace (length (searchQuery s) =? 0) with false
      by (symmetry; apply Nat.eqb_neq; destruct (searchQuery s); [contradiction|discriminate]).
    rewrite Hres, existsb_exists. split.
    - intros (r & Hr & Hb). apply In_findSpec in Hr as (n & l & i & Hn & Hi & E). subst r.
      cbn [res_line res_start res_end Nat.add] in Hb.
      apply andb_true_iff in Hb as [Hb H3]. apply andb_true_iff in Hb as [H1 H2].
      apply Nat.eqb_eq in H1. apply Nat.leb_le in H2. apply Nat.ltb_lt in H3. subst n.
      exists l, i. repeat split; assumption.
    - intros (l & i & Hn & Hi & Hr).
      exists (mkResult k i (i + length (searchQuery s))). split.
      + apply In_findSpec. now exists k, l, i.
      + cbn [res_line res_start res_end]. rewrite Nat.eqb_refl.
        destruct (Nat.leb_spec i c); [|lia].
        now destruct (Nat.ltb_spec c (i + length (searchQuery s))); [|lia]. }
  split; [exact H1|]. split.
  - intro H. apply H1 in H as (l & i & Hn & Hi & Hr). exists l. split; [exact Hn|].
    apply occurrences_sound in Hi as (_ & Hi1 & Hi2). rewrite Nat.sub_0_r in *.
    apply ciPrefix_length in Hi2. rewrite length_skipn in Hi2. unfold jstring in *. lia.
  - intros l Hn (Hj & Ho). apply H1.
    destruct (occurrences_complete (searchQuery s) 0 0 l c Hq ltac:(lia) Ho) as (i & Hi & Hr).
    exists l, i. repeat split; try assumption; lia.
Qed.

Lemma isHighlighted_spec_witness :
  isHighlighted (setSearchResults [mkResult 0 0 3; mkResult 0 3 6]
                   (searching (str "abcabc") (str "abc") [] 0 0)) 0 3 = true.
Proof.
  apply (proj2 (proj2 (isHighlighted_spec
           (setSearchResults [mkResult 0 0 3; mkResult 0 3 6]
              (searching (str "abcabc") (str "abc") [] 0 0))
           (mkFile (str "f.txt") (Some (str "abcabc"))) (str "abcabc") 0 3
           eq_refl eq_refl ltac:(discriminate) eq_refl))
         (str "abcabc") eq_refl).
  split; [vm_compute; lia|reflexivity].
Defined.

(* ------------------------------------------------------------------ *)
(** ** The search does not see the case of letters *)

Lemma canonicalize_idem (c : ascii) : canonicalize (canonicalize c) = canonicalize c.
Proof. destruct c as [[] [] [] [] [] [] [] []]; vm_compute; reflexivity. Qed.

Lemma canonicalize_eqb_nl (c : ascii) : Ascii.eqb (canonicalize c) nl = Ascii.eqb c nl.
Proof.
  destruct (Ascii.eqb_spec c nl) as [->|H]; [reflexivity|].
  apply Ascii.eqb_neq. intro E. apply H. apply canonicalize_nl. now rewrite E.
Qed.

Lemma ciPrefix_fold_query (q s : jstring) : ciPrefix (map canonicalize q) s = ciPrefix q s.
Proof.
  revert s. induction q as [|a q IH]; intros [|c s]; cbn [map ciPrefix]; try reflexivity.
  now rewrite canonicalize_idem, IH.
Qed.

Lemma ciPrefix_fold_text (q s : jstring) : ciPrefix q (map canonicalize s) = ciPrefix q s.
Proof.
  revert s. induction q as [|a q IH]; intros [|c s]; cbn [map ciPrefix]; try reflexivity.
  now rewrite canonicalize_idem, IH.
Qed.

Lemma occurrences_fold_query (q : jstring) (k pos : nat) (s : jstring) :
  occurrences (map canonicalize q) k pos s = occurrences q k pos s.
Proof.
  revert k pos. induction s as [|c s IH]; intros k pos; [reflexivity|].
  cbn [occurrences]. rewrite ciPrefix_fold_query, length_map.
  destruct k; [|apply IH]. destruct (ciPrefix q (c :: s)); now rewrite IH.
Qed.

Lemma occurrences_fold_text (q : jstring) (k pos : nat) (s : jstring) :
  occurrences q k pos (map canonicalize s) = occurrences q k pos s.
Proof.
  revert k pos. induction s as [|c s IH]; intros k pos; [reflexivity|].
  cbn [map occurrences].
  change (canonicalize c :: map canonicalize s) with (map canonicalize (c :: s)).
  rewrite ciPrefix_fold_text.
  destruct k; [|apply IH]. destruct (ciPrefix q (c :: s)); now rewrite IH.
Qed.

Lemma split_fold_text (s : jstring) :
  split nl (map canonicalize s) = map (map canonicalize) (split nl s).
Proof.
  induction s as [|c s IH]; [reflexivity|].
  cbn [map split]. rewrite canonicalize_eqb_nl, IH.
  destruct (Ascii.eqb c nl); [reflexivity|].
  now destruct (split nl s).
Qed.

Lemma findSpec_fold_query (q : jstring) (k : nat) (lines : list jstring) :
  findSpec (map canonicalize q) k lines = findSpec q k lines.
Proof.
  revert k. induction lines as [|l ls IH]; intro k; [reflexivity|].
  cbn [findSpec]. unfold spansOf. now rewrite occurrences_fold_query, length_map, IH.
Qed.

Lemma findSpec_fold_text (q : jstring) (k : nat) (lines : list jstring) :
  findSpec q k (map (map canonicalize) lines) = findSpec q k lines.
Proof.
  revert k. induction lines as [|l ls IH]; intro k; [reflexivity|].
  cbn [map findSpec]. now rewrite occurrences_fold_text, IH.
Qed.

(** X17: the result of the search body is the same for a non-empty query
    and for its case-folded form, and the same for a text and for its
    case-folded form. *)
Theorem search_case_insensitive (q text : jstring) :
  q <> [] ->
  searchBody (map canonicalize q) (Some text) = searchBody q (Some text)
  /\ searchBody q (Some (map canonicalize text)) = searchBody q (Some text).
Proof.
  intro Hq.
  assert (Hq' : map canonicalize q <> []) by (destruct q; [contradiction|discriminate]).
  rewrite !searchBody_findSpec by assumption.
  now rewrite findSpec_fold_query, split_fold_text, findSpec_fold_text.
Qed.

Lemma search_case_insensitive_witness :
  searchBody (str "ABC") (Some (str "xAbCx")) = searchBody (str "abc") (Some (str "xAbCx"))
  /\ searchBody (str "abc") (Some (str "XABCX")) = searchBody (str "abc") (Some (str "xAbCx")).
Proof.
  exact (search_case_insensitive (str "abc") (str "xAbCx") ltac:(discriminate)).
Defined.

(* ------------------------------------------------------------------ *)
(** ** Escaping a query *)

Lemma escapeRegExp_length (q : jstring) :
  length q <= length (escapeRegExp q) <= 2 * length q.
Proof.
  induction q as [|c q IH]; cbn [escapeRegExp length]; [lia|].
  destruct (isSyntaxCharacter c); cbn [length]; lia.
Qed.

(** X18: every query, escaped, compiles to the pattern of its own
    characters taken literally, so that the escaping loses nothing: two
    queries with the same escaped form are the same query; the escaped
    form is at most twice as long. *)
Theorem escapeRegExp_roundtrip (q : jstring) :
  RegExp (escapeRegExp q) = Normal (map Lit q)
  /\ (forall q', escapeRegExp q = escapeRegExp q' -> q = q')
  /\ length q <= length (escapeRegExp q) <= 2 * length q.
Proof.
  split; [apply RegExp_escapeRegExp|]. split; [|apply escapeRegExp_length].
  intros q' H. apply (f_equal RegExp) in H. rewrite !RegExp_escapeRegExp in H.
  injection H as H. revert q' H.
  induction q as [|c q IH]; intros [|c' q'] H; try discriminate; [reflexivity|].
  cbn [map] in H. injection H as -> H. f_equal. now apply IH.
Qed.

Lemma escapeRegExp_roundtrip_witness :
  RegExp (escapeRegExp (str "a.b*(c)")) = Normal (map Lit (str "a.b*(c)"))
  /\ str "a.b" = str "a.b".
Proof.
  split; [apply (proj1 (escapeRegExp_roundtrip (str "a.b*(c)")))|].
  apply (proj1 (proj2 (escapeRegExp_roundtrip (str "a.b")))). reflexivity.
Defined.

(* ------------------------------------------------------------------ *)
(** ** The length of the replaced text *)

Lemma replaceSpec_length (q r : jstring) (k pos : nat) (s : jstring) :
  q <> [] -> k <= length s ->
  length (replaceSpec q r k s) + k + length (occurrences q k pos s) * length q
  = length s + length (occurrences q k pos s) * length r.
Proof.
  intro Hq. assert (Hq1 : 1 <= length q) by (destruct q; [contradiction|simpl; lia]).
  revert k pos. induction s as [|c s IH]; intros k pos Hk.
  - simpl in *. lia.
  - cbn [replaceSpec occurrences]. destruct k as [|k].
    + destruct (ciPrefix q (c :: s)) eqn:E.
      * apply ciPrefix_length in E. cbn [length] in *.
        specialize (IH (length q - 1) (S pos) ltac:(lia)).
        rewrite length_app. lia.
      * specialize (IH 0 (S pos) ltac:(lia)). cbn [length] in *. lia.
    + cbn [length] in *. specialize (IH k (S pos) ltac:(lia)). lia.
Qed.

(** X19: replacing all the matches of a non-empty literal query by a
    replacement without [$] changes the length of the text by the number
    of matches times the difference of the two lengths. *)
Theorem stringReplace_length (q r text : jstring) :
  q <> [] -> noDollar r ->
  length (stringReplace (map Lit q) text r)
    + length (allMatches (map Lit q) text) * length q
  = length text + length (allMatches (map Lit q) text) * length r.
Proof.
  intros Hq Hr. rewrite stringReplace_literal, allMatches_literal, length_map by assumption.
  pose proof (replaceSpec_length q r 0 0 text Hq ltac:(lia)). lia.
Qed.

Lemma stringReplace_length_witness :
  length (stringReplace (map Lit (str "a")) (str "banana") (str "oo"))
    + length (allMatches (map Lit (str "a")) (str "banana")) * length (str "a")
  = length (str "banana") + length (allMatches (map Lit (str "a")) (str "banana")) * length (str "oo").
Proof.
  apply stringReplace_length; [discriminate|].
  intros [H|[H|[]]]; discriminate H.
Defined.

(* ------------------------------------------------------------------ *)
(** ** ArrowRight and ArrowLeft undo each other *)

Lemma keySwitch_right (ins : KeyEvent -> bool) (ctrl meta : bool)
    (lines : list jstring) (ln ch : nat) :
  keySwitch ins (mkKey (str "ArrowRight") ctrl meta) lines ln ch =
  let* n := lengthOf (nth_error lines ln) in
  if ch <? n then Normal (mkSwitch lines ln (ch + 1) false)
  else if ln <? length lines - 1 then Normal (mkSwitch lines (ln + 1) 0 false)
  else Normal (mkSwitch lines ln ch false).
Proof. unfold keySwitch. rewrite !keyIs_key. eval_keys. reflexivity. Qed.

Lemma keySwitch_left (ins : KeyEvent -> bool) (ctrl meta : bool)
    (lines : list jstring) (ln ch : nat) :
  keySwitch ins (mkKey (str "ArrowLeft") ctrl meta) lines ln ch =
  if 0 <? ch then Normal (mkSwitch lines ln (ch - 1) false)
  else if 0 <? ln then
    let* n := lengthOf (nth_error lines (ln - 1)) in
    Normal (mkSwitch lines (ln - 1) n false)
  else Normal (mkSwitch lines ln ch false).
Proof. unfold keySwitch. rewrite !keyIs_key. eval_keys. reflexivity. Qed.

(** One motion key event, from the result of its switch. *)
Lemma motion_step (s : State) (f : FileEntry) (text : jstring) (k : string)
    (ln ch : nat) (r : SwitchResult) :
  currentFile s = Some f -> content f = Some text ->
  cursorPosition s = mkCursor ln ch ->
  streq (str k) (str "s") = false -> streq (str k) (str "z") = false ->
  streq (str k) (str "y") = false ->
  keySwitch Funcional1.insertable (plainKey k) (split nl text) ln ch = Normal r ->
  sw_contentChanged r = false ->
  Funcional1.handleKeyDown (plainKey k) s
  = Normal (setCursorPosition (mkCursor (sw_line r) (sw_char r)) s).
Proof.
  intros Hf Hc Hcur Hs Hz Hy Hk Hch.
  rewrite (handleKeyDown_switch s f text) by
    (assumption || (apply accelerator_named; assumption)).
  rewrite Hcur. cbn [line char]. rewrite Hk. cbn [bind]. now rewrite Hch.
Qed.

Lemma setCursorPosition_back (s : State) (c : CursorPosition) :
  setCursorPosition (cursorPosition s) (setCursorPosition c s) = s.
Proof. now destruct s. Qed.

(** X20: at an in-range cursor that is not at the end of the document,
    ArrowRight moves the cursor and the ArrowLeft that follows gives back
    the state as it was; at an in-range cursor that is not at the start of
    the document, the same holds for ArrowLeft followed by ArrowRight. *)
Theorem right_left_roundtrip (s : State) (lines : list jstring) (l : jstring) :
  currentLines s = Some lines ->
  nth_error lines (line (cursorPosition s)) = Some l ->
  char (cursorPosition s) <= length l ->
  (char (cursorPosition s) < length l \/ line (cursorPosition s) + 1 < length lines ->
   exists s1,
     Funcional1.handleKeyDown (plainKey "ArrowRight") s = Normal s1
     /\ cursorPosition s1 <> cursorPosition s
     /\ Funcional1.handleKeyDown (plainKey "ArrowLeft") s1 = Normal s)
  /\ (0 < char (cursorPosition s) \/ 0 < line (cursorPosition s) ->
      exists s1,
        Funcional1.handleKeyDown (plainKey "ArrowLeft") s = Normal s1
        /\ cursorPosition s1 <> cursorPosition s
        /\ Funcional1.handleKeyDown (plainKey "ArrowRight") s1 = Normal s).
Proof.
  intros Hl Hn Hch.
  destruct (currentLines_inv s lines Hl) as (f & text & Hf & Hc & ->).
  set (lines := split nl text) in *.
  assert (Hlt : line (cursorPosition s) < length lines)
    by (apply nth_error_Some; congruence).
  destruct (cursorPosition s) as [ln ch] eqn:Hcur. cbn [line char] in *.
  split.
  - intro Hend.
    destruct (Nat.ltb_spec ch (length l)) as [Hlt1|Hge].
    + exists (setCursorPosition (mkCursor ln (ch + 1)) s). split; [|split].
      * apply (motion_step s f text "ArrowRight" ln ch (mkSwitch lines ln (ch + 1) false));
          try reflexivity; try assumption.
        unfold plainKey. rewrite keySwitch_right. fold lines. rewrite Hn. cbn [lengthOf bind].
        now destruct (Nat.ltb_spec ch (length l)); [|lia].
      * cbn [cursorPosition setCursorPosition]. intros E. injection E. lia.
      * rewrite (motion_step (setCursorPosition (mkCursor ln (ch + 1)) s) f text
                   "ArrowLeft" ln (ch + 1) (mkSwitch lines ln (ch + 1 - 1) false));
          try reflexivity; try assumption.
        -- cbn [sw_line sw_char]. replace (ch + 1 - 1) with ch by lia.
           rewrite <- Hcur. f_equal. now destruct s.
        -- unfold plainKey. rewrite keySwitch_left.
           now destruct (Nat.ltb_spec 0 (ch + 1)); [|lia].
    + assert (Hnext : ln + 1 < length lines) by lia.
      assert (ch = length l) by lia. subst ch.
      exists (setCursorPosition (mkCursor (ln + 1) 0) s). split; [|split].
      * apply (motion_step s f text "ArrowRight" ln (length l)
                 (mkSwitch lines (ln + 1) 0 false));
          try reflexivity; try assumption.
        unfold plainKey. rewrite keySwitch_right. fold lines. rewrite Hn. cbn [lengthOf bind].
        destruct (Nat.ltb_spec (length l) (length l)); [lia|].
        now destruct (Nat.ltb_spec ln (length lines - 1)); [|lia].
      * cbn [cursorPosition setCursorPosition]. intros E. injection E. lia.
      * rewrite (motion_step (setCursorPosition (mkCursor (ln + 1) 0) s) f text
                   "ArrowLeft" (ln + 1) 0 (mkSwitch lines (ln + 1 - 1) (length l) false));
          try reflexivity; try assumption.
        -- cbn [sw_line sw_char]. replace (ln + 1 - 1) with ln by lia.
           rewrite <- Hcur. f_equal. now destruct s.
        -- unfold plainKey. rewrite keySwitch_left. change (0 <? 0) with false. cbv iota.
           destruct (Nat.ltb_spec 0 (ln + 1)); [|lia]. fold lines.
           replace (ln + 1 - 1) with ln by lia. now rewrite Hn.
  - intro Hstart.
    destruct (Nat.ltb_spec 0 ch) as [Hpos|Hz].
    + exists (setCursorPosition (mkCursor ln (ch - 1)) s). split; [|split].
      * apply (motion_step s f text "ArrowLeft" ln ch (mkSwitch lines ln (ch - 1) false));
          try reflexivity; try assumption.
        unfold plainKey. rewrite keySwitch_left.
        now destruct (Nat.ltb_spec 0 ch); [|lia].
      * cbn [cursorPosition setCursorPosition]. intros E. injection E. lia.
      * rewrite (motion_step (setCursorPosition (mkCursor ln (ch - 1)) s) f text
                   "ArrowRight" ln (ch - 1) (mkSwitch lines ln (ch - 1 + 1) false));
          try reflexivity; try assumption.
        -- cbn [sw_line sw_char]. replace (ch - 1 + 1) with ch by lia.
           rewrite <- Hcur. f_equal. now destruct s.
        -- unfold plainKey. rewrite keySwitch_right. fold lines. rewrite Hn. cbn [lengthOf bind].
           now destruct (Nat.ltb_spec (ch - 1) (length l)); [|lia].
    + assert (ch = 0) by lia. subst ch. assert (Hln : 0 < ln) by lia.
      destruct (nth_error lines (ln - 1)) as [p|] eqn:Hp;
        [|apply nth_error_None in Hp; unfold jstring in *; lia].
      exists (setCursorPosition (mkCursor (ln - 1) (length p)) s). split; [|split].
      * apply (motion_step s f text "ArrowLeft" ln 0
                 (mkSwitch lines (ln - 1) (length p) false));
          try reflexivity; try assumption.
        unfold plainKey. rewrite keySwitch_left. change (0 <? 0) with false. cbv iota.
        destruct (Nat.ltb_spec 0 ln); [|lia]. fold lines. now rewrite Hp.
      * cbn [cursorPosition setCursorPosition]. intros E. injection E. lia.
      * rewrite (motion_step (setCursorPosition (mkCursor (ln - 1) (length p)) s) f text
                   "ArrowRight" (ln - 1) (length p) (mkSwitch lines (ln - 1 + 1) 0 false));
          try reflexivity; try assumption.
        -- cbn [sw_line sw_char]. replace (ln - 1 + 1) with ln by lia.
           rewrite <- Hcur. f_equal. now destruct s.
        -- unfold plainKey. rewrite keySwitch_right. fold lines. rewrite Hp. cbn [lengthOf bind].
           destruct (Nat.ltb_spec (length p) (length p)); [lia|].
           now destruct (Nat.ltb_spec (ln - 1) (length lines - 1));
             [|unfold jstring in *; lia].
Qed.

Lemma right_left_roundtrip_witness :
  exists s1,
    Funcional1.handleKeyDown (plainKey "ArrowRight") (editing ab_cd 0 2) = Normal s1
    /\ cursorPosition s1 <> cursorPosition (editing ab_cd 0 2)
    /\ Funcional1.handleKeyDown (plainKey "ArrowLeft") s1 = Normal (editing ab_cd 0 2).
Proof.
  apply (proj1 (right_left_roundtrip (editing ab_cd 0 2) [str "ab"; str "cd"] (str "ab")
                  eq_refl eq_refl ltac:(vm_compute; lia))).
  right. vm_compute. lia.
Defined.

(* ------------------------------------------------------------------ *)
(** ** A cursor that is out of range *)

(** X21: when the cursor line is past the last line, the keys that read
    the cursor line (ArrowRight, End, Enter and a typed character) throw a
    TypeError and the event changes nothing, while Home, which reads no
    line, completes and sets the column to 0. *)
Theorem line_out_of_range (s : State) (lines : list jstring) (c : ascii) :
  currentLines s = Some lines ->
  length lines <= line (cursorPosition s) ->
  Funcional1.keyDown (plainKey "ArrowRight") s = Throw TypeError
  /\ Funcional1.keyDown (plainKey "End") s = Throw TypeError
  /\ Funcional1.keyDown (plainKey "Enter") s = Throw TypeError
  /\ Funcional1.keyDown (mkKey [c] false false) s = Throw TypeError
  /\ Funcional1.handleKeyDown (plainKey "Home") s
     = Normal (setCursorPosition (mkCursor (line (cursorPosition s)) 0) s).
Proof.
  intros Hl Hout.
  destruct (currentLines_inv s lines Hl) as (f & text & Hf & Hc & ->).
  assert (Hnone : nth_error (split nl text) (line (cursorPosition s)) = None)
    by (now apply nth_error_None).
  unfold Funcional1.keyDown, Funcional1.dispatch.
  repeat split.
  - rewrite (handleKeyDown_switch s f text) by
      (assumption || (apply accelerator_named; reflexivity)).
    unfold plainKey. now rewrite keySwitch_right, Hnone.
  - rewrite (handleKeyDown_switch s f text) by
      (assumption || (apply accelerator_named; reflexivity)).
    unfold plainKey, keySwitch. rewrite !keyIs_key. eval_keys. cbv iota.
    now rewrite Hnone.
  - rewrite (handleKeyDown_switch s f text) by
      (assumption || (apply accelerator_named; reflexivity)).
    unfold plainKey. now rewrite keySwitch_enter, Hnone.
  - rewrite (handleKeyDown_switch s f text) by (assumption || reflexivity).
    rewrite keySwitch_default by apply keyIs_single.
    change (Funcional1.insertable (mkKey [c] false false)) with true. cbv iota.
    now rewrite Hnone.
  - rewrite (handleKeyDown_switch s f text) by
      (assumption || (apply accelerator_named; reflexivity)).
    unfold plainKey, keySwitch. rewrite !keyIs_key. eval_keys. reflexivity.
Qed.

Lemma line_out_of_range_witness :
  Funcional1.keyDown (plainKey "ArrowRight") (editing (str "a") 1 0) = Throw TypeError
  /\ Funcional1.keyDown (plainKey "Enter") (editing (str "a") 1 0) = Throw TypeError.
Proof.
  destruct (line_out_of_range (editing (str "a") 1 0) [str "a"] "x"%char
              eq_refl ltac:(simpl; lia)) as (H1 & _ & H3 & _).
  now split.
Defined.

(** X22: when the cursor column is past the end of its line, Backspace
    deletes nothing and moves the column one to the left (with the history
    pointing at the live content nothing else changes), and a typed
    character is appended to the line while the column grows by one. *)
Theorem column_out_of_range (s : State) (lines : list jstring) (l : jstring) (c : ascii) :
  currentLines s = Some lines ->
  nth_error lines (line (cursorPosition s)) = Some l ->
  length l < char (cursorPosition s) ->
  (historyInv s ->
   Funcional1.handleKeyDown (plainKey "Backspace") s
   = Normal (setCursorPosition
               (mkCursor (line (cursorPosition s)) (char (cursorPosition s) - 1)) s))
  /\ (c <> nl ->
      exists s1,
        Funcional1.handleKeyDown (mkKey [c] false false) s = Normal s1
        /\ currentLines s1 = Some (array_set (line (cursorPosition s)) (l ++ [c]) lines)
        /\ cursorPosition s1
           = mkCursor (line (cursorPosition s)) (char (cursorPosition s) + 1)).
Proof.
  intros Hl Hn Hch.
  destruct (currentLines_inv s lines Hl) as (f & text & Hf & Hc & ->).
  split.
  - intros (f0 & Hf0 & _ & Hlive). assert (f0 = f) by congruence. subst f0.
    rewrite (handleKeyDown_switch s f text) by
      (assumption || (apply accelerator_named; reflexivity)).
    unfold plainKey. rewrite keySwitch_backspace.
    destruct (Nat.ltb_spec 0 (char (cursorPosition s))); [|lia].
    rewrite Hn. cbn [stringOf bind sw_contentChanged sw_lines sw_line sw_char].
    unfold slice_to, slice_from.
    rewrite firstn_all2, skipn_all2, app_nil_r by lia.
    rewrite array_set_same by exact Hn. rewrite join_split.
    unfold Funcional1.updateContentAndHistory. rewrite Hf, Hlive, Hc, strictEq_refl.
    cbn [negb andb]. rewrite <- Hc, file_eta, (array_set_same _ _ _ Hf).
    do 2 f_equal.
  - intro Hnl.
    pose proof (split_noNl text) as Hall.
    assert (Hlnl : noNl l).
    { rewrite Forall_forall in Hall. apply Hall. eapply nth_error_In; eauto. }
    assert (Hk : keySwitch Funcional1.insertable (mkKey [c] false false) (split nl text)
                   (line (cursorPosition s)) (char (cursorPosition s))
                 = Normal (mkSwitch (array_set (line (cursorPosition s)) (l ++ [c])
                                       (split nl text))
                             (line (cursorPosition s)) (char (cursorPosition s) + 1) true)).
    { rewrite keySwitch_default by apply keyIs_single.
      change (Funcional1.insertable (mkKey [c] false false)) with true. cbv iota.
      rewrite Hn. cbn [stringOf bind key]. unfold slice_to, slice_from.
      now rewrite firstn_all2, skipn_all2, app_nil_r by lia. }
    destruct (edit_step s f text (mkKey [c] false false) _ Hf Hc
                eq_refl eq_refl eq_refl Hk eq_refl)
      as (s1 & Hs1 & _ & Hf1 & Hc1 & _).
    cbn [sw_lines sw_line sw_char] in Hf1, Hc1.
    exists s1. split; [exact Hs1|]. split; [|exact Hc1].
    unfold currentLines. rewrite Hf1. cbn [content option_map]. f_equal.
    apply split_join.
    + intro E. apply (f_equal (@length jstring)) in E.
      rewrite array_set_length in E.
      assert (Hlt : line (cursorPosition s) < length (split nl text))
        by (apply nth_error_Some; congruence).
      cbn [length] in E. unfold jstring in *. lia.
    + apply Forall_array_set; [assumption|].
      apply noNl_app; [assumption|]. intros [H|[]]. congruence.
Qed.

Lemma column_out_of_range_witness :
  Funcional1.handleKeyDown (plainKey "Backspace") (editing (str "a") 0 3)
  = Normal (setCursorPosition (mkCursor 0 2) (editing (str "a") 0 3)).
Proof.
  apply (proj1 (column_out_of_range (editing (str "a") 0 3) [str "a"] (str "a") "x"%char
                  eq_refl eq_refl ltac:(vm_compute; lia))).
  exists (mkFile (str "f.txt") (Some (str "a"))).
  split; [reflexivity|]. split; [simpl; lia|reflexivity].
Defined.

(* ------------------------------------------------------------------ *)
(** ** The text area as drawn *)

Lemma length_mapIndex {A B} (f : A -> nat -> B) (i : nat) (a : list A) :
  length (mapIndex f i a) = length a.
Proof. revert i. induction a as [|x a IH]; intro i; simpl; [reflexivity|]. now rewrite IH. Qed.

Lemma nth_error_mapIndex {A B} (f : A -> nat -> B) (i : nat) (a : list A) (j : nat) :
  nth_error (mapIndex f i a) j = option_map (fun x => f x (i + j)) (nth_error a j).
Proof.
  revert i j. induction a as [|x a IH]; intros i [|j]; simpl; try reflexivity.
  - now rewrite Nat.add_0_r.
  - rewrite IH. now replace (S i + j) with (i + S j) by lia.
Qed.

Lemma cells_cursor_count (s : State) (hovered : option CursorPosition)
    (k lsi i0 : nat) (l : jstring) :
  length (filter cell_cursor (mapIndex (renderCharacter s hovered k lsi) i0 l))
  = if (line (cursorPosition s) =? k) && (i0 <? char (cursorPosition s))
       && (char (cursorPosition s) <=? i0 + length l)
    then 1 else 0.
Proof.
  revert i0. induction l as [|c l IH]; intro i0.
  - cbn [mapIndex filter length]. bool_cases.
  - cbn [mapIndex filter renderCharacter cell_cursor].
    destruct ((line (cursorPosition s) =? k) && (char (cursorPosition s) =? i0 + 1)) eqn:E;
      cbn [length]; rewrite IH; revert E; bool_cases; discriminate.
Qed.

Lemma cursorsOfLine_Funcional1 (s : State) (hovered : option CursorPosition)
    (l : jstring) (k : nat) :
  cursorsOfLine (Funcional1.renderLine s hovered l k)
  = if line (cursorPosition s) =? k
    then (if char (cursorPosition s) <=? length l then 1 else 0)
    else 0.
Proof.
  unfold cursorsOfLine, Funcional1.renderLine. cbn [line_cursor line_cells].
  rewrite cells_cursor_count. bool_cases.
Qed.

Lemma cursorsOfLine_AppJsx (s : State) (hovered : option CursorPosition)
    (l : jstring) (k : nat) :
  cursorsOfLine (AppJsx.renderLine s hovered l k)
  = if line (cursorPosition s) =? k
    then (if char (cursorPosition s) =? length l then 1 else 0)
         + (if (0 <? char (cursorPosition s)) && (char (cursorPosition s) <=? length l)
            then 1 else 0)
    else 0.
Proof.
  unfold cursorsOfLine, AppJsx.renderLine. cbn [line_cursor line_cells].
  rewrite cells_cursor_count. bool_cases.
Qed.

Lemma cursorsDrawn_cons (r : RenderedLine) (doc : list RenderedLine) :
  cursorsDrawn (r :: doc) = cursorsOfLine r + cursorsDrawn doc.
Proof. reflexivity. Qed.

Lemma cursorsDrawn_lines (render : jstring -> nat -> RenderedLine) (count : jstring -> nat)
    (ln : nat) :
  (forall l k, cursorsOfLine (render l k) = if ln =? k then count l else 0) ->
  forall lines k0,
    cursorsDrawn (mapIndex render k0 lines)
    = if k0 <=? ln
      then match nth_error lines (ln - k0) with Some l => count l | None => 0 end
      else 0.
Proof.
  intros H lines. induction lines as [|l lines IH]; intro k0.
  - cbn [mapIndex]. destruct (ln - k0); now destruct (k0 <=? ln).
  - cbn [mapIndex]. rewrite cursorsDrawn_cons, IH, H.
    destruct (Nat.eqb_spec ln k0) as [->|Hne].
    + rewrite Nat.sub_diag. cbn [nth_error]. bool_cases.
    + destruct (Nat.leb_spec (S k0) ln); destruct (Nat.leb_spec k0 ln); try lia;
        try reflexivity.
      replace (ln - k0) with (S (ln - S k0)) by lia. reflexivity.
Qed.

(** X23: in funcional1.jsx the text area of a document with text shows
    one line per line of the content, and the cursor is drawn exactly once
    when it is in range and not at all when it is out of range. *)
Theorem cursor_drawn_once (s : State) (hovered : option CursorPosition)
    (lines : list jstring) :
  currentLines s = Some lines ->
  exists doc,
    Funcional1.renderDocument s hovered = Normal (Some doc)
    /\ length doc = length lines
    /\ (cursorInRange lines (cursorPosition s) -> cursorsDrawn doc = 1)
    /\ (~ cursorInRange lines (cursorPosition s) -> cursorsDrawn doc = 0).
Proof.
  intro Hl. destruct (currentLines_inv s lines Hl) as (f & text & Hf & Hc & ->).
  unfold Funcional1.renderDocument. rewrite Hf, Hc. cbn [stringOf bind].
  eexists. split; [reflexivity|]. split; [apply length_mapIndex|].
  rewrite (cursorsDrawn_lines (Funcional1.renderLine s hovered)
             (fun l => if char (cursorPosition s) <=? length l then 1 else 0)
             (line (cursorPosition s)))
    by (intros l k; apply cursorsOfLine_Funcional1).
  cbn [Nat.leb]. rewrite Nat.sub_0_r. split.
  - intros (l & E & Hch). rewrite E.
    destruct (Nat.leb_spec (char (cursorPosition s)) (length l)); [reflexivity|].
    unfold jstring in *. lia.
  - intro Hout. destruct (nth_error (split nl text) (line (cursorPosition s))) as [l|] eqn:E;
      [|reflexivity].
    destruct (Nat.leb_spec (char (cursorPosition s)) (length l)); [|reflexivity].
    exfalso. apply Hout. now exists l.
Qed.

Lemma cursor_drawn_once_witness :
  exists doc,
    Funcional1.renderDocument (editing ab_cd 1 2) None = Normal (Some doc)
    /\ cursorsDrawn doc = 1.
Proof.
  destruct (cursor_drawn_once (editing ab_cd 1 2) None [str "ab"; str "cd"] eq_refl)
    as (doc & H1 & _ & H2 & _).
  exists doc. split; [exact H1|]. apply H2. exists (str "cd"). split; [reflexivity|].
  vm_compute. lia.
Defined.

(** X24: in App.jsx the cursor of a line is drawn after a character or at
    the end of the line: at an in-range cursor it is drawn once on an empty
    line and inside a line, not at all at column 0 of a line that is not
    empty, and twice at the end of a line that is not empty. *)
Theorem cursor_drawn_App (s : State) (hovered : option CursorPosition)
    (lines : list jstring) (l : jstring) :
  currentLines s = Some lines ->
  nth_error lines (line (cursorPosition s)) = Some l ->
  char (cursorPosition s) <= length l ->
  exists doc,
    AppJsx.renderDocument s hovered = Normal (Some doc)
    /\ (length l = 0 -> cursorsDrawn doc = 1)
    /\ (0 < length l -> char (cursorPosition s) = 0 -> cursorsDrawn doc = 0)
    /\ (0 < char (cursorPosition s) < length l -> cursorsDrawn doc = 1)
    /\ (0 < length l -> char (cursorPosition s) = length l -> cursorsDrawn doc = 2).
Proof.
  intros Hl Hn Hch. destruct (currentLines_inv s lines Hl) as (f & text & Hf & Hc & ->).
  unfold AppJsx.renderDocument. rewrite Hf, Hc. cbn [stringOf bind].
  eexists. split; [reflexivity|].
  rewrite (cursorsDrawn_lines (AppJsx.renderLine s hovered)
             (fun l => (if char (cursorPosition s) =? length l then 1 else 0)
                       + (if (0 <? char (cursorPosition s))
                             && (char (cursorPosition s) <=? length l)
                          then 1 else 0))
             (line (cursorPosition s)))
    by (intros l0 k; apply cursorsOfLine_AppJsx).
  cbn [Nat.leb]. rewrite Nat.sub_0_r, Hn. unfold jstring in *.
  repeat split; intros; bool_cases.
Qed.

Lemma cursor_drawn_App_witness :
  exists doc,
    AppJsx.renderDocument (editing ab_cd 1 2) None = Normal (Some doc)
    /\ cursorsDrawn doc = 2.
Proof.
  destruct (cursor_drawn_App (editing ab_cd 1 2) None [str "ab"; str "cd"] (str "cd")
              eq_refl eq_refl ltac:(vm_compute; lia))
    as (doc & H1 & _ & _ & _ & H2).
  exists doc. split; [exact H1|]. apply H2; vm_compute; lia.
Defined.

Lemma skipn_app_length {A} (a b : list A) : skipn (length a) (a ++ b) = b.
Proof. induction a as [|x a IH]; [reflexivity|exact IH]. Qed.

Lemma getLetterStartIndex_three (sep : ascii) (a b c rest : jstring) :
  ~ In sep a -> ~ In sep b -> ~ In sep c ->
  getLetterStartIndex (a ++ sep :: b ++ sep :: c ++ sep :: rest) sep
  = length a + length b + length c + 3.
Proof.
  intros Ha Hb Hc. unfold getLetterStartIndex.
  rewrite (split_sep_app sep a _ Ha), (split_sep_app sep b _ Hb), (split_sep_app sep c _ Hc).
  pose proof (split_sep_nonempty sep rest) as Hne.
  destruct (split sep rest) as [|d r]; [contradiction|].
  cbn [length firstn Nat.ltb Nat.leb]. rewrite !join_cons2. cbn [join].
  rewrite !length_app. cbn [length]. rewrite !length_app. cbn [length]. lia.
Qed.

(** X25: the tooltip of a character is drawn exactly when the character is
    hovered or has the cursor after it and lies at or after the column of
    [getLetterStartIndex]; its number is the 1-based position of the
    character in the line without that prefix: on a line [a;b;c;rest] it
    counts the characters of [rest], and no character of [a;b;c;] has a
    tooltip.  The characters are drawn the same in the two files. *)
Theorem tooltip_spec (s : State) (hovered : option CursorPosition) (k j : nat)
    (l : jstring) (cell : Cell) :
  nth_error (line_cells (Funcional1.renderLine s hovered l k)) j = Some cell ->
  line_cells (AppJsx.renderLine s hovered l k)
  = line_cells (Funcional1.renderLine s hovered l k)
  /\ nth_error l j = Some (cell_char cell)
  /\ (cell_tooltip cell <> None <->
      (hovered = Some (mkCursor k j) \/ cursorPosition s = mkCursor k (j + 1))
      /\ getLetterStartIndex l ";"%char <= j)
  /\ (forall n, cell_tooltip cell = Some n ->
        1 <= n
        /\ nth_error (skipn (getLetterStartIndex l ";"%char) l) (n - 1)
           = Some (cell_char cell))
  /\ (forall a b c rest n,
        l = a ++ ";"%char :: b ++ ";"%char :: c ++ ";"%char :: rest ->
        ~ In ";"%char a -> ~ In ";"%char b -> ~ In ";"%char c ->
        cell_tooltip cell = Some n ->
        nth_error rest (n - 1) = Some (cell_char cell)).
Proof.
  intro H. unfold Funcional1.renderLine in H. cbn [line_cells] in H.
  rewrite nth_error_mapIndex in H. cbn [Nat.add] in H.
  destruct (nth_error l j) as [ch|] eqn:Hj; [|discriminate]. cbn [option_map] in H.
  injection H as <-. cbn [renderCharacter cell_char cell_tooltip].
  set (lsi := getLetterStartIndex l ";"%char).
  assert (Hshow : (isHoveredAt hovered k j
                   || (line (cursorPosition s) =? k) && (char (cursorPosition s) =? j + 1))
                  && (lsi <=? j) = true
                  <-> (hovered = Some (mkCursor k j) \/ cursorPosition s = mkCursor k (j + 1))
                      /\ lsi <= j).
  { rewrite andb_true_iff, orb_true_iff, Nat.leb_le, andb_true_iff, !Nat.eqb_eq.
    unfold isHoveredAt.
    split; intros (H1 & H2); (split; [|exact H2]).
    - destruct H1 as [H1|(H1 & H3)].
      + left. destruct hovered as [[hl hc]|]; [|discriminate].
        apply andb_true_iff in H1 as (H1 & H3). cbn [line char] in *.
        apply Nat.eqb_eq in H1, H3. now subst.
      + right. destruct (cursorPosition s) as [cl cc]. cbn [line char] in *. now subst.
    - destruct H1 as [-> | ->]; cbn [line char].
      + left. now rewrite !Nat.eqb_refl.
      + right. now split. }
  assert (Hn : forall n,
             (if (isHoveredAt hovered k j
                  || (line (cursorPosition s) =? k) && (char (cursorPosition s) =? j + 1))
                 && (lsi <=? j)
              then Some (j - lsi + 1) else None) = Some n ->
             1 <= n /\ nth_error (skipn lsi l) (n - 1) = Some ch).
  { intros n E.
    destruct ((isHoveredAt hovered k j
               || (line (cursorPosition s) =? k) && (char (cursorPosition s) =? j + 1))
              && (lsi <=? j)) eqn:Es; [|discriminate].
    destruct (proj1 Hshow eq_refl) as (_ & Hle). injection E as <-. split; [lia|].
    rewrite nth_error_skipn. replace (lsi + (j - lsi + 1 - 1)) with j by lia. exact Hj. }
  split; [reflexivity|]. split; [reflexivity|]. split; [|split; [exact Hn|]].
  - rewrite <- Hshow.
    destruct ((isHoveredAt hovered k j
               || (line (cursorPosition s) =? k) && (char (cursorPosition s) =? j + 1))
              && (lsi <=? j)); split; congruence.
  - intros a b c rest n -> Ha Hb Hc E. destruct (Hn n E) as (_ & Hr).
    unfold lsi in Hr. rewrite (getLetterStartIndex_three _ a b c rest Ha Hb Hc) in Hr.
    rewrite <- Hr. f_equal.
    assert (Hsplit : a ++ ";"%char :: b ++ ";"%char :: c ++ ";"%char :: rest
                     = (a ++ ";"%char :: b ++ ";"%char :: c ++ [";"%char]) ++ rest)
      by (repeat (rewrite <- app_assoc; cbn [app]); reflexivity).
    rewrite Hsplit.
    replace (length a + length b + length c + 3)
      with (length (a ++ ";"%char :: b ++ ";"%char :: c ++ [";"%char]))
      by (rewrite !length_app; cbn [length]; rewrite !length_app; cbn [length];
          rewrite !length_app; cbn [length]; lia).
    symmetry. apply skipn_app_length.
Qed.

Lemma tooltip_spec_witness :
  exists cell,
    nth_error (line_cells (Funcional1.renderLine (editing (str "1;2;3;hi") 0 0)
                             (Some (mkCursor 0 7)) (str "1;2;3;hi") 0)) 7 = Some cell
    /\ cell_tooltip cell = Some 2
    /\ nth_error (str "hi") (2 - 1) = Some (cell_char cell).
Proof.
  eexists. split; [reflexivity|]. split; [reflexivity|].
  apply (proj2 (proj2 (proj2 (proj2
           (tooltip_spec (editing (str "1;2;3;hi") 0 0) (Some (mkCursor 0 7)) 0 7
              (str "1;2;3;hi") _ eq_refl))))
           (str "1") (str "2") (str "3") (str "hi") 2 eq_refl);
    try (vm_compute; intuition discriminate).
Defined.

(* ------------------------------------------------------------------ *)
(** ** The click on a line *)

(** What a render leaves as the handler wrote it. *)
Lemma render_fields (prev next : State) :
  exists s',
    Funcional1.render prev next = Normal s'
    /\ openedFiles s' = openedFiles next
    /\ currentFileIndex s' = currentFileIndex next
    /\ cursorPosition s' = cursorPosition next
    /\ history s'
       = history (if Funcional1.historyDepsChanged prev next
                  then Funcional1.historyEffect next else next)
    /\ historyIndex s'
       = historyIndex (if Funcional1.historyDepsChanged prev next
                       then Funcional1.historyEffect next else next).
Proof.
  destruct (render_shape prev next) as (r & ->). eexists. split; [reflexivity|].
  destruct (Funcional1.historyDepsChanged prev next); [|now repeat split].
  unfold Funcional1.historyEffect. now destruct (currentFile next).
Qed.

Lemma searchEffect_fields (next : State) :
  exists s',
    searchEffect next = Normal s'
    /\ openedFiles s' = openedFiles next
    /\ currentFileIndex s' = currentFileIndex next
    /\ cursorPosition s' = cursorPosition next
    /\ history s' = history next
    /\ historyIndex s' = historyIndex next.
Proof.
  destruct (searchEffect_shape next []) as (r & -> & _). eexists. now repeat split.
Qed.

Lemma closestStep_bound (N : Numbers) (clientX : num N) (n : nat)
    (charSpans : list (Span N)) (acc : num N * nat) :
  (forall sp, In sp charSpans -> span_charIndex sp < n) ->
  snd acc <= n ->
  snd (fold_left (Funcional1.closestStep N clientX) charSpans acc) <= n.
Proof.
  revert acc. induction charSpans as [|sp rest IH]; intros acc H Ha; cbn [fold_left].
  - exact Ha.
  - apply IH; [intros sp' Hin; apply H; now right|].
    unfold Funcional1.closestStep.
    destruct (num_ltb N _ (num_abs N (fst acc))); [|exact Ha].
    cbn [snd]. specialize (H sp (or_introl eq_refl)).
    destruct (num_ltb N _ _); lia.
Qed.

Lemma closestLoop_bound (N : Numbers) (clientX : num N) (n index : nat)
    (charSpans : list (Span N)) (acc : num N * nat) :
  index + length charSpans <= n ->
  snd acc <= n ->
  snd (AppJsx.closestLoop N clientX index charSpans acc) <= n.
Proof.
  revert index acc.
  induction charSpans as [|sp rest IH]; intros index acc H Ha; cbn [AppJsx.closestLoop].
  - exact Ha.
  - cbn [length] in H. apply IH; [lia|].
    destruct (num_ltb N _ (fst acc)); [|exact Ha].
    cbn [snd]. destruct (num_ltb N _ _); lia.
Qed.

Lemma cursorOk_fields (s s' : State) (lines : list jstring) :
  currentLines s = Some lines ->
  openedFiles s' = openedFiles s ->
  currentFileIndex s' = currentFileIndex s ->
  cursorInRange lines (cursorPosition s') ->
  cursorOk s'.
Proof.
  intros Hl Ho Hi Hc. exists lines. split; [|exact Hc].
  unfold currentLines, currentFile in *. now rewrite Ho, Hi.
Qed.

(** X26: a click on a line of the document, whose character spans are the
    ones drawn for that line, puts the cursor on that line at a column
    that is in range, in the two files and whatever the coordinates and
    the arithmetic on them are; nothing but the cursor is written. *)
Theorem click_keeps_cursor_in_range (N : Numbers) (s : State) (lines : list jstring)
    (l : jstring) (k : nat) (charSpans : list (Span N)) (clientX : num N) :
  currentLines s = Some lines ->
  nth_error lines k = Some l ->
  map span_charIndex charSpans = seq 0 (length l) ->
  (exists s',
      Funcional1.clickLine N l k charSpans clientX s = Normal s'
      /\ openedFiles s' = openedFiles s
      /\ history s' = history s /\ historyIndex s' = historyIndex s
      /\ line (cursorPosition s') = k
      /\ cursorOk s')
  /\ (exists s',
         AppJsx.clickLine N l k charSpans clientX s = Normal s'
         /\ openedFiles s' = openedFiles s
         /\ history s' = history s /\ historyIndex s' = historyIndex s
         /\ line (cursorPosition s') = k
         /\ cursorOk s').
Proof.
  intros Hl Hn Hspans.
  assert (Hlen : length charSpans = length l).
  { rewrite <- (length_map span_charIndex), Hspans. apply length_seq. }
  assert (Hidx : forall sp, In sp charSpans -> span_charIndex sp < length l).
  { intros sp Hin. apply (in_map span_charIndex) in Hin. rewrite Hspans in Hin.
    apply in_seq in Hin. lia. }
  assert (H1 : cursorInRange lines (Funcional1.lineClick N l k charSpans clientX)).
  { exists l. unfold Funcional1.lineClick.
    destruct (length charSpans =? 0); cbn [line char]; (split; [exact Hn|]); [lia|].
    apply closestStep_bound; [exact Hidx|]. cbn [snd]. lia. }
  assert (H2 : cursorInRange lines (AppJsx.lineClick N l k charSpans clientX)).
  { exists l. unfold AppJsx.lineClick. cbn [line char]. split; [exact Hn|].
    destruct (0 <? length charSpans); [|lia].
    apply closestLoop_bound; [lia|]. cbn [snd]. lia. }
  assert (L1 : line (Funcional1.lineClick N l k charSpans clientX) = k)
    by (unfold Funcional1.lineClick; now destruct (length charSpans =? 0)).
  assert (L2 : line (AppJsx.lineClick N l k charSpans clientX) = k) by reflexivity.
  split.
  - unfold Funcional1.clickLine, Funcional1.dispatch. cbn [bind].
    set (c := Funcional1.lineClick N l k charSpans clientX) in *.
    destruct (render_fields s (setCursorPosition c s)) as (s' & -> & Ho & Hi & Hc & Hh & Hx).
    assert (Hd : Funcional1.historyDepsChanged s (setCursorPosition c s) = false).
    { unfold Funcional1.historyDepsChanged, Funcional1.currentFileName.
      change (currentFile (setCursorPosition c s)) with (currentFile s).
      cbn [currentFileIndex setCursorPosition].
      now rewrite Nat.eqb_refl, strictEq_refl. }
    rewrite Hd in Hh, Hx. exists s'. split; [reflexivity|].
    split; [exact Ho|]. split; [exact Hh|]. split; [exact Hx|].
    split; [rewrite Hc; assumption|].
    apply (cursorOk_fields s s' lines Hl Ho Hi). now rewrite Hc.
  - unfold AppJsx.clickLine, AppJsx.dispatch. cbn [bind].
    set (c := AppJsx.lineClick N l k charSpans clientX) in *.
    destruct (searchEffect_fields (setCursorPosition c s))
      as (s' & -> & Ho & Hi & Hc & Hh & Hx).
    exists s'. split; [reflexivity|].
    split; [exact Ho|]. split; [exact Hh|]. split; [exact Hx|].
    split; [rewrite Hc; assumption|].
    apply (cursorOk_fields s s' lines Hl Ho Hi). now rewrite Hc.
Qed.

Lemma click_keeps_cursor_in_range_witness :
  exists s',
    Funcional1.clickLine pixels (str "cd") 1 (spansAt 0 2) (Some (inject_Z 14)) (editing ab_cd 0 0)
    = Normal s'
    /\ cursorOk s'.
Proof.
  destruct (proj1 (click_keeps_cursor_in_range pixels (editing ab_cd 0 0)
                     [str "ab"; str "cd"] (str "cd") 1 (spansAt 0 2) (Some (inject_Z 14))
                     eq_refl eq_refl eq_refl))
    as (s' & H1 & _ & _ & _ & _ & H2).
  now exists s'.
Defined.

(* ------------------------------------------------------------------ *)
(** ** Dropping several files *)

Lemma forEachDropped_lengths (i : nat) (files : list DroppedFile) :
  length (fst (Funcional1.forEachDropped i files))
  + length (snd (Funcional1.forEachDropped i files)) = length files.
Proof.
  revert i. induction files as [|f files IH]; intro i; [reflexivity|].
  cbn [Funcional1.forEachDropped]. specialize (IH (S i)).
  destruct (Funcional1.forEachDropped (S i) files) as [reads errors].
  destruct (Funcional1.acceptsFile f); cbn [fst snd length] in *; lia.
Qed.

Lemma forEachDropped_errors (i : nat) (files : list DroppedFile) :
  (forallb Funcional1.acceptsFile files = true ->
   snd (Funcional1.forEachDropped i files) = [])
  /\ (forallb Funcional1.acceptsFile files = false ->
      1 <= length (snd (Funcional1.forEachDropped i files))).
Proof.
  revert i. induction files as [|f files IH]; intro i.
  - split; [reflexivity|discriminate].
  - cbn [Funcional1.forEachDropped forallb]. specialize (IH (S i)).
    destruct (Funcional1.forEachDropped (S i) files) as [reads errors].
    destruct (Funcional1.acceptsFile f); cbn [fst snd length andb] in *.
    + exact IH.
    + split; [discriminate|lia].
Qed.

Lemma In_forEachDropped (i : nat) (files : list DroppedFile) (j : nat) (f : DroppedFile) :
  In (j, f) (fst (Funcional1.forEachDropped i files))
  <-> i <= j /\ nth_error files (j - i) = Some f /\ Funcional1.acceptsFile f = true.
Proof.
  revert i. induction files as [|g files IH]; intro i.
  - cbn [Funcional1.forEachDropped fst In]. split; [contradiction|].
    intros (_ & H & _). now destruct (j - i).
  - cbn [Funcional1.forEachDropped]. specialize (IH (S i)).
    destruct (Funcional1.forEachDropped (S i) files) as [reads errors].
    cbn [fst] in IH.
    assert (Htail : In (j, f) reads
                    <-> i < j /\ nth_error (g :: files) (j - i) = Some f
                        /\ Funcional1.acceptsFile f = true).
    { rewrite IH. split.
      - intros (H1 & H2 & H3). split; [lia|]. split; [|exact H3].
        replace (j - i) with (S (j - S i)) by lia. exact H2.
      - intros (H1 & H2 & H3). split; [lia|]. split; [|exact H3].
        replace (j - i) with (S (j - S i)) in H2 by lia. exact H2. }
    destruct (Funcional1.acceptsFile g) eqn:Hg; cbn [fst In]; rewrite Htail.
    + split.
      * intros [E|(H1 & H2 & H3)].
        -- injection E as <- <-. rewrite Nat.sub_diag. now repeat split.
        -- split; [lia|]. now split.
      * intros (H1 & H2 & H3). destruct (Nat.eq_dec i j) as [<-|Hne].
        -- left. rewrite Nat.sub_diag in H2. cbn [nth_error] in H2. congruence.
        -- right. split; [lia|]. now split.
    + split.
      * intros (H1 & H2 & H3). split; [lia|]. now split.
      * intros (H1 & H2 & H3). destruct (Nat.eq_dec i j) as [<-|Hne].
        -- rewrite Nat.sub_diag in H2. cbn [nth_error] in H2. congruence.
        -- split; [lia|]. now split.
Qed.

Lemma readerOnload_fields (first index total : nat) (nf : FileEntry) (s : State) :
  openedFiles (Funcional1.readerOnload first index total nf s) = openedFiles s ++ [nf]
  /\ currentFileIndex (Funcional1.readerOnload first index total nf s)
     = (if index =? total - 1 then first + index else currentFileIndex s)
  /\ cursorPosition (Funcional1.readerOnload first index total nf s) = cursorPosition s.
Proof. unfold Funcional1.readerOnload. now destruct (index =? total - 1). Qed.

Lemma runReads_fields (first total : nat) (order : list (nat * DroppedFile)) (s : State) :
  exists s',
    Funcional1.runReads first total order s = Normal s'
    /\ openedFiles s' = openedFiles s ++ map (fun r => fileEntryOf (snd r)) order
    /\ currentFileIndex s'
       = (if existsb (fun r => fst r =? total - 1) order
          then first + (total - 1) else currentFileIndex s)
    /\ cursorPosition s' = cursorPosition s.
Proof.
  revert s. induction order as [|r order IH]; intro s.
  - exists s. cbn [map]. now rewrite app_nil_r.
  - cbn [Funcional1.runReads]. unfold Funcional1.onload, Funcional1.dispatch. cbn [bind].
    destruct (readerOnload_fields first (fst r) total (fileEntryOf (snd r)) s)
      as (Ho0 & Hi0 & Hc0).
    destruct (render_fields s (Funcional1.readerOnload first (fst r) total
                                 (fileEntryOf (snd r)) s))
      as (s1 & -> & Ho & Hi & Hc & _).
    cbn [bind]. destruct (IH s1) as (s' & -> & Ho' & Hi' & Hc').
    exists s'. split; [reflexivity|].
    rewrite Ho', Hi', Hc', Ho, Hi, Hc, Ho0, Hi0, Hc0. cbn [map existsb].
    rewrite <- app_assoc. split; [reflexivity|]. split; [|reflexivity].
    destruct (Nat.eqb_spec (fst r) (total - 1)) as [->|_]; cbn [orb]; [|reflexivity].
    now destruct (existsb _ order).
Qed.

Lemma runReads_app (first total : nat) (p q : list (nat * DroppedFile)) (s : State) :
  Funcional1.runReads first total (p ++ q) s
  = let* s1 := Funcional1.runReads first total p s in Funcional1.runReads first total q s1.
Proof.
  revert s. induction p as [|r p IH]; intro s; [reflexivity|].
  cbn [app Funcional1.runReads].
  destruct (Funcional1.onload first total r s) as [s1| |]; cbn [bind]; [apply IH| |];
    reflexivity.
Qed.

(** X27: when every dropped file passes the filter of [handleDrop], then
    whatever the order in which the reads complete, once they all have the
    files are appended in that order, the active document is the file that
    was read last (the last tab), and the history is its content alone. *)
Theorem drop_text_files (droppedFiles : list DroppedFile)
    (order : list (nat * DroppedFile)) (lastRead : nat * DroppedFile) (s : State) :
  forallb Funcional1.acceptsFile droppedFiles = true ->
  Permutation (order ++ [lastRead]) (fst (Funcional1.handleDrop droppedFiles)) ->
  exists s',
    Funcional1.dropFiles droppedFiles (order ++ [lastRead]) s = Normal s'
    /\ snd (Funcional1.handleDrop droppedFiles) = []
    /\ openedFiles s'
       = openedFiles s ++ map (fun r => fileEntryOf (snd r)) (order ++ [lastRead])
    /\ currentFileIndex s' = length (openedFiles s') - 1
    /\ currentFile s' = Some (fileEntryOf (snd lastRead))
    /\ history s' = [Some (file_text (snd lastRead))] /\ historyIndex s' = 0%Z
    /\ cursorPosition s' = cursorPosition s.
Proof.
  intros Hall Hperm. unfold Funcional1.handleDrop in *.
  set (n := length droppedFiles). set (first := length (openedFiles s)).
  destruct (forEachDropped_errors 0 droppedFiles) as (Herr & _). specialize (Herr Hall).
  pose proof (forEachDropped_lengths 0 droppedFiles) as Hlen.
  rewrite Herr in Hlen. cbn [length] in Hlen. rewrite Nat.add_0_r in Hlen.
  pose proof (Permutation_length Hperm) as Hpl. rewrite Hlen, length_app in Hpl.
  cbn [length] in Hpl. fold n in Hpl.
  assert (Hex : existsb (fun r => fst r =? n - 1) (order ++ [lastRead]) = true).
  { destruct (nth_error droppedFiles (n - 1)) as [f|] eqn:Hf;
      [|apply nth_error_None in Hf; fold n in Hf; lia].
    apply existsb_exists. exists (n - 1, f). split; [|apply Nat.eqb_refl].
    apply (Permutation_in _ (Permutation_sym Hperm)). apply In_forEachDropped.
    rewrite Nat.sub_0_r. split; [lia|]. split; [exact Hf|].
    apply nth_error_In in Hf. rewrite forallb_forall in Hall. now apply Hall. }
  unfold Funcional1.dropFiles. fold n first. rewrite runReads_app.
  destruct (runReads_fields first n order s) as (s1 & -> & Ho1 & Hi1 & Hc1). cbn [bind].
  cbn [Funcional1.runReads]. unfold Funcional1.onload, Funcional1.dispatch. cbn [bind].
  destruct (readerOnload_fields first (fst lastRead) n (fileEntryOf (snd lastRead)) s1)
    as (Ho0 & Hi0 & Hc0).
  set (next := Funcional1.readerOnload first (fst lastRead) n (fileEntryOf (snd lastRead)) s1)
    in *.
  destruct (render_fields s1 next) as (s' & -> & Ho & Hi & Hc & Hh & Hx). cbn [bind].
  assert (Hl1 : length (openedFiles s1) = first + (n - 1)).
  { rewrite Ho1, length_app, length_map. fold first. lia. }
  assert (Hnext : currentFileIndex next = first + (n - 1)).
  { rewrite Hi0, Hi1. rewrite existsb_app in Hex. cbn [existsb] in Hex.
    rewrite orb_false_r in Hex.
    destruct (Nat.eqb_spec (fst lastRead) (n - 1)) as [->|_]; [reflexivity|].
    rewrite orb_false_r in Hex. now rewrite Hex. }
  assert (Hcf : currentFile next = Some (fileEntryOf (snd lastRead))).
  { unfold currentFile. rewrite Hnext, Ho0, <- Hl1. apply nth_error_middle. }
  assert (Hd : Funcional1.historyDepsChanged s1 next = true).
  { unfold Funcional1.historyDepsChanged.
    destruct (Nat.eqb_spec (currentFileIndex s1) (currentFileIndex next)) as [E|_];
      [|reflexivity].
    cbn [negb orb]. unfold Funcional1.currentFileName. rewrite Hcf.
    assert (Hnone : currentFile s1 = None).
    { unfold currentFile. apply nth_error_None. rewrite E, Hnext, Hl1. lia. }
    now rewrite Hnone. }
  rewrite Hd in Hh, Hx. unfold Funcional1.historyEffect in Hh, Hx. rewrite Hcf in Hh, Hx.
  exists s'. split; [reflexivity|]. split; [exact Herr|].
  split; [rewrite Ho, Ho0, Ho1, map_app, app_assoc; reflexivity|].
  split; [rewrite Hi, Hnext, Ho, Ho0, length_app, Hl1; cbn [length]; lia|].
  split; [unfold currentFile in *; now rewrite Ho, Hi|].
  split; [exact Hh|]. split; [exact Hx|]. now rewrite Hc, Hc0, Hc1.
Qed.

Lemma drop_text_files_witness :
  exists s',
    Funcional1.dropFiles
      [mkDropped (str "a.txt") (str "text/plain") (str "x");
       mkDropped (str "notes") [] (str "y")]
      ([(1, mkDropped (str "notes") [] (str "y"))]
       ++ [(0, mkDropped (str "a.txt") (str "text/plain") (str "x"))])
      initialState = Normal s'
    /\ currentFile s' = Some (mkFile (str "a.txt") (Some (str "x")))
    /\ history s' = [Some (str "x")].
Proof.
  assert (Hp : Permutation
                 ([(1, mkDropped (str "notes") [] (str "y"))]
                  ++ [(0, mkDropped (str "a.txt") (str "text/plain") (str "x"))])
                 (fst (Funcional1.handleDrop
                         [mkDropped (str "a.txt") (str "text/plain") (str "x");
                          mkDropped (str "notes") [] (str "y")])))
    by (vm_compute; apply perm_swap).
  destruct (drop_text_files
              [mkDropped (str "a.txt") (str "text/plain") (str "x");
               mkDropped (str "notes") [] (str "y")]
              [(1, mkDropped (str "notes") [] (str "y"))]
              (0, mkDropped (str "a.txt") (str "text/plain") (str "x"))
              initialState eq_refl Hp)
    as (s' & H1 & _ & _ & _ & H2 & H3 & _).
  exists s'. split; [exact H1|]. split; [exact H2|exact H3].
Defined.

(** X28: when some dropped file does not pass the filter of [handleDrop],
    an error notification is set for each such file and the others are
    appended as their reads complete; if the last dropped file passes, the
    index of the active document is set past the end of the list, so that
    no document is active; if it does not pass, the index is not written
    and the active document stays the active one. *)
Theorem drop_with_rejected_file (droppedFiles : list DroppedFile)
    (order : list (nat * DroppedFile)) (lastFile : DroppedFile) (s : State) :
  nth_error droppedFiles (length droppedFiles - 1) = Some lastFile ->
  forallb Funcional1.acceptsFile droppedFiles = false ->
  Permutation order (fst (Funcional1.handleDrop droppedFiles)) ->
  exists s',
    Funcional1.dropFiles droppedFiles order s = Normal s'
    /\ 1 <= length (snd (Funcional1.handleDrop droppedFiles))
    /\ length order + length (snd (Funcional1.handleDrop droppedFiles))
       = length droppedFiles
    /\ openedFiles s' = openedFiles s ++ map (fun r => fileEntryOf (snd r)) order
    /\ (Funcional1.acceptsFile lastFile = true ->
        currentFileIndex s' = length (openedFiles s) + length droppedFiles - 1
        /\ currentFile s' = None)
    /\ (Funcional1.acceptsFile lastFile = false ->
        currentFileIndex s' = currentFileIndex s
        /\ forall f, currentFile s = Some f -> currentFile s' = Some f).
Proof.
  intros Hlast Hrej Hperm. unfold Funcional1.handleDrop in *.
  set (n := length droppedFiles) in *. set (first := length (openedFiles s)).
  destruct (forEachDropped_errors 0 droppedFiles) as (_ & Herr). specialize (Herr Hrej).
  pose proof (forEachDropped_lengths 0 droppedFiles) as Hlen. fold n in Hlen.
  pose proof (Permutation_length Hperm) as Hpl.
  assert (Hn : 1 <= n).
  { assert (n - 1 < n) by (apply nth_error_Some; congruence). lia. }
  unfold Funcional1.dropFiles. fold n first.
  destruct (runReads_fields first n order s) as (s' & -> & Ho & Hi & Hc).
  exists s'. split; [reflexivity|]. split; [exact Herr|].
  split; [rewrite Hpl; exact Hlen|]. split; [exact Ho|]. split.
  - intro Hacc.
    assert (Hex : existsb (fun r => fst r =? n - 1) order = true).
    { apply existsb_exists. exists (n - 1, lastFile). split; [|apply Nat.eqb_refl].
      apply (Permutation_in _ (Permutation_sym Hperm)). apply In_forEachDropped.
      rewrite Nat.sub_0_r. split; [lia|]. now split. }
    rewrite Hex in Hi. split; [rewrite Hi; lia|].
    unfold currentFile. apply nth_error_None.
    rewrite Ho, Hi, length_app, length_map. fold first. lia.
  - intro Hacc.
    assert (Hex : existsb (fun r => fst r =? n - 1) order = false).
    { destruct (existsb (fun r => fst r =? n - 1) order) eqn:E; [|reflexivity].
      apply existsb_exists in E as ((j & f) & Hin & Hj). cbn [fst] in Hj.
      apply Nat.eqb_eq in Hj. subst j.
      apply (Permutation_in _ Hperm) in Hin. apply In_forEachDropped in Hin.
      rewrite Nat.sub_0_r in Hin. destruct Hin as (_ & Hf & Hacc').
      congruence. }
    rewrite Hex in Hi. split; [exact Hi|].
    intros f Hf. unfold currentFile in *. rewrite Ho, Hi.
    rewrite nth_error_app1; [exact Hf|]. apply nth_error_Some. congruence.
Qed.

Lemma drop_with_rejected_file_witness :
  exists s',
    Funcional1.dropFiles
      [mkDropped (str "p.png") (str "image/png") (str "?");
       mkDropped (str "a.txt") (str "text/plain") (str "x")]
      [(1, mkDropped (str "a.txt") (str "text/plain") (str "x"))]
      initialState = Normal s'
    /\ openedFiles s' = [mkFile (str "a.txt") (Some (str "x"))]
    /\ currentFile s' = None.
Proof.
  assert (Hp : Permutation
                 [(1, mkDropped (str "a.txt") (str "text/plain") (str "x"))]
                 (fst (Funcional1.handleDrop
                         [mkDropped (str "p.png") (str "image/png") (str "?");
                          mkDropped (str "a.txt") (str "text/plain") (str "x")])))
    by (vm_compute; apply Permutation_refl).
  destruct (drop_with_rejected_file
              [mkDropped (str "p.png") (str "image/png") (str "?");
               mkDropped (str "a.txt") (str "text/plain") (str "x")]
              [(1, mkDropped (str "a.txt") (str "text/plain") (str "x"))]
              (mkDropped (str "a.txt") (str "text/plain") (str "x"))
              initialState eq_refl eq_refl Hp)
    as (s' & H1 & _ & _ & H2 & H3 & _).
  exists s'. split; [exact H1|]. split; [exact H2|]. apply H3. reflexivity.
Defined.

Lemma App_runReads_fields (closure : nat) (order : list DroppedFile) (s : State) :
  exists s',
    AppJsx.runReads closure order s = Normal s'
    /\ openedFiles s' = openedFiles s ++ map fileEntryOf order
    /\ cursorPosition s' = cursorPosition s.
Proof.
  revert s. induction order as [|f order IH]; intro s.
  - exists s. cbn [map]. now rewrite app_nil_r.
  - cbn [AppJsx.runReads]. unfold AppJsx.onload, AppJsx.dispatch. cbn [bind].
    destruct (searchEffect_fields (AppJsx.readerOnloadAt closure (fileEntryOf f) s))
      as (s1 & -> & Ho & _ & Hc & _).
    cbn [bind]. destruct (IH s1) as (s' & -> & Ho' & Hc').
    exists s'. split; [reflexivity|]. rewrite Ho', Hc', Ho, Hc.
    cbn [AppJsx.readerOnloadAt openedFiles cursorPosition setHistoryIndex setHistory
           setCurrentFileIndex setOpenedFiles map].
    now rewrite <- app_assoc.
Qed.

Lemma App_runReads_app (closure : nat) (p q : list DroppedFile) (s : State) :
  AppJsx.runReads closure (p ++ q) s
  = let* s1 := AppJsx.runReads closure p s in AppJsx.runReads closure q s1.
Proof.
  revert s. induction p as [|f p IH]; intro s; [reflexivity|].
  cbn [app AppJsx.runReads].
  destruct (AppJsx.onload closure f s) as [s1| |]; cbn [bind]; [apply IH| |]; reflexivity.
Qed.

Lemma length_filter_negb {A} (p : A -> bool) (l : list A) :
  length (filter p l) + length (filter (fun x => negb (p x)) l) = length l.
Proof.
  induction l as [|x l IH]; [reflexivity|]. cbn [filter].
  destruct (p x); cbn [negb length]; lia.
Qed.

(** X29: in App.jsx every [onload] of a drop sets the active index to the
    length the list had at the time of the drop and the history to the
    content it has read.  When two or more reads complete, the active
    document is the file read first while the history holds the content
    of the file read last: if the two contents differ, the history entry
    is not the content of the active document. *)
Theorem drop_several_files_App (droppedFiles : list DroppedFile)
    (firstFile lastFile : DroppedFile) (mid : list DroppedFile) (s : State) :
  Permutation (firstFile :: mid ++ [lastFile]) (fst (AppJsx.handleDrop droppedFiles)) ->
  exists s',
    AppJsx.dropFiles (firstFile :: mid ++ [lastFile]) s = Normal s'
    /\ openedFiles s' = openedFiles s ++ map fileEntryOf (firstFile :: mid ++ [lastFile])
    /\ length (openedFiles s') + snd (AppJsx.handleDrop droppedFiles)
       = length (openedFiles s) + length droppedFiles
    /\ currentFile s' = Some (fileEntryOf firstFile)
    /\ history s' = [Some (file_text lastFile)] /\ historyIndex s' = 0%Z
    /\ (file_text firstFile <> file_text lastFile -> ~ historyInv s').
Proof.
  intro Hperm. unfold AppJsx.dropFiles.
  change (firstFile :: mid ++ [lastFile]) with ((firstFile :: mid) ++ [lastFile]) in *.
  rewrite App_runReads_app.
  destruct (App_runReads_fields (length (openedFiles s)) (firstFile :: mid) s)
    as (s1 & -> & Ho1 & _).
  cbn [bind AppJsx.runReads]. unfold AppJsx.onload, AppJsx.dispatch. cbn [bind].
  destruct (searchEffect_fields
              (AppJsx.readerOnloadAt (length (openedFiles s)) (fileEntryOf lastFile) s1))
    as (s' & -> & Ho & Hi & _ & Hh & Hx).
  cbn [bind]. cbn [AppJsx.readerOnloadAt openedFiles currentFileIndex history historyIndex
                     setHistoryIndex setHistory setCurrentFileIndex setOpenedFiles
                     fileEntryOf content] in Ho, Hi, Hh, Hx.
  assert (Hfiles : openedFiles s'
                   = openedFiles s ++ map fileEntryOf ((firstFile :: mid) ++ [lastFile])).
  { rewrite Ho, Ho1, map_app, app_assoc. reflexivity. }
  assert (Hcf : currentFile s' = Some (fileEntryOf firstFile)).
  { unfold currentFile. rewrite Hfiles, Hi. cbn [app map]. apply nth_error_middle. }
  exists s'. split; [reflexivity|]. split; [exact Hfiles|]. split.
  - pose proof (Permutation_length Hperm) as Hpl.
    pose proof (length_filter_negb AppJsx.acceptsFile droppedFiles) as Hlen.
    unfold AppJsx.handleDrop in *. cbn [fst snd] in *.
    rewrite Hfiles, length_app, length_map, Hpl. lia.
  - split; [exact Hcf|]. split; [exact Hh|]. split; [exact Hx|].
    intros Hne (f & Hf & _ & Hlive). rewrite Hcf in Hf. injection Hf as <-.
    rewrite Hh, Hx in Hlive. cbn in Hlive. congruence.
Qed.

Lemma drop_several_files_App_witness :
  exists s',
    AppJsx.dropFiles
      (mkDropped (str "a.txt") (str "text/plain") (str "x")
       :: [] ++ [mkDropped (str "b.txt") (str "text/plain") (str "y")])
      initialState = Normal s'
    /\ currentFile s' = Some (mkFile (str "a.txt") (Some (str "x")))
    /\ history s' = [Some (str "y")]
    /\ ~ historyInv s'.
Proof.
  assert (Hp : Permutation
                 (mkDropped (str "a.txt") (str "text/plain") (str "x")
                  :: [] ++ [mkDropped (str "b.txt") (str "text/plain") (str "y")])
                 (fst (AppJsx.handleDrop
                         [mkDropped (str "a.txt") (str "text/plain") (str "x");
                          mkDropped (str "p.png") (str "image/png") (str "?");
                          mkDropped (str "b.txt") (str "text/plain") (str "y")])))
    by (vm_compute; apply Permutation_refl).
  destruct (drop_several_files_App
              [mkDropped (str "a.txt") (str "text/plain") (str "x");
               mkDropped (str "p.png") (str "image/png") (str "?");
               mkDropped (str "b.txt") (str "text/plain") (str "y")]
              (mkDropped (str "a.txt") (str "text/plain") (str "x"))
              (mkDropped (str "b.txt") (str "text/plain") (str "y"))
              [] initialState Hp)
    as (s' & H1 & _ & _ & H2 & H3 & _ & H4).
  exists s'. split; [exact H1|]. split; [exact H2|]. split; [exact H3|].
  apply H4. discriminate.
Defined.

(* ------------------------------------------------------------------ *)
(** ** The dependencies of the search effect in App.jsx *)

Lemma App_updateContentAndHistory_searchResults (s : State) (f : FileEntry)
    (c : option jstring) (b : bool) (pending : State) :
  searchResults (AppJsx.updateContentAndHistory s f c b pending) = searchResults pending.
Proof. unfold AppJsx.updateContentAndHistory. now destruct (_ && _). Qed.

Lemma App_handleKeyDown_searchResults (e : KeyEvent) (s s1 : State) :
  AppJsx.handleKeyDown e s = Normal s1 -> searchResults s1 = searchResults s.
Proof.
  unfold AppJsx.handleKeyDown.
  destruct (currentFile s) as [f|]; [|now intros [= <-]].
  destruct (accelerator e "s"); [now intros [= <-]|].
  destruct (accelerator e "z").
  { destruct (0 <? historyIndex s)%Z; intros [= <-]; [|reflexivity].
    now rewrite App_updateContentAndHistory_searchResults. }
  destruct (accelerator e "y").
  { destruct (historyIndex s <? Z.of_nat (length (history s)) - 1)%Z; intros [= <-];
      [|reflexivity].
    now rewrite App_updateContentAndHistory_searchResults. }
  destruct (content f) as [text|]; cbn [stringOf bind]; [|discriminate].
  destruct (keySwitch _ _ _ _ _) as [r| |]; cbn [bind]; try discriminate.
  intros [= <-]. cbn [searchResults setCursorPosition].
  destruct (sw_contentChanged r); [|reflexivity].
  now rewrite App_updateContentAndHistory_searchResults.
Qed.

Lemma appHandlerOf_searchResults (ev : Event) (h : State -> Completion State)
    (s s1 : State) :
  appHandlerOf ev = Some h -> h s = Normal s1 -> searchResults s1 = searchResults s.
Proof.
  destruct ev; cbn [appHandlerOf]; intros [= <-]; try (now intros [= <-]).
  apply App_handleKeyDown_searchResults.
Qed.

(** X30: the same in App.jsx, whose effect has the same dependencies: from
    a state whose stored results are those of its query and content,
    every event this file has on the same list (dropping a file, selecting
    a file, a key, typing in the search field), followed by a render in
    which the search effect runs only when React finds a dependency
    changed, leads to the state reached when the effect runs after every
    render, and its stored results are again those of its query and
    content. *)
Theorem search_results_up_to_date_App (ev : Event) (h : State -> Completion State)
    (rerun : bool) (s s1 : State) :
  appHandlerOf ev = Some h ->
  searchEffect s = Normal s ->
  h s = Normal s1 ->
  (searchDepsChanged s s1 = true -> rerun = true) ->
  exists s',
    AppJsx.dispatchWhen rerun h s = Normal s'
    /\ AppJsx.dispatch h s = Normal s'
    /\ searchEffect s' = Normal s'
    /\ (searchQuery s' = [] -> searchResults s' = [])
    /\ (forall f text,
          currentFile s' = Some f -> content f = Some text -> searchQuery s' <> [] ->
          searchResults s' = findSpec (searchQuery s') 0 (split nl text)).
Proof.
  intros Hev Hup Hh Hrun.
  unfold AppJsx.dispatchWhen, AppJsx.dispatch. rewrite Hh. cbn [bind].
  destruct (searchEffect_shape s1 []) as (r & E & _).
  assert (Hsame : (if rerun then searchEffect s1 else Normal s1) = searchEffect s1).
  { destruct rerun; [reflexivity|].
    destruct (searchDepsChanged s s1) eqn:Hd; [now specialize (Hrun eq_refl)|].
    destruct (searchDeps_same s s1 Hd) as (Hq1 & Hf1).
    destruct (searchEffect_deps s s1 Hq1 Hf1) as (r' & E1 & E2).
    rewrite E1 in Hup. injection Hup as Hup. apply (f_equal searchResults) in Hup.
    cbn [searchResults setSearchResults] in Hup. subst r'.
    rewrite E2, <- (appHandlerOf_searchResults ev h s s1 Hev Hh).
    now rewrite setSearchResults_same. }
  rewrite Hsame, E. eexists. split; [reflexivity|]. split; [reflexivity|].
  assert (Hfix : searchEffect (setSearchResults r s1) = Normal (setSearchResults r s1)).
  { destruct (searchEffect_shape s1 r) as (r' & E1 & E2).
    rewrite E in E1. injection E1 as E1. subst r'. exact E2. }
  split; [exact Hfix|]. split.
  - intro Hq0. unfold searchEffect in Hfix. rewrite Hq0 in Hfix.
    injection Hfix as Hfix. symmetry. exact Hfix.
  - intros f text Hf0 Hc Hq0.
    rewrite (searchEffect_findSpec _ f text Hf0 Hc Hq0) in Hfix.
    injection Hfix as Hfix. symmetry. exact Hfix.
Qed.

Lemma search_results_up_to_date_App_witness :
  exists s',
    AppJsx.dispatchWhen false (AppJsx.handleKeyDown (plainKey "ArrowRight"))
      (setSearchResults [mkResult 0 1 2] (searching ab_cd (str "b") [] 0 0))
    = Normal s'
    /\ searchEffect s' = Normal s'.
Proof.
  assert (Hup : searchEffect (setSearchResults [mkResult 0 1 2]
                                (searching ab_cd (str "b") [] 0 0))
                = Normal (setSearchResults [mkResult 0 1 2]
                            (searching ab_cd (str "b") [] 0 0)))
    by (vm_compute; reflexivity).
  assert (H : exists s1,
             AppJsx.handleKeyDown (plainKey "ArrowRight")
               (setSearchResults [mkResult 0 1 2] (searching ab_cd (str "b") [] 0 0))
             = Normal s1
             /\ searchDepsChanged
                  (setSearchResults [mkResult 0 1 2] (searching ab_cd (str "b") [] 0 0)) s1
                = false)
    by (eexists; split; [vm_compute; reflexivity|vm_compute; reflexivity]).
  destruct H as (s1 & H1 & H2).
  assert (H3 : searchDepsChanged
                 (setSearchResults [mkResult 0 1 2] (searching ab_cd (str "b") [] 0 0)) s1
               = true -> false = true)
    by (intro E; rewrite H2 in E; discriminate E).
  destruct (search_results_up_to_date_App (EvKey (plainKey "ArrowRight"))
              (AppJsx.handleKeyDown (plainKey "ArrowRight")) false
              (setSearchResults [mkResult 0 1 2] (searching ab_cd (str "b") [] 0 0)) s1
              eq_refl Hup H1 H3)
    as (s' & Hd & _ & Hfix & _).
  exists s'. split; [exact Hd|exact Hfix].
Defined.
